(** * The fractional-cover virtual product ([fc/virtualproduct.py])

    A shallow embedding of the module: the [FractionalCover] and
    [FakeFractionalCover] transformations, [scale_usgs_collection2] and
    [scale_and_clip_dataarray].

    The module is a client of xarray and numpy.  The parts of those
    libraries it calls are modelled in the first half of the file:

    - Python objects that the code mutates or shares live in a [store]:
      numpy buffers and attribute dictionaries are reached through
      locations, so that [orig_attrs = dataarray.attrs] is an alias and
      [dataarray.attrs['nodata'] = ...] an in-place update;
    - exceptions are an explicit result, threaded together with the store
      by the monad [M];
    - numpy's cell arithmetic is an interface ([ArrayLib]) with a binary64
      instance built on the kernel's floats. *)

From Stdlib Require Import ZArith Lia.
From Stdlib Require PrimFloat SpecFloat FloatOps.
From stdpp Require Import gmap strings list fin_maps.

Local Open Scope string_scope.
Local Open Scope list_scope.
Local Open Scope Z_scope.

(** ** Python values *)

(** A Python number: an [int] or a [float]. *)
Inductive pynum :=
  | PInt (z : Z)
  | PFloat (f : PrimFloat.float).

(** The value of an attribute ([attrs] entries such as ['nodata'],
    ['units'], ['crs']). *)
Inductive attr :=
  | AInt (z : Z)
  | AStr (s : string).

(** The exceptions the modelled code and library calls raise.  [InvalidRef]
    is not a Python exception: it is the model's answer to a location that
    is absent from the store, which no Python program can hold. *)
Inductive exn :=
  | KeyError (key : string)
  | ValueError
  | AttributeError (name : string)
  | IndexError
  | InvalidRef.

Definition exn_name (e : exn) : string :=
  match e with
  | KeyError _ => "KeyError"
  | ValueError => "ValueError"
  | AttributeError _ => "AttributeError"
  | IndexError => "IndexError"
  | InvalidRef => "InvalidRef"
  end.

Inductive result (A : Type) :=
  | Ok (a : A)
  | Raise (e : exn).
Arguments Ok {A} a.
Arguments Raise {A} e.

(** ** Integer dtypes *)

Inductive dtype := int8 | int16 | int32 | int64 | uint8 | uint16 | uint32 | uint64.

Definition bits (dt : dtype) : Z :=
  match dt with
  | int8 | uint8 => 8
  | int16 | uint16 => 16
  | int32 | uint32 => 32
  | int64 | uint64 => 64
  end.

Definition signed (dt : dtype) : bool :=
  match dt with
  | int8 | int16 | int32 | int64 => true
  | _ => false
  end.

Definition dtype_min (dt : dtype) : Z :=
  if signed dt then - 2 ^ (bits dt - 1) else 0.

Definition dtype_max (dt : dtype) : Z :=
  if signed dt then 2 ^ (bits dt - 1) - 1 else 2 ^ bits dt - 1.

Definition in_range (dt : dtype) (z : Z) : Prop :=
  dtype_min dt <= z <= dtype_max dt.

(** Storing a Python int into an array of type [dt]: the value modulo the
    width (numpy 1.x; from numpy 2 an int outside the range is refused). *)
Definition wrap (dt : dtype) (z : Z) : Z :=
  (z - dtype_min dt) mod 2 ^ bits dt + dtype_min dt.

(** ** numpy's cell arithmetic *)

(** What [scale_and_clip_dataarray] asks of numpy, cell by cell: the
    product of a raw integer cell with a Python scalar, the sum of a cell
    with a scalar, [clip], and the conversion [astype] to an integer
    dtype.  [scalar] is the type of [scale_factor], [add_offset] and the
    clip bounds, with the Python literals injected by [int_scalar] and
    [float_scalar]; [elt] is the cell type after the arithmetic. *)
Class ArrayLib := {
  scalar : Type;
  elt : Type;
  int_scalar : Z -> scalar;
  float_scalar : PrimFloat.float -> scalar;
  times : Z -> scalar -> elt;
  plus : elt -> scalar -> elt;
  clip_elt : scalar -> scalar -> elt -> elt;
  astype_elt : dtype -> elt -> Z
}.

(** binary64 arithmetic: an integer array times a Python float is a
    float64 array, and stays one when an int or a float is added. *)
Module Float64.
Import PrimFloat.

(** Conversion of an integer cell, rounding to nearest even. *)
Definition of_Z (z : Z) : float :=
  FloatOps.SF2Prim (SpecFloat.binary_normalize FloatOps.prec FloatOps.emax z 0 false).

(** The integer part of a finite float (rounding toward zero). *)
Definition trunc (f : float) : option Z :=
  match FloatOps.Prim2SF f with
  | SpecFloat.S754_zero _ => Some 0
  | SpecFloat.S754_finite s m e =>
      let v := match e with
               | Z0 => Zpos m
               | Zpos p => Zpos m * 2 ^ Zpos p
               | Zneg p => Zpos m / 2 ^ Zpos p
               end in
      Some (if s then - v else v)
  | _ => None
  end.

(** [np.clip]: [min(max(x, lo), hi)], a NaN cell staying NaN. *)
Definition fmax (a b : float) : float :=
  if is_nan a then a else if ltb b a then a else b.

Definition fmin (a b : float) : float :=
  if is_nan a then a else if ltb a b then a else b.

Definition clip (lo hi x : float) : float := fmin (fmax x lo) hi.

(** [astype] from float64 to an integer dtype is C's conversion: the
    integer part when it fits the type.  Outside the range (and for NaN
    and the infinities) C leaves the result undefined; what the platform
    stores there is the parameter [indefinite]. *)
Definition cast (indefinite : dtype -> float -> Z) (dt : dtype) (f : float) : Z :=
  match trunc f with
  | Some z => if (dtype_min dt <=? z) && (z <=? dtype_max dt) then z else indefinite dt f
  | None => indefinite dt f
  end.

Definition lib (indefinite : dtype -> float -> Z) : ArrayLib := {|
  scalar := float;
  elt := float;
  int_scalar := of_Z;
  float_scalar f := f;
  times z s := mul (of_Z z) s;
  plus e s := add e s;
  clip_elt := clip;
  astype_elt := cast indefinite
|}.

(** The Python literal [0.275]: the binary64 number nearest to it. *)
Definition lit_0_275 : float := 0x1.199999999999ap-2%float.

End Float64.

(** ** The store *)

Definition loc := positive.

Abbreviation ndarray := (list (list (list Z))).
Abbreviation attrs := (gmap string attr).

(** numpy buffers (indexed [time][y][x]) and attribute dictionaries. *)
Record store := Store {
  arrays : gmap loc ndarray;
  dicts : gmap loc attrs
}.

(** Store passing with exceptions: a raised exception keeps the store
    reached so far. *)
Definition M (A : Type) : Type := store -> result A * store.

Definition ret {A} (a : A) : M A := fun s => (Ok a, s).

Definition raise {A} (e : exn) : M A := fun s => (Raise e, s).

Definition bind {A B} (m : M A) (k : A -> M B) : M B :=
  fun s =>
    match m s with
    | (Ok a, s') => k a s'
    | (Raise e, s') => (Raise e, s')
    end.

Declare Scope py_scope.
Delimit Scope py_scope with py.
Notation "'let!' x ':=' c1 'in' c2" := (bind c1 (fun x => c2))
  (at level 10, x name, c1 at level 100, c2 at level 200) : py_scope.
Notation "'do!' c1 'in' c2" := (bind c1 (fun _ => c2))
  (at level 10, c1 at level 100, c2 at level 200) : py_scope.
Local Open Scope py_scope.

(** [try: m except ValueError: h]. *)
Definition try_except_ValueError {A} (m : M A) (h : M A) : M A :=
  fun s =>
    match m s with
    | (Raise ValueError, s') => h s'
    | r => r
    end.

Definition lift {A} (r : result A) : M A := fun s => (r, s).

Fixpoint mapM {A B} (f : A -> M B) (l : list A) : M (list B) :=
  match l with
  | [] => ret []
  | x :: l' => let! y := f x in let! ys := mapM f l' in ret (y :: ys)
  end.

(** *** Allocation, reads and in-place updates *)

Definition alloc_array (a : ndarray) : M loc :=
  fun s =>
    let l := fresh (dom (arrays s)) in
    (Ok l, Store (<[l := a]> (arrays s)) (dicts s)).

Definition alloc_dict (d : attrs) : M loc :=
  fun s =>
    let l := fresh (dom (dicts s)) in
    (Ok l, Store (arrays s) (<[l := d]> (dicts s))).

Definition read_array (l : loc) : M ndarray :=
  fun s =>
    match arrays s !! l with
    | Some a => (Ok a, s)
    | None => (Raise InvalidRef, s)
    end.

Definition read_dict (l : loc) : M attrs :=
  fun s =>
    match dicts s !! l with
    | Some d => (Ok d, s)
    | None => (Raise InvalidRef, s)
    end.

(** [d[k]]. *)
Definition dict_getitem (l : loc) (k : string) : M attr :=
  let! d := read_dict l in
  match d !! k with
  | Some v => ret v
  | None => raise (KeyError k)
  end.

(** [d[k] = v], in place. *)
Definition dict_setitem (l : loc) (k : string) (v : attr) : M unit :=
  fun s =>
    match dicts s !! l with
    | Some d => (Ok tt, Store (arrays s) (<[l := <[k := v]> d]> (dicts s)))
    | None => (Raise InvalidRef, s)
    end.

(** [dict(d)]: a new dictionary with the entries of [d]. *)
Definition copy_dict (l : loc) : M loc :=
  let! d := read_dict l in alloc_dict d.

Definition map3 {A B} (f : A -> B) (a : list (list (list A))) : list (list (list B)) :=
  (fun plane : list (list A) => (fun row : list A => f <$> row) <$> plane) <$> a.

(** The cells selected by [mask] replaced by [v]. *)
Definition where3 (mask : list (list (list bool))) (v : Z) (a : ndarray) : ndarray :=
  zip_with (zip_with (zip_with (fun (m : bool) x => if m then v else x))) mask a.

(** [buf[mask] = v], in place. *)
Definition array_setmask (l : loc) (mask : list (list (list bool))) (v : Z) : M unit :=
  fun s =>
    match arrays s !! l with
    | Some a => (Ok tt, Store (<[l := where3 mask v a]> (arrays s)) (dicts s))
    | None => (Raise InvalidRef, s)
    end.

Definition cell {A} (a : list (list (list A))) (t y x : nat) : option A :=
  match a !! t with
  | Some plane => match plane !! y with Some row => row !! x | None => None end
  | None => None
  end.

(** ** xarray objects *)

(** A [DataArray]: its data is a numpy buffer or a view of one (basic
    slicing along [y] and [x] gives a view: the first [h] rows and [w]
    columns of the buffer); its attributes are a dictionary. *)
Record DataArray := {
  da_buf : loc;
  da_window : option (nat * nat);
  da_attrs : loc
}.

Definition crop (h w : nat) (a : ndarray) : ndarray :=
  (fun plane : list (list Z) => take w <$> take h plane) <$> a.

Definition view (win : option (nat * nat)) (a : ndarray) : ndarray :=
  match win with
  | None => a
  | Some (h, w) => crop h w a
  end.

(** [dataarray.data], read. *)
Definition DataArray_data (da : DataArray) : M ndarray :=
  let! a := read_array (da_buf da) in ret (view (da_window da) a).

(** [dataarray.attrs = value]: xarray's setter stores [dict(value)]. *)
Definition DataArray_set_attrs (da : DataArray) (value : loc) : M DataArray :=
  let! a := copy_dict value in
  ret {| da_buf := da_buf da; da_window := da_window da; da_attrs := a |}.

(** [data == nodata] on one cell of an integer array. *)
Definition eq_nodata (nodata : attr) (v : Z) : bool :=
  match nodata with
  | AInt n => v =? n
  | AStr _ => false
  end.

(** ** [scale_and_clip_dataarray] *)

Section Normalizer.
Context {L : ArrayLib}.

Definition scale_and_clip_dataarray (dataarray : DataArray)
    (scale_factor add_offset : scalar) (clip_range : option (scalar * scalar))
    (new_nodata : Z) (new_dtype : dtype) : M DataArray :=
  let orig_attrs := da_attrs dataarray in
  let! nodata := dict_getitem (da_attrs dataarray) "nodata" in
  let! raw := DataArray_data dataarray in
  let mask := map3 (eq_nodata nodata) raw in
  (* dataarray = dataarray * scale_factor + add_offset *)
  let scaled := map3 (fun e => plus e add_offset) (map3 (fun v => times v scale_factor) raw) in
  (* the array that clip returns is not bound to a name *)
  let _ := match clip_range with
           | Some (clip_min, clip_max) => Some (map3 (clip_elt clip_min clip_max) scaled)
           | None => None
           end in
  (* dataarray = dataarray.astype(new_dtype): a new buffer, and attributes
     of its own (the arithmetic does not keep those of its operand) *)
  let! buf := alloc_array (map3 (astype_elt new_dtype) scaled) in
  let! a := alloc_dict ∅ in
  let dataarray := {| da_buf := buf; da_window := None; da_attrs := a |} in
  do! array_setmask (da_buf dataarray) mask (wrap new_dtype new_nodata) in
  let! dataarray := DataArray_set_attrs dataarray orig_attrs in
  do! dict_setitem (da_attrs dataarray) "nodata" (AInt new_nodata) in
  ret dataarray.

End Normalizer.

(** ** Datasets *)

(** A [Dataset]: its data variables in insertion order, the time
    coordinate, and the cube-level attribute dictionary.  The spatial
    coordinates are not represented: the extent along [y] and [x] is that
    of the variables' data. *)
Record Dataset := {
  data_vars : list (string * DataArray);
  time : list Z;
  ds_attrs : loc
}.

Fixpoint lookup_var {A} (k : string) (l : list (string * A)) : option A :=
  match l with
  | [] => None
  | (k', v) :: l' => if decide (k = k') then Some v else lookup_var k l'
  end.

(** [data.name]. *)
Definition Dataset_getattr (data : Dataset) (name : string) : M DataArray :=
  match lookup_var name (data_vars data) with
  | Some da => ret da
  | None => raise (AttributeError name)
  end.

(** [Variable.copy(deep=False)]: the same buffer, a copy of the
    attributes. *)
Definition shallow_copy (da : DataArray) : M DataArray :=
  DataArray_set_attrs da (da_attrs da).

Definition map_vars (f : DataArray -> M DataArray) (vars : list (string * DataArray)) :
    M (list (string * DataArray)) :=
  mapM (fun kv : string * DataArray => let! v := f kv.2 in ret (kv.1, v)) vars.

(** [xr.Dataset(variables, attrs=attrs)]: every variable is copied
    shallowly and [attrs] is copied ([None] gives an empty dictionary).
    The time coordinate that the variables carry is passed explicitly. *)
Definition Dataset_init (variables : list (string * DataArray)) (coord : list Z)
    (attrs : option loc) : M Dataset :=
  let! variables := map_vars shallow_copy variables in
  let! a := match attrs with
            | Some l => copy_dict l
            | None => alloc_dict ∅
            end in
  ret {| data_vars := variables; time := coord; ds_attrs := a |}.

(** Basic slicing of a variable along [y] and [x] with [slice(0, h)] and
    [slice(0, w)]: a view of the same buffer and a copy of the
    attributes. *)
Definition slice_window (h w : nat) (win : option (nat * nat)) : option (nat * nat) :=
  match win with
  | None => Some (h, w)
  | Some (h0, w0) => Some (h0 `min` h, w0 `min` w)%nat
  end.

Definition Variable_isel_yx (h w : nat) (da : DataArray) : M DataArray :=
  let! a := copy_dict (da_attrs da) in
  ret {| da_buf := da_buf da; da_window := slice_window h w (da_window da); da_attrs := a |}.

(** [data.isel(x=slice(0, w), y=slice(0, h))]: the result shares the
    cube-level attribute dictionary with [data]. *)
Definition Dataset_isel_yx (h w : nat) (data : Dataset) : M Dataset :=
  let! variables := map_vars (Variable_isel_yx h w) (data_vars data) in
  ret {| data_vars := variables; time := time data; ds_attrs := ds_attrs data |}.

(** *** Time slices *)

(** One time step of a cube, by value: what [fractional_cover] is given
    and what it returns. *)
Record Variable2 := {
  v_values : list (list Z);
  v_attrs : attrs
}.

Record Slice := {
  sl_vars : list (string * Variable2);
  sl_time : Z;
  sl_attrs : attrs
}.

Fixpoint mapR {A B} (f : A -> result B) (l : list A) : result (list B) :=
  match l with
  | [] => Ok []
  | x :: l' =>
      match f x with
      | Ok y => match mapR f l' with Ok ys => Ok (y :: ys) | Raise e => Raise e end
      | Raise e => Raise e
      end
  end.

Definition variable_at (s : store) (i : nat) (da : DataArray) : result Variable2 :=
  match arrays s !! da_buf da, dicts s !! da_attrs da with
  | Some a, Some d =>
      match view (da_window da) a !! i with
      | Some plane => Ok {| v_values := plane; v_attrs := d |}
      | None => Raise IndexError
      end
  | _, _ => Raise InvalidRef
  end.

Definition slice_at (s : store) (data : Dataset) (i : nat) : result Slice :=
  match time data !! i with
  | None => Raise IndexError
  | Some t =>
      match mapR (fun kv : string * DataArray =>
                    match variable_at s i kv.2 with
                    | Ok v => Ok (kv.1, v)
                    | Raise e => Raise e
                    end) (data_vars data) with
      | Raise e => Raise e
      | Ok vars =>
          match dicts s !! ds_attrs data with
          | Some d => Ok {| sl_vars := vars; sl_time := t; sl_attrs := d |}
          | None => Raise InvalidRef
          end
      end
  end.

(** [data.isel(time=i)], read. *)
Definition Dataset_isel_time (data : Dataset) (i : nat) : M Slice :=
  fun s => (slice_at s data i, s).

Definition names {A} (vars : list (string * A)) : list string := fst <$> vars.

Definition same_names (a b : Slice) : bool :=
  bool_decide (names (sl_vars a) ⊆ names (sl_vars b) ∧ names (sl_vars b) ⊆ names (sl_vars a)).

(** The planes of variable [k], one per object. *)
Definition planes_of (k : string) (objs : list Slice) : ndarray :=
  omap (fun o : Slice => v_values <$> lookup_var k (sl_vars o)) objs.

(** One variable of a concatenation: a new buffer with the planes of the
    objects, and the attributes of the variable of the first object. *)
Definition concat_var (objs : list Slice) (kv : string * Variable2) : M (string * DataArray) :=
  let! buf := alloc_array (planes_of kv.1 objs) in
  let! a := alloc_dict (v_attrs kv.2) in
  ret (kv.1, {| da_buf := buf; da_window := None; da_attrs := a |}).

(** [xr.concat(objs, dim='time')] on time slices: the variables and the
    attributes of the first object, every variable stacked along a new
    time axis in the order of [objs].  An empty list is refused, and so
    are objects that do not have the same variables.  (Slices of
    different spatial extent, which xarray would align, are outside the
    model: the planes are stacked as they are.) *)
Definition xr_concat (objs : list Slice) : M Dataset :=
  match objs with
  | [] => raise ValueError
  | first :: _ =>
      if forallb (same_names first) objs then
        let! variables := mapM (concat_var objs) (sl_vars first) in
        let! a := alloc_dict (sl_attrs first) in
        ret {| data_vars := variables; time := sl_time <$> objs; ds_attrs := a |}
      else raise ValueError
  end.

(** *** Renaming *)

Definition new_name (name_dict : list (string * string)) (k : string) : string :=
  default k (lookup_var k name_dict).

Fixpoint rename_vars (name_dict : list (string * string)) (done : list string)
    (vars : list (string * DataArray)) : M (list (string * DataArray)) :=
  match vars with
  | [] => ret []
  | (k, v) :: vars' =>
      let! var := shallow_copy v in
      let name := new_name name_dict k in
      if bool_decide (name ∈ done) then raise ValueError
      else
        let! rest := rename_vars name_dict (name :: done) vars' in
        ret ((name, var) :: rest)
  end.

(** [ds.rename(name_dict)] for keys that name data variables: a key that
    is not a variable of [ds] is refused with a [ValueError], and so is a
    new name that meets a name already given.  The result is a new
    dataset: shallow copies of the variables and a copy of the
    attributes. *)
Definition Dataset_rename (ds : Dataset) (name_dict : list (string * string)) : M Dataset :=
  if forallb (fun kv : string * string => bool_decide (kv.1 ∈ names (data_vars ds))) name_dict then
    let! variables := rename_vars name_dict [] (data_vars ds) in
    let! a := copy_dict (ds_attrs ds) in
    ret {| data_vars := variables; time := time ds; ds_attrs := a |}
  else raise ValueError.

(** ** The module *)

Record Measurement := {
  m_name : string;
  m_dtype : dtype;
  m_nodata : Z;
  m_units : string
}.

Definition FC_MEASUREMENTS : list Measurement :=
  [ {| m_name := "pv"; m_dtype := int8; m_nodata := -1; m_units := "percent" |};
    {| m_name := "npv"; m_dtype := int8; m_nodata := -1; m_units := "percent" |};
    {| m_name := "bs"; m_dtype := int8; m_nodata := -1; m_units := "percent" |};
    {| m_name := "ue"; m_dtype := int8; m_nodata := -1; m_units := "" |} ].

Record FractionalCover := {
  regression_coefficients : gmap string (list pynum);
  c2_scaling : bool;
  test_mode : bool
}.

Definition required_bands : list string := ["green"; "red"; "nir"; "swir1"; "swir2"].

(** [FractionalCover.__init__]. *)
Definition FractionalCover_init (regression_coefficients : option (gmap string (list pynum)))
    (c2_scaling test_mode : bool) : FractionalCover :=
  let regression_coefficients :=
    match regression_coefficients with
    | None => list_to_map ((fun band : string => (band, [PInt 0; PInt 1])) <$> required_bands)
    | Some rc => rc
    end in
  {| regression_coefficients := regression_coefficients;
     c2_scaling := c2_scaling;
     test_mode := test_mode |}.

(** [FractionalCover.measurements]. *)
Definition FractionalCover_measurements (self : FractionalCover)
    (input_measurements : list Measurement) : list (string * Measurement) :=
  (fun m => (m_name m, m)) <$> FC_MEASUREMENTS.

(** The dictionary that [algorithm_metadata] returns, a record per
    level of keys. *)
Record Parameters := {
  p_regression_coefficients : gmap string (list pynum);
  p_usgs_c2_scaling : bool
}.

Record Algorithm := {
  a_name : string;
  a_version : string;
  a_repo_url : string;
  a_parameters : Parameters
}.

Record Metadata := {
  algorithm : Algorithm
}.

(** [FractionalCover.algorithm_metadata]; [version] is [fc.__version__],
    which fc/__init__.py defines. *)
Definition FractionalCover_algorithm_metadata (version : string) (self : FractionalCover) :
    Metadata :=
  {| algorithm :=
       {| a_name := "Fractional Cover";
          a_version := version;
          a_repo_url := "https://github.com/GeoscienceAustralia/fc.git";
          a_parameters :=
            {| p_regression_coefficients := regression_coefficients self;
               p_usgs_c2_scaling := c2_scaling self |} |} |}.




(** [v._copy_attrs_from(orig)] for a resulting variable [p.1] and the
    variable [p.2] it came from. *)
Definition restore_attrs (p : (string * DataArray) * (string * DataArray)) :
    M (string * DataArray) :=
  let! v := DataArray_set_attrs p.1.2 (da_attrs p.2.2) in ret (p.1.1, v).

Section Pipeline.
Context {L : ArrayLib}.

(** [fractional_cover] of fc/fractional_cover.py: the unmixing of one time
    slice, a function of the slice, the output measurements and the
    regression coefficients, which may raise. *)
Variable fractional_cover :
  Slice -> list Measurement -> gmap string (list pynum) -> result Slice.

(** Whether [Dataset.map] with [keep_attrs=True] also gives every
    resulting variable a copy of the attributes of the variable it came
    from (recent versions of xarray do, earlier ones do not). *)
Variable map_restores_attrs : bool.

(** [data.apply(func, keep_attrs=keep_attrs)]. *)
Definition Dataset_apply (func : DataArray -> M DataArray) (keep_attrs : bool)
    (data : Dataset) : M Dataset :=
  let! variables := map_vars func (data_vars data) in
  let! variables :=
    if keep_attrs && map_restores_attrs then
      mapM restore_attrs (zip variables (data_vars data))
    else ret variables in
  Dataset_init variables (time data) (if keep_attrs then Some (ds_attrs data) else None).

Definition scale_usgs_collection2 (data : Dataset) : M Dataset :=
  Dataset_apply
    (fun da => scale_and_clip_dataarray da (float_scalar Float64.lit_0_275) (int_scalar (-2000))
                 (Some (int_scalar 0, int_scalar 10000)) (-999) int16)
    true data.

(** Lines 54 to 59 of [FractionalCover.compute]: the cube that is
    unmixed. *)
Definition prepare (self : FractionalCover) (data : Dataset) : M Dataset :=
  let! data := if test_mode self then Dataset_isel_yx 100 100 data else ret data in
  if c2_scaling self then scale_usgs_collection2 data else ret data.

(** Lines 61 to 64: the loop over the time indices. *)
Fixpoint unmix_loop (self : FractionalCover) (data : Dataset) (fc : list Slice)
    (idxs : list nat) : M (list Slice) :=
  match idxs with
  | [] => ret fc
  | time_idx :: idxs' =>
      let! s := Dataset_isel_time data time_idx in
      let! r := lift (fractional_cover s FC_MEASUREMENTS (regression_coefficients self)) in
      unmix_loop self data (fc ++ [r]) idxs'
  end.

Definition rename_dict : list (string * string) :=
  [("BS", "bs"); ("PV", "pv"); ("NPV", "npv"); ("UE", "ue")].

(** [FractionalCover.compute]. *)
Definition FractionalCover_compute (self : FractionalCover) (data : Dataset) : M Dataset :=
  let! data := prepare self data in
  let! fc := unmix_loop self data [] (seq 0 (length (time data))) in
  let! fc := xr_concat fc in
  let! crs := dict_getitem (ds_attrs data) "crs" in
  do! dict_setitem (ds_attrs fc) "crs" crs in
  try_except_ValueError (Dataset_rename fc rename_dict) (ret fc).

(** [FakeFractionalCover.compute]. *)
Definition FakeFractionalCover_compute (self : FractionalCover) (data : Dataset) : M Dataset :=
  let! data := if c2_scaling self then scale_usgs_collection2 data else ret data in
  let! pv := Dataset_getattr data "red" in
  let! bs := Dataset_getattr data "red" in
  let! npv := Dataset_getattr data "green" in
  Dataset_init [("pv", pv); ("bs", bs); ("npv", npv)] (time data) (Some (ds_attrs data)).

End Pipeline.

(** * Specification vocabulary

    The predicates and functions in which the properties of the module
    are stated, and the inputs of the examples. *)

(** ** Stores *)

(** [extends s s']: every buffer and every dictionary of [s] is in [s']
    with the same contents. *)
Definition extends (s s' : store) : Prop :=
  (forall l a, arrays s !! l = Some a -> arrays s' !! l = Some a) /\
  (forall l d, dicts s !! l = Some d -> dicts s' !! l = Some d).

(** [mono m]: [m] keeps every buffer and dictionary it finds (it may
    allocate, and update what it allocated). *)
Definition mono {A} (m : M A) : Prop := forall s, extends s (m s).2.

(** [keeps s0 m]: [m] keeps the buffers and dictionaries of [s0]. *)
Definition keeps {A} (s0 : store) (m : M A) : Prop :=
  forall s, extends s0 s -> extends s0 (m s).2.

(** The dictionary that [scale_and_clip_dataarray] allocates for the
    attributes of its result: the second one, after the dictionary of the
    intermediate array. *)
Definition result_attrs_loc (s : store) : loc :=
  fresh (dom (<[fresh (dom (dicts s)) := (∅ : attrs)]> (dicts s))).

(** ** Cubes in a store *)

(** The cells and the attributes of a variable, read through its
    references. *)
Definition band_value (s : store) (da : DataArray) : option ndarray :=
  view (da_window da) <$> arrays s !! da_buf da.

Definition band_attrs (s : store) (da : DataArray) : option attrs :=
  dicts s !! da_attrs da.

(** The references of a cube are in the store and every variable has one
    plane per time step. *)
Definition wf_band (s : store) (n : nat) (da : DataArray) : Prop :=
  length <$> band_value s da = Some n /\ is_Some (band_attrs s da).

Definition wf_cube (s : store) (data : Dataset) : Prop :=
  is_Some (dicts s !! ds_attrs data) /\
  Forall (fun kv : string * DataArray => wf_band s (length (time data)) kv.2) (data_vars data).

Definition readable (s : store) (da : DataArray) : Prop :=
  exists v d, band_value s da = Some v /\ band_attrs s da = Some d.

Definition declares_nodata (s : store) (da : DataArray) : Prop :=
  exists d, band_attrs s da = Some d /\ is_Some (d !! "nodata").

(** [band_rel g h s0 s da da']: [da'] holds in [s] the cells [g d v]
    and the attributes [h d], where [v] and [d] are the cells and the
    attributes of [da] in [s0]. *)
Definition band_rel (g : attrs -> ndarray -> ndarray) (h : attrs -> attrs)
    (s0 s : store) (da da' : DataArray) : Prop :=
  exists v d,
    band_value s0 da = Some v /\ band_attrs s0 da = Some d /\
    band_value s da' = Some (g d v) /\ band_attrs s da' = Some (h d).

Definition vars_rel (g : attrs -> ndarray -> ndarray) (h : attrs -> attrs)
    (s0 s : store) (vars vars' : list (string * DataArray)) : Prop :=
  Forall2 (fun kv kv' : string * DataArray => kv'.1 = kv.1 /\ band_rel g h s0 s kv.2 kv'.2)
    vars vars'.

(** A variable of a slice holds the plane of its time index. *)
Definition plane_rel (s : store) (i : nat) (kv : string * DataArray)
    (kv2 : string * Variable2) : Prop :=
  kv2.1 = kv.1 /\ exists v, band_value s kv.2 = Some v /\ v !! i = Some (v_values kv2.2).

Definition concat_rel (objs : list Slice) (s : store) (kv2 : string * Variable2)
    (kv : string * DataArray) : Prop :=
  kv.1 = kv2.1 /\ da_window kv.2 = None /\
  arrays s !! da_buf kv.2 = Some (planes_of kv2.1 objs) /\
  is_Some (dicts s !! da_attrs kv.2).

Definition rename_rel (name_dict : list (string * string)) (kv kv' : string * DataArray) : Prop :=
  kv'.1 = new_name name_dict kv.1 /\
  da_buf kv'.2 = da_buf kv.2 /\ da_window kv'.2 = da_window kv.2.

(** ** Shapes *)

(** The lengths of the rows of a plane, and of the rows of every plane of
    a buffer: a buffer of [n] planes of [ny] rows and [nx] columns has
    the shape [replicate n (replicate ny nx)]. *)
Definition plane_shape {A} (p : list (list A)) : list nat := length <$> p.

Definition shape {A} (a : list (list (list A))) : list (list nat) := plane_shape <$> a.

(** ** The stages of the pipeline *)

Section PipelineVocabulary.
Context {L : ArrayLib}.
Variable fractional_cover :
  Slice -> list Measurement -> gmap string (list pynum) -> result Slice.
Variable map_restores_attrs : bool.

(** The cells of the result, from the cells [raw] of the input and its
    nodata attribute: the arithmetic, the conversion, the nodata cells
    overwritten. *)
Definition normalize_cells (nodata : attr) (scale_factor add_offset : scalar)
    (new_nodata : Z) (new_dtype : dtype) (raw : ndarray) : ndarray :=
  where3 (map3 (eq_nodata nodata) raw) (wrap new_dtype new_nodata)
    (map3 (astype_elt new_dtype)
       (map3 (fun e => plus e add_offset) (map3 (fun v => times v scale_factor) raw))).

Definition c2_band (da : DataArray) : M DataArray :=
  scale_and_clip_dataarray da (float_scalar Float64.lit_0_275) (int_scalar (-2000))
    (Some (int_scalar 0, int_scalar 10000)) (-999) int16.

(** The cells of a band after [scale_usgs_collection2], from its cells and
    its attributes before. *)
Definition c2_cells (d : attrs) (v : ndarray) : ndarray :=
  match d !! "nodata" with
  | Some nd =>
      normalize_cells nd (float_scalar Float64.lit_0_275) (int_scalar (-2000)) (-999) int16 v
  | None => v
  end.

Definition c2_attrs (d : attrs) : attrs :=
  if map_restores_attrs then d else <["nodata" := AInt (-999)]> d.

(** The cells and the attributes of a band of the cube that is unmixed:
    the window of test mode first, then the scaling. *)
Definition subsample (self : FractionalCover) (v : ndarray) : ndarray :=
  if test_mode self then crop 100 100 v else v.

Definition normalized (self : FractionalCover) (d : attrs) (v : ndarray) : ndarray :=
  if c2_scaling self then c2_cells d v else v.

Definition prepared_value (self : FractionalCover) (d : attrs) (v : ndarray) : ndarray :=
  normalized self d (subsample self v).

Definition prepared_attrs (self : FractionalCover) (d : attrs) : attrs :=
  if c2_scaling self then c2_attrs d else d.

(** The extent along an axis of length [n] that [compute] works on. *)
Definition extent (self : FractionalCover) (n : nat) : nat :=
  if test_mode self then (100 `min` n)%nat else n.

(** The result of the unmixing for time index [i] of [data]. *)
Definition unmixed (self : FractionalCover) (s : store) (data : Dataset) (i : nat)
    (o : Slice) : Prop :=
  exists sl, slice_at s data i = Ok sl /\
    fractional_cover sl FC_MEASUREMENTS (regression_coefficients self) = Ok o.

Definition upper_names : list string := ["PV"; "NPV"; "BS"; "UE"].
Definition lower_names : list string := ["pv"; "npv"; "bs"; "ue"].

(** The unmixing function returns, for every slice, variables with the
    names [bands]. *)
Definition returns_bands (bands : list string) : Prop :=
  forall sl ms rc, exists o,
    fractional_cover sl ms rc = Ok o /\ names (sl_vars o) ≡ₚ bands.

(** The unmixing function returns planes of the extent of the planes it
    is given. *)
Definition keeps_extent : Prop :=
  forall sl ms rc o p,
    fractional_cover sl ms rc = Ok o ->
    sl_vars sl <> [] ->
    Forall (fun kv : string * Variable2 => plane_shape (v_values kv.2) = p) (sl_vars sl) ->
    Forall (fun kv : string * Variable2 => plane_shape (v_values kv.2) = p) (sl_vars o).

(** What [compute] needs of its input: the references of the cube are in
    the store, the cube has a crs attribute and a time step, and with
    [c2_scaling] every band declares nodata. *)
Definition compute_pre (self : FractionalCover) (data : Dataset) (s : store) (crs : attr) :
    Prop :=
  wf_cube s data /\
  (exists dd, dicts s !! ds_attrs data = Some dd /\ dd !! "crs" = Some crs) /\
  (c2_scaling self = true ->
   Forall (fun kv : string * DataArray => declares_nodata s kv.2) (data_vars data)) /\
  (0 < length (time data))%nat.

(** A variable of the result: the new name of a variable of the first
    unmixed slice, and the planes of that variable in all of them. *)
Definition out_rel (outs : list Slice) (s' : store) (kv2 : string * Variable2)
    (kv : string * DataArray) : Prop :=
  kv.1 = new_name rename_dict kv2.1 /\ da_window kv.2 = None /\
  arrays s' !! da_buf kv.2 = Some (planes_of kv2.1 outs).

End PipelineVocabulary.

(** ** Inputs of the examples *)

(** What the float64 instance stores for a cell that does not fit the
    target type; no example below produces such a cell. *)
Definition zero_fill : dtype -> PrimFloat.float -> Z := fun _ _ => 0.

Definition f64 : ArrayLib := Float64.lib zero_fill.

(** A store with the five bands of a cube of two time steps, two rows and
    two columns, their attributes, the attributes of the cube and those
    of a band without nodata. *)
Definition band_attrs0 : attrs := {[ "nodata" := AInt (-999); "units" := AStr "1" ]}.

Definition store0 : store :=
  Store {[ 1%positive := [[[5000; -999]; [40; 7273]]; [[1; 2]; [3; 4]]];
           2%positive := [[[5; 6]; [7; 8]]; [[9; -999]; [11; 12]]];
           3%positive := [[[13; 14]; [15; 16]]; [[17; 18]; [19; 20]]];
           4%positive := [[[21; 22]; [23; 24]]; [[25; 26]; [27; 28]]];
           5%positive := [[[29; 30]; [31; 32]]; [[33; 34]; [35; 36]]] ]}
        {[ 1%positive := band_attrs0;
           2%positive := band_attrs0;
           3%positive := band_attrs0;
           4%positive := band_attrs0;
           5%positive := band_attrs0;
           6%positive := {[ "crs" := AStr "EPSG:3577" ]};
           7%positive := {[ "units" := AStr "1" ]} ]}.

Definition band0 (l : positive) : DataArray :=
  {| da_buf := l; da_window := None; da_attrs := l |}.

Definition red0 : DataArray := band0 1.
Definition green0 : DataArray := band0 2.

Definition no_nodata0 : DataArray :=
  {| da_buf := 1%positive; da_window := None; da_attrs := 7%positive |}.

Definition cube0 : Dataset :=
  {| data_vars := [("green", green0); ("red", red0); ("nir", band0 3);
                   ("swir1", band0 4); ("swir2", band0 5)];
     time := [10; 20];
     ds_attrs := 6%positive |}.

(** A store in which the five bands of [cube0] have two time steps of 101
    rows and 102 columns: the window of test mode cuts them along both
    axes. *)
Definition cells_wide : ndarray := replicate 2 (replicate 101 (replicate 102 7)).

Definition store_wide : store :=
  Store {[ 1%positive := cells_wide; 2%positive := cells_wide; 3%positive := cells_wide;
           4%positive := cells_wide; 5%positive := cells_wide ]}
        (dicts store0).

(** The same cube with an empty time axis. *)
Definition store_empty : store :=
  Store {[ 1%positive := []; 2%positive := []; 3%positive := []; 4%positive := [];
           5%positive := [] ]}
        (dicts store0).

Definition cube_empty : Dataset :=
  {| data_vars := data_vars cube0; time := []; ds_attrs := 6%positive |}.

(** An unmixing function for the examples: it returns the planes of four
    input bands under the names [PV], [NPV], [BS] and [UE] (the first
    variable of the slice standing in for a band that is absent). *)
Definition pick (k : string) (sl : Slice) : Variable2 :=
  match lookup_var k (sl_vars sl), sl_vars sl with
  | Some v, _ => v
  | None, kv :: _ => kv.2
  | None, [] => {| v_values := []; v_attrs := ∅ |}
  end.

Definition toy_unmix (sl : Slice) (ms : list Measurement) (rc : gmap string (list pynum)) :
    result Slice :=
  Ok {| sl_vars := [("PV", pick "green" sl); ("NPV", pick "red" sl);
                    ("BS", pick "nir" sl); ("UE", pick "swir1" sl)];
        sl_time := sl_time sl;
        sl_attrs := ∅ |}.

(** The configuration of [scale_usgs_collection2]. *)
Definition c2_normalize (da : DataArray) : M DataArray :=
  scale_and_clip_dataarray (L := f64) da Float64.lit_0_275 (Float64.of_Z (-2000))
    (Some (Float64.of_Z 0, Float64.of_Z 10000)) (-999) int16.

Definition self0 : FractionalCover := FractionalCover_init None true true.

Definition crs0 : attr := AStr "EPSG:3577".

(** ** Error paths and the outcome of the renaming *)

Definition lacks_nodata (s : store) (da : DataArray) : Prop :=
  exists d, band_attrs s da = Some d /\ d !! "nodata" = None.

(** The unmixing function returns a slice with the time of the slice it
    is given. *)
Definition keeps_time
    (fractional_cover : Slice -> list Measurement -> gmap string (list pynum) -> result Slice) :
    Prop :=
  forall sl ms rc o, fractional_cover sl ms rc = Ok o -> sl_time o = sl_time sl.

(** The names that lines 67 to 70 of [compute] leave on variables named
    [l]: the new names when every key of [rename_dict] is among [l] and
    the new names do not meet, and [l] itself otherwise. *)
Definition rename_outcome (l : list string) : list string :=
  if bool_decide (names rename_dict ⊆ l /\ NoDup (new_name rename_dict <$> l))
  then new_name rename_dict <$> l
  else l.

(** The cells of a window of [h] rows and [w] columns. *)
Definition window_cell (h w : nat) (v : ndarray) (t y x : nat) : option Z :=
  if bool_decide (y < h /\ x < w)%nat then cell v t y x else None.

(** Cubes for the error paths: one without a crs attribute, one with a
    band that declares no nodata, one without a red band. *)
Definition cube_no_crs : Dataset :=
  {| data_vars := data_vars cube0; time := time cube0; ds_attrs := 7%positive |}.

Definition cube_no_nodata : Dataset :=
  {| data_vars := [("green", green0); ("red", no_nodata0)];
     time := time cube0;
     ds_attrs := 6%positive |}.


(** An unmixing function that names three bands in upper case and one in
    lower case, and one that fails on the second time step of [cube0]. *)
Definition mixed_unmix (sl : Slice) (ms : list Measurement) (rc : gmap string (list pynum)) :
    result Slice :=
  Ok {| sl_vars := [("PV", pick "green" sl); ("NPV", pick "red" sl);
                    ("BS", pick "nir" sl); ("ue", pick "swir1" sl)];
        sl_time := sl_time sl;
        sl_attrs := ∅ |}.

Definition failing_unmix (sl : Slice) (ms : list Measurement) (rc : gmap string (list pynum)) :
    result Slice :=
  if sl_time sl =? 20 then Raise IndexError else toy_unmix sl ms rc.

Definition self_plain : FractionalCover := FractionalCover_init None false false.

(** * Properties *)

(** ** Stores *)

Lemma extends_refl s : extends s s.
Proof. split; auto. Qed.

Lemma extends_trans s1 s2 s3 : extends s1 s2 -> extends s2 s3 -> extends s1 s3.
Proof. intros [A1 D1] [A2 D2]. split; auto. Qed.

Lemma fresh_array_None (s : store) : arrays s !! fresh (dom (arrays s)) = None.
Proof. apply not_elem_of_dom, is_fresh. Qed.

Lemma fresh_dict_None (s : store) : dicts s !! fresh (dom (dicts s)) = None.
Proof. apply not_elem_of_dom, is_fresh. Qed.

Lemma extends_insert_dict s0 s l d :
  extends s0 s -> dicts s0 !! l = None ->
  extends s0 (Store (arrays s) (<[l := d]> (dicts s))).
Proof.
  intros [HA HD] Hl. split; simpl; [done|].
  intros l' d' E. rewrite lookup_insert_ne; [auto|congruence].
Qed.

Lemma extends_None_dict s0 s l : extends s0 s -> dicts s !! l = None -> dicts s0 !! l = None.
Proof.
  intros [_ HD] E. destruct (dicts s0 !! l) eqn:E0; [|done].
  apply HD in E0. congruence.
Qed.

(** ** The monad *)

Lemma run_bind_Ok {A B} (m : M A) (k : A -> M B) s a s' :
  m s = (Ok a, s') -> bind m k s = k a s'.
Proof. unfold bind. intros ->. done. Qed.

(** ** Cells *)

Lemma cell_map3 {A B} (f : A -> B) (a : list (list (list A))) t y x :
  cell (map3 f a) t y x = f <$> cell a t y x.
Proof.
  unfold cell, map3. rewrite list_lookup_fmap.
  destruct (a !! t) as [plane|]; simpl; [|done].
  rewrite list_lookup_fmap.
  destruct (plane !! y) as [row|]; simpl; [|done].
  apply list_lookup_fmap.
Qed.

Lemma cell_where3 mask v (a : ndarray) t y x :
  cell (where3 mask v a) t y x =
  match cell mask t y x, cell a t y x with
  | Some m, Some c => Some (if m then v else c)
  | _, _ => None
  end.
Proof.
  unfold cell, where3. rewrite lookup_zip_with.
  destruct (mask !! t) as [mp|]; simpl; [|done].
  destruct (a !! t) as [ap|]; simpl; [|by destruct (mp !! y) as [mr|]; [destruct (mr !! x)|]].
  rewrite lookup_zip_with.
  destruct (mp !! y) as [mr|]; simpl; [|done].
  destruct (ap !! y) as [ar|]; simpl; [|by destruct (mr !! x)].
  rewrite lookup_zip_with.
  destruct (mr !! x); simpl; [|done].
  by destruct (ar !! x).
Qed.

Lemma wrap_in_range dt z : in_range dt z -> wrap dt z = z.
Proof.
  unfold in_range, wrap. intros H.
  rewrite Z.mod_small; [lia|].
  destruct dt; unfold dtype_min, dtype_max in *; simpl in *; lia.
Qed.

(** ** [scale_and_clip_dataarray] *)

Section NormalizerFacts.
Context {L : ArrayLib}.

Lemma result_attrs_loc_None s : dicts s !! result_attrs_loc s = None.
Proof.
  unfold result_attrs_loc.
  pose proof (is_fresh (dom (<[fresh (dom (dicts s)) := (∅ : attrs)]> (dicts s)))) as H.
  apply not_elem_of_dom in H.
  destruct (decide (fresh (dom (dicts s))
                    = fresh (dom (<[fresh (dom (dicts s)) := (∅ : attrs)]> (dicts s))))) as [E|E].
  - rewrite <- E in H at 1. by rewrite lookup_insert_eq in H.
  - by rewrite lookup_insert_ne in H.
Qed.

Lemma scale_and_clip_run da sf ao cr nn dt s d nd a :
  dicts s !! da_attrs da = Some d ->
  d !! "nodata" = Some nd ->
  arrays s !! da_buf da = Some a ->
  scale_and_clip_dataarray da sf ao cr nn dt s =
    (Ok {| da_buf := fresh (dom (arrays s)); da_window := None;
           da_attrs := result_attrs_loc s |},
     Store (<[fresh (dom (arrays s)) := normalize_cells nd sf ao nn dt (view (da_window da) a)]>
              (arrays s))
           (<[result_attrs_loc s := <["nodata" := AInt nn]> d]>
              (<[fresh (dom (dicts s)) := ∅]> (dicts s)))).
Proof.
  intros Hd Hnd Ha.
  assert (da_attrs da <> fresh (dom (dicts s))) as Hne.
  { intros E. rewrite E, fresh_dict_None in Hd. done. }
  unfold scale_and_clip_dataarray, dict_getitem, DataArray_data, DataArray_set_attrs,
    copy_dict, read_dict, read_array, alloc_array, alloc_dict, array_setmask, dict_setitem,
    bind, ret; simpl.
  rewrite Hd, Hnd, Ha; simpl.
  rewrite lookup_insert_eq; simpl.
  rewrite lookup_insert_ne by done. rewrite Hd; simpl.
  fold (result_attrs_loc s).
  rewrite lookup_insert_eq; simpl.
  by rewrite !insert_insert_eq.
Qed.

Lemma scale_and_clip_no_dict da sf ao cr nn dt s :
  dicts s !! da_attrs da = None ->
  scale_and_clip_dataarray da sf ao cr nn dt s = (Raise InvalidRef, s).
Proof.
  intros Hd. unfold scale_and_clip_dataarray, dict_getitem, read_dict, bind.
  by rewrite Hd.
Qed.

Lemma scale_and_clip_no_nodata da sf ao cr nn dt s d :
  dicts s !! da_attrs da = Some d ->
  d !! "nodata" = None ->
  scale_and_clip_dataarray da sf ao cr nn dt s = (Raise (KeyError "nodata"), s).
Proof.
  intros Hd Hnd. unfold scale_and_clip_dataarray, dict_getitem, read_dict, bind, raise.
  by rewrite Hd, Hnd.
Qed.

Lemma scale_and_clip_no_array da sf ao cr nn dt s d nd :
  dicts s !! da_attrs da = Some d ->
  d !! "nodata" = Some nd ->
  arrays s !! da_buf da = None ->
  scale_and_clip_dataarray da sf ao cr nn dt s = (Raise InvalidRef, s).
Proof.
  intros Hd Hnd Ha.
  unfold scale_and_clip_dataarray, dict_getitem, DataArray_data, read_dict, read_array,
    bind, ret.
  by rewrite Hd, Hnd, Ha.
Qed.

(** The clip range has no effect on the result. *)
Lemma scale_and_clip_clip_range_unused da sf ao cr nn dt s :
  scale_and_clip_dataarray da sf ao cr nn dt s = scale_and_clip_dataarray da sf ao None nn dt s.
Proof. reflexivity. Qed.

(** Whatever the outcome, the store before the call is kept, and a
    returned array is made of a new buffer and a new dictionary. *)
Lemma scale_and_clip_frame da sf ao cr nn dt s :
  extends s (scale_and_clip_dataarray da sf ao cr nn dt s).2 /\
  forall out, (scale_and_clip_dataarray da sf ao cr nn dt s).1 = Ok out ->
    arrays s !! da_buf out = None /\ dicts s !! da_attrs out = None.
Proof.
  destruct (dicts s !! da_attrs da) as [d|] eqn:Hd.
  2:{ rewrite scale_and_clip_no_dict by done. split; [apply extends_refl|done]. }
  destruct (d !! "nodata") as [nd|] eqn:Hnd.
  2:{ rewrite (scale_and_clip_no_nodata _ _ _ _ _ _ _ d) by done.
      split; [apply extends_refl|done]. }
  destruct (arrays s !! da_buf da) as [a|] eqn:Ha.
  2:{ rewrite (scale_and_clip_no_array _ _ _ _ _ _ _ d nd) by done.
      split; [apply extends_refl|done]. }
  rewrite (scale_and_clip_run _ _ _ _ _ _ _ d nd a) by done. simpl.
  split.
  - split; simpl; intros l x E.
    + rewrite lookup_insert_ne; [done|]. intros <-. by rewrite fresh_array_None in E.
    + rewrite lookup_insert_ne; [|intros <-; by rewrite result_attrs_loc_None in E].
      rewrite lookup_insert_ne; [done|]. intros <-. by rewrite fresh_dict_None in E.
  - intros out [= <-]; simpl. split; [apply fresh_array_None|apply result_attrs_loc_None].
Qed.

End NormalizerFacts.

(** *** The claims on [scale_and_clip_dataarray] *)

(** C1 (evaluation at the failing input): with the configuration of
    [scale_usgs_collection2], the raw value 5000 in a cell that is not
    nodata comes out as -625, which is [5000 * 0.275 - 2000] converted to
    int16, below [clip_min = 0]; the claim gives
    [clip(5000 * 0.275 - 2000, 0, 10000)] converted to int16, which is 0.
    The array that [clip] returns is dropped, so no cell is clamped. *)
Theorem scale_and_clip_drops_clip :
  (c2_normalize red0 store0).1 =
    Ok {| da_buf := 6%positive; da_window := None; da_attrs := 9%positive |} /\
  arrays (c2_normalize red0 store0).2 !! 6%positive =
    Some [[[-625; -999]; [-1989; 0]]; [[-1999; -1999]; [-1999; -1998]]] /\
  astype_elt (ArrayLib := f64) int16
    (clip_elt (ArrayLib := f64) (Float64.of_Z 0) (Float64.of_Z 10000)
       (plus (ArrayLib := f64) (times (ArrayLib := f64) 5000 Float64.lit_0_275)
          (Float64.of_Z (-2000)))) = 0.
Proof. repeat split; vm_compute; reflexivity. Qed.

Section NormalizerClaims.
Context {L : ArrayLib}.

(** C2: for a band whose nodata attribute is [n], whatever the scale
    factor, the offset and the clip range, every cell whose raw value is
    [n] holds [new_nodata] in the result, the mask being taken on the raw
    cells; the attributes of the result are those of the input with
    nodata set to [new_nodata].  ([new_nodata] is a value of the target
    type, as -999 is of int16.) *)
Theorem scale_and_clip_nodata_invariance da sf ao cr nn dt s d n a :
  dicts s !! da_attrs da = Some d ->
  d !! "nodata" = Some (AInt n) ->
  arrays s !! da_buf da = Some a ->
  in_range dt nn ->
  exists out s' a' d',
    scale_and_clip_dataarray da sf ao cr nn dt s = (Ok out, s') /\
    arrays s' !! da_buf out = Some a' /\ da_window out = None /\
    (forall t y x, cell (view (da_window da) a) t y x = Some n -> cell a' t y x = Some nn) /\
    dicts s' !! da_attrs out = Some d' /\
    d' !! "nodata" = Some (AInt nn) /\
    d' = <["nodata" := AInt nn]> d.
Proof.
  intros Hd Hnd Ha Hnn.
  eexists _, _, _, _. split; [by eapply scale_and_clip_run|]. simpl.
  split; [apply lookup_insert_eq|]. split; [done|]. split.
  - intros t y x Hc. unfold normalize_cells.
    rewrite cell_where3, !cell_map3, Hc; simpl.
    rewrite Z.eqb_refl. by rewrite wrap_in_range.
  - split; [apply lookup_insert_eq|]. split; [apply lookup_insert_eq|done].
Qed.

(** C5, as the code has it: a band whose attributes have no nodata entry
    makes [scale_and_clip_dataarray] raise [KeyError('nodata')], with the
    store as it was (nothing has been computed or allocated); a band that
    declares nodata gives a result, whatever the scale factor, the offset
    and the clip range. *)
Theorem scale_and_clip_missing_nodata da sf ao cr nn dt s d :
  dicts s !! da_attrs da = Some d ->
  (d !! "nodata" = None ->
   scale_and_clip_dataarray da sf ao cr nn dt s = (Raise (KeyError "nodata"), s)) /\
  (is_Some (d !! "nodata") -> is_Some (arrays s !! da_buf da) ->
   exists out s', scale_and_clip_dataarray da sf ao cr nn dt s = (Ok out, s')).
Proof.
  intros Hd. split.
  - intros Hnd. by eapply scale_and_clip_no_nodata.
  - intros [nd Hnd] [a Ha]. eexists _, _. by eapply scale_and_clip_run.
Qed.

End NormalizerClaims.

Lemma scale_and_clip_nodata_invariance_witness :
  exists out s' a' d',
    c2_normalize red0 store0 = (Ok out, s') /\
    arrays s' !! da_buf out = Some a' /\ da_window out = None /\
    (forall t y x,
       cell (view (da_window red0) [[[5000; -999]; [40; 7273]]; [[1; 2]; [3; 4]]]) t y x
         = Some (-999) ->
       cell a' t y x = Some (-999)) /\
    dicts s' !! da_attrs out = Some d' /\
    d' !! "nodata" = Some (AInt (-999)) /\
    d' = <["nodata" := AInt (-999)]> band_attrs0.
Proof.
  apply (scale_and_clip_nodata_invariance (L := f64) red0 Float64.lit_0_275
           (Float64.of_Z (-2000)) (Some (Float64.of_Z 0, Float64.of_Z 10000)) (-999) int16
           store0 band_attrs0 (-999)
           [[[5000; -999]; [40; 7273]]; [[1; 2]; [3; 4]]]).
  - reflexivity.
  - reflexivity.
  - reflexivity.
  - unfold in_range. vm_compute. split; discriminate.
Defined.

(** C5, as the claim has it, fails: the exception raised for a band
    without nodata is a [KeyError], not a [ConfigurationError]. *)
Lemma missing_nodata_raises_KeyError :
  exists e, (c2_normalize no_nodata0 store0).1 = Raise e /\
    exn_name e = "KeyError" /\ exn_name e <> "ConfigurationError".
Proof.
  exists (KeyError "nodata").
  split; [vm_compute; reflexivity|]. split; [reflexivity|discriminate].
Qed.

Lemma scale_and_clip_missing_nodata_witness :
  (c2_normalize no_nodata0 store0 = (Raise (KeyError "nodata"), store0)) /\
  exists out s', c2_normalize red0 store0 = (Ok out, s').
Proof.
  split.
  - apply (scale_and_clip_missing_nodata (L := f64) no_nodata0 Float64.lit_0_275
             (Float64.of_Z (-2000)) (Some (Float64.of_Z 0, Float64.of_Z 10000)) (-999) int16
             store0 {[ "units" := AStr "1" ]}); reflexivity.
  - apply (scale_and_clip_missing_nodata (L := f64) red0 Float64.lit_0_275
             (Float64.of_Z (-2000)) (Some (Float64.of_Z 0, Float64.of_Z 10000)) (-999) int16
             store0 band_attrs0).
    + reflexivity.
    + eexists; reflexivity.
    + eexists; reflexivity.
Defined.

(** ** Allocation only *)

Lemma mono_keeps {A} s0 (m : M A) : mono m -> keeps s0 m.
Proof. intros Hm s Hs. eapply extends_trans; [done|apply Hm]. Qed.

Lemma mono_ret {A} (a : A) : mono (ret a).
Proof. intros s. apply extends_refl. Qed.

Lemma mono_raise {A} e : mono (raise (A := A) e).
Proof. intros s. apply extends_refl. Qed.

Lemma mono_bind {A B} (m : M A) (k : A -> M B) :
  mono m -> (forall a, mono (k a)) -> mono (bind m k).
Proof.
  intros Hm Hk s. unfold bind. specialize (Hm s).
  destruct (m s) as [[a|e] s1]; simpl in *; [|done].
  eapply extends_trans; [done|apply Hk].
Qed.

Lemma keeps_bind {A B} s0 (m : M A) (k : A -> M B) (U : A -> Prop) :
  (forall s, extends s0 s -> extends s0 (m s).2 /\ forall a, (m s).1 = Ok a -> U a) ->
  (forall a, U a -> keeps s0 (k a)) ->
  keeps s0 (bind m k).
Proof.
  intros Hm Hk s Hs. unfold bind. destruct (Hm s Hs) as [He HU].
  destruct (m s) as [[a|e] s1]; simpl in *; [|done].
  apply Hk; auto.
Qed.

Lemma mono_mapM {A B} (f : A -> M B) l : (forall x, mono (f x)) -> mono (mapM f l).
Proof.
  intros Hf. induction l as [|x l IH]; simpl; [apply mono_ret|].
  apply mono_bind; [done|]. intros y.
  apply mono_bind; [done|]. intros ys. apply mono_ret.
Qed.

Lemma mono_alloc_array a : mono (alloc_array a).
Proof.
  intros s. split; simpl; [|done]. intros l x E.
  rewrite lookup_insert_ne; [done|]. intros <-. by rewrite fresh_array_None in E.
Qed.

Lemma mono_alloc_dict d : mono (alloc_dict d).
Proof.
  intros s. split; simpl; [done|]. intros l x E.
  rewrite lookup_insert_ne; [done|]. intros <-. by rewrite fresh_dict_None in E.
Qed.

Lemma mono_read_dict l : mono (read_dict l).
Proof. intros s. unfold read_dict. destruct (dicts s !! l); apply extends_refl. Qed.

Lemma mono_copy_dict l : mono (copy_dict l).
Proof. apply mono_bind; [apply mono_read_dict|]. intros d. apply mono_alloc_dict. Qed.

Lemma mono_dict_getitem l k : mono (dict_getitem l k).
Proof.
  apply mono_bind; [apply mono_read_dict|]. intros d.
  destruct (d !! k); [apply mono_ret|apply mono_raise].
Qed.

Lemma mono_set_attrs da l : mono (DataArray_set_attrs da l).
Proof. apply mono_bind; [apply mono_copy_dict|]. intros a. apply mono_ret. Qed.

Lemma mono_map_vars f vars : (forall da, mono (f da)) -> mono (map_vars f vars).
Proof.
  intros Hf. apply mono_mapM. intros [k v].
  apply mono_bind; [apply Hf|]. intros y. apply mono_ret.
Qed.

Lemma mono_Dataset_init vars coord a : mono (Dataset_init vars coord a).
Proof.
  apply mono_bind; [apply mono_map_vars; intros da; apply mono_set_attrs|].
  intros vs. apply mono_bind; [|intros; apply mono_ret].
  destruct a; [apply mono_copy_dict|apply mono_alloc_dict].
Qed.

Lemma mono_Dataset_isel_yx h w data : mono (Dataset_isel_yx h w data).
Proof.
  apply mono_bind; [|intros; apply mono_ret].
  apply mono_map_vars. intros da.
  apply mono_bind; [apply mono_copy_dict|intros; apply mono_ret].
Qed.

Lemma mono_try_except {A} (m h : M A) : mono m -> mono h -> mono (try_except_ValueError m h).
Proof.
  intros Hm Hh s. unfold try_except_ValueError. specialize (Hm s).
  destruct (m s) as [[a|[]] s1]; simpl in *; try done.
  eapply extends_trans; [done|apply Hh].
Qed.

Lemma mono_rename_vars name_dict done vars : mono (rename_vars name_dict done vars).
Proof.
  revert done. induction vars as [|[k v] vars IH]; intros done; simpl; [apply mono_ret|].
  apply mono_bind; [apply mono_set_attrs|]. intros var.
  case_bool_decide; [apply mono_raise|].
  apply mono_bind; [apply IH|intros; apply mono_ret].
Qed.

Lemma mono_Dataset_rename ds name_dict : mono (Dataset_rename ds name_dict).
Proof.
  unfold Dataset_rename. destruct (forallb _ _); [|apply mono_raise].
  apply mono_bind; [apply mono_rename_vars|]. intros vs.
  apply mono_bind; [apply mono_copy_dict|intros; apply mono_ret].
Qed.

Lemma mono_concat_var objs kv : mono (concat_var objs kv).
Proof.
  apply mono_bind; [apply mono_alloc_array|]. intros buf.
  apply mono_bind; [apply mono_alloc_dict|intros; apply mono_ret].
Qed.

Lemma mono_xr_concat objs : mono (xr_concat objs).
Proof.
  unfold xr_concat. destruct objs as [|first objs]; [apply mono_raise|].
  destruct (forallb _ _); [|apply mono_raise].
  apply mono_bind; [apply mono_mapM, mono_concat_var|].
  intros vs. apply mono_bind; [apply mono_alloc_dict|intros; apply mono_ret].
Qed.

(** The cube-level dictionary of a concatenation is a new one. *)
Lemma xr_concat_fresh objs s fc :
  (xr_concat objs s).1 = Ok fc -> dicts s !! ds_attrs fc = None.
Proof.
  unfold xr_concat. destruct objs as [|first objs]; [done|].
  destruct (forallb _ _); [|done].
  unfold bind at 1.
  pose proof (mono_mapM (concat_var (first :: objs)) (sl_vars first)
                (mono_concat_var (first :: objs)) s) as Hm.
  destruct (mapM (concat_var (first :: objs)) (sl_vars first) s) as [[vs|e] s1]; [|done].
  simpl. intros [= <-]; simpl.
  eapply extends_None_dict; [exact Hm|apply fresh_dict_None].
Qed.

Lemma keeps_dict_setitem s0 l k v : dicts s0 !! l = None -> keeps s0 (dict_setitem l k v).
Proof.
  intros Hl s Hs. unfold dict_setitem. destruct (dicts s !! l); [|done].
  by apply extends_insert_dict.
Qed.

(** ** Cubes in a store *)

Lemma band_value_extends s s' da v :
  extends s s' -> band_value s da = Some v -> band_value s' da = Some v.
Proof.
  intros [HA _]. unfold band_value.
  destruct (arrays s !! da_buf da) as [a|] eqn:E; [|done].
  by rewrite (HA _ _ E).
Qed.

Lemma band_attrs_extends s s' da d :
  extends s s' -> band_attrs s da = Some d -> band_attrs s' da = Some d.
Proof. intros [_ HD]. apply HD. Qed.

Lemma band_rel_extends g h s0 s s' da da' :
  extends s s' -> band_rel g h s0 s da da' -> band_rel g h s0 s' da da'.
Proof.
  intros He (v & d & H1 & H2 & H3 & H4). exists v, d.
  repeat split; eauto using band_value_extends, band_attrs_extends.
Qed.

Lemma band_rel_trans g1 h1 g2 h2 s0 s1 s2 a b c :
  band_rel g1 h1 s0 s1 a b -> band_rel g2 h2 s1 s2 b c ->
  band_rel (fun d v => g2 (h1 d) (g1 d v)) (fun d => h2 (h1 d)) s0 s2 a c.
Proof.
  intros (v & d & H1 & H2 & H3 & H4) (v' & d' & K1 & K2 & K3 & K4).
  exists v, d. rewrite H3 in K1. rewrite H4 in K2.
  injection K1 as <-. injection K2 as <-. done.
Qed.

Lemma vars_rel_extends g h s0 s s' vars vars' :
  extends s s' -> vars_rel g h s0 s vars vars' -> vars_rel g h s0 s' vars vars'.
Proof.
  intros He H. eapply Forall2_impl; [exact H|]. intros kv kv' [? ?].
  eauto using band_rel_extends.
Qed.

Lemma vars_rel_trans g1 h1 g2 h2 s0 s1 s2 a b c :
  vars_rel g1 h1 s0 s1 a b -> vars_rel g2 h2 s1 s2 b c ->
  vars_rel (fun d v => g2 (h1 d) (g1 d v)) (fun d => h2 (h1 d)) s0 s2 a c.
Proof.
  apply Forall2_trans. intros x y z [E1 R1] [E2 R2].
  split; [congruence|]. eapply band_rel_trans; eauto.
Qed.

Lemma map_vars_cons f k da vars s :
  map_vars f ((k, da) :: vars) s =
    match f da s with
    | (Ok y, s1) =>
        match map_vars f vars s1 with
        | (Ok ys, s2) => (Ok ((k, y) :: ys), s2)
        | (Raise e, s2) => (Raise e, s2)
        end
    | (Raise e, s1) => (Raise e, s1)
    end.
Proof.
  unfold map_vars; simpl. unfold bind, ret.
  destruct (f da s) as [[y|e] s1]; simpl; [|done].
  by destruct (mapM _ vars s1) as [[ys|e] s2].
Qed.

(** Running a function over the variables of a cube. *)
Lemma map_vars_spec (f : DataArray -> M DataArray) (P : DataArray -> Prop) g h s0 vars :
  (forall da, mono (f da)) ->
  (forall da s, extends s0 s -> P da ->
     exists da', (f da s).1 = Ok da' /\ band_rel g h s0 (f da s).2 da da') ->
  forall s, extends s0 s ->
    Forall (fun kv : string * DataArray => P kv.2) vars ->
    exists vars', (map_vars f vars s).1 = Ok vars' /\
      vars_rel g h s0 (map_vars f vars s).2 vars vars'.
Proof.
  intros Hmono Hf. induction vars as [|[k da] vars IH]; intros s Hs Hall.
  - exists []. split; [reflexivity|constructor].
  - apply Forall_cons in Hall as [HP Hall]. simpl in HP.
    destruct (Hf da s Hs HP) as (da' & E & R).
    pose proof (Hmono da s) as Hm1.
    rewrite map_vars_cons.
    destruct (f da s) as [r s1]. simpl in E, R, Hm1. subst r.
    assert (extends s0 s1) as Hs1 by eauto using extends_trans.
    destruct (IH s1 Hs1 Hall) as (vars' & E' & R').
    pose proof (mono_map_vars f vars Hmono s1) as Hm2.
    destruct (map_vars f vars s1) as [r' s2]. simpl in *. subst r'.
    exists ((k, da') :: vars'). split; [done|].
    constructor; [|exact R']. split; [done|]. simpl.
    eauto using band_rel_extends.
Qed.

Lemma wf_band_readable s n da : wf_band s n da -> readable s da.
Proof.
  intros [Hv [d Hd]]. destruct (band_value s da) as [v|] eqn:E; [|done].
  by exists v, d.
Qed.

Lemma view_slice_window h w win a : view (slice_window h w win) a = crop h w (view win a).
Proof.
  destruct win as [[h0 w0]|]; simpl; [|done].
  unfold crop. rewrite <- list_fmap_compose. apply list_fmap_ext.
  intros _ plane _. simpl.
  rewrite <- fmap_take, take_take, <- list_fmap_compose.
  rewrite (Nat.min_comm h h0). apply list_fmap_ext.
  intros _ row _. simpl. by rewrite take_take, (Nat.min_comm w w0).
Qed.

Lemma set_attrs_run da l s d :
  dicts s !! l = Some d ->
  DataArray_set_attrs da l s =
    (Ok {| da_buf := da_buf da; da_window := da_window da; da_attrs := fresh (dom (dicts s)) |},
     Store (arrays s) (<[fresh (dom (dicts s)) := d]> (dicts s))).
Proof.
  intros Hd. unfold DataArray_set_attrs, copy_dict, read_dict, alloc_dict, bind, ret.
  by rewrite Hd.
Qed.

Lemma copy_dict_run l s d :
  dicts s !! l = Some d ->
  copy_dict l s =
    (Ok (fresh (dom (dicts s))), Store (arrays s) (<[fresh (dom (dicts s)) := d]> (dicts s))).
Proof. intros Hd. unfold copy_dict, read_dict, alloc_dict, bind. by rewrite Hd. Qed.

(** A variable that takes its buffer (and a window on it) from [da] and
    its attributes from a new copy of a dictionary. *)
Lemma rebind_rel (g : ndarray -> ndarray) s0 s da win l v d d' :
  extends s0 s ->
  band_value s0 da = Some v -> band_attrs s0 da = Some d ->
  dicts s !! l = Some d' ->
  (forall a, view win a = g (view (da_window da) a)) ->
  band_rel (fun _ v => g v) (fun _ => d') s0
    (Store (arrays s) (<[fresh (dom (dicts s)) := d']> (dicts s)))
    da {| da_buf := da_buf da; da_window := win; da_attrs := fresh (dom (dicts s)) |}.
Proof.
  intros He Hv Hd Hl Hw. exists v, d. split; [done|]. split; [done|]. split.
  - apply (band_value_extends _ _ _ _ He) in Hv. unfold band_value in *; simpl.
    destruct (arrays s !! da_buf da) as [a|]; [|done]. simpl in *.
    injection Hv as <-. by rewrite Hw.
  - unfold band_attrs; simpl. apply lookup_insert_eq.
Qed.

Lemma shallow_copy_spec s0 da s :
  extends s0 s -> readable s0 da ->
  exists da', (shallow_copy da s).1 = Ok da' /\
    band_rel (fun _ v => v) (fun d => d) s0 (shallow_copy da s).2 da da'.
Proof.
  intros He (v & d & Hv & Hd). unfold shallow_copy.
  pose proof (band_attrs_extends _ _ _ _ He Hd) as Hd'.
  rewrite (set_attrs_run _ _ _ _ Hd'). eexists. split; [done|]. simpl.
  destruct (rebind_rel (fun v => v) s0 s da (da_window da) (da_attrs da) v d d)
    as (v1 & d1 & K1 & K2 & K3 & K4); try done.
  exists v, d. rewrite Hv in K1. rewrite Hd in K2.
  injection K1 as <-. injection K2 as <-. done.
Qed.

Lemma Variable_isel_yx_spec h w s0 da s :
  extends s0 s -> readable s0 da ->
  exists da', (Variable_isel_yx h w da s).1 = Ok da' /\
    band_rel (fun _ v => crop h w v) (fun d => d) s0 (Variable_isel_yx h w da s).2 da da'.
Proof.
  intros He (v & d & Hv & Hd). unfold Variable_isel_yx.
  pose proof (band_attrs_extends _ _ _ _ He Hd) as Hd'.
  unfold bind. rewrite (copy_dict_run _ _ _ Hd'). eexists. split; [done|]. simpl.
  destruct (rebind_rel (crop h w) s0 s da (slice_window h w (da_window da)) (da_attrs da) v d d)
    as (v1 & d1 & K1 & K2 & K3 & K4); try done.
  { intros a. apply view_slice_window. }
  exists v, d. rewrite Hv in K1. rewrite Hd in K2.
  injection K1 as <-. injection K2 as <-. done.
Qed.

Lemma mono_Variable_isel_yx h w da : mono (Variable_isel_yx h w da).
Proof. apply mono_bind; [apply mono_copy_dict|intros; apply mono_ret]. Qed.

Lemma Dataset_isel_yx_spec h w data s :
  Forall (fun kv : string * DataArray => readable s kv.2) (data_vars data) ->
  exists data',
    (Dataset_isel_yx h w data s).1 = Ok data' /\
    time data' = time data /\ ds_attrs data' = ds_attrs data /\
    vars_rel (fun _ v => crop h w v) (fun d => d) s (Dataset_isel_yx h w data s).2
      (data_vars data) (data_vars data').
Proof.
  intros Hall.
  destruct (map_vars_spec (Variable_isel_yx h w) (readable s)
              (fun _ v => crop h w v) (fun d => d) s (data_vars data)
              (mono_Variable_isel_yx h w)
              (fun da s1 He HP => Variable_isel_yx_spec h w s da s1 He HP)
              s (extends_refl s) Hall) as (vars' & E & R).
  unfold Dataset_isel_yx, bind.
  destruct (map_vars _ (data_vars data) s) as [r s1]. simpl in *. subst r. simpl.
  eexists. split; [done|]. simpl. done.
Qed.

Lemma Dataset_init_spec vars coord l s d :
  Forall (fun kv : string * DataArray => readable s kv.2) vars ->
  dicts s !! l = Some d ->
  exists data',
    (Dataset_init vars coord (Some l) s).1 = Ok data' /\
    time data' = coord /\
    dicts (Dataset_init vars coord (Some l) s).2 !! ds_attrs data' = Some d /\
    vars_rel (fun _ v => v) (fun d => d) s (Dataset_init vars coord (Some l) s).2
      vars (data_vars data').
Proof.
  intros Hall Hl.
  destruct (map_vars_spec shallow_copy (readable s) (fun _ v => v) (fun d => d) s vars
              (fun da => mono_set_attrs da (da_attrs da))
              (fun da s1 He HP => shallow_copy_spec s da s1 He HP)
              s (extends_refl s) Hall) as (vars' & E & R).
  pose proof (mono_map_vars shallow_copy vars
                (fun da => mono_set_attrs da (da_attrs da)) s) as Hm.
  unfold Dataset_init, bind.
  destruct (map_vars _ vars s) as [r s1]. simpl in *. subst r. simpl.
  rewrite (copy_dict_run l s1 d); [|by apply Hm]. simpl.
  eexists. split; [done|]. simpl. split; [done|]. split; [apply lookup_insert_eq|].
  eapply vars_rel_extends; [|exact R]. apply (mono_alloc_dict d s1).
Qed.

Lemma Forall2_Forall_transfer {A B} (R : A -> B -> Prop) (P : A -> Prop) (Q : B -> Prop) l k :
  (forall x y, R x y -> P x -> Q y) -> Forall2 R l k -> Forall P l -> Forall Q k.
Proof.
  intros H HR. induction HR as [|x y l k Hxy _ IH]; intros HP; [constructor|].
  apply Forall_cons in HP as [Hx HP]. constructor; eauto.
Qed.

Lemma mapM_cons {A B} (f : A -> M B) x l s :
  mapM f (x :: l) s =
    match f x s with
    | (Ok y, s1) =>
        match mapM f l s1 with
        | (Ok ys, s2) => (Ok (y :: ys), s2)
        | (Raise e, s2) => (Raise e, s2)
        end
    | (Raise e, s1) => (Raise e, s1)
    end.
Proof.
  simpl. unfold bind, ret.
  destruct (f x s) as [[y|e] s1]; simpl; [|done].
  by destruct (mapM f l s1) as [[ys|e] s2].
Qed.

Lemma vars_rel_readable g h s0 s vars vars' :
  vars_rel g h s0 s vars vars' ->
  Forall (fun kv : string * DataArray => readable s kv.2) vars'.
Proof.
  intros HR. induction HR as [|x y l k [_ (v & d & _ & _ & Hv & Hd)] _ IH]; constructor; [|done].
  by exists (g d v), (h d).
Qed.

(** ** The pipeline *)

Section PipelineFacts.
Context {L : ArrayLib}.
Variable fractional_cover :
  Slice -> list Measurement -> gmap string (list pynum) -> result Slice.
Variable map_restores_attrs : bool.

Lemma mono_c2_band da : mono (c2_band da).
Proof. intros s. apply (scale_and_clip_frame da _ _ _ _ _ s). Qed.

Lemma c2_band_spec s0 da s :
  extends s0 s -> readable s0 da /\ declares_nodata s0 da ->
  exists da', (c2_band da s).1 = Ok da' /\
    band_rel c2_cells (fun d => <["nodata" := AInt (-999)]> d) s0 (c2_band da s).2 da da'.
Proof.
  intros He [(v & d & Hv & Hd) (d' & Hd' & nd & Hnd)].
  rewrite Hd in Hd'. injection Hd' as <-.
  pose proof (band_value_extends _ _ _ _ He Hv) as Hv'.
  pose proof (band_attrs_extends _ _ _ _ He Hd) as Hd'.
  unfold band_value in Hv'.
  destruct (arrays s !! da_buf da) as [a|] eqn:Ha; [|done]. simpl in Hv'.
  injection Hv' as <-.
  unfold c2_band. erewrite scale_and_clip_run; [|done..].
  eexists. split; [done|]. simpl.
  exists (view (da_window da) a), d. split; [done|]. split; [done|]. split.
  - unfold band_value; simpl. rewrite lookup_insert_eq. simpl.
    unfold c2_cells. by rewrite Hnd.
  - unfold band_attrs; simpl. apply lookup_insert_eq.
Qed.

Lemma mono_restore_attrs p : mono (restore_attrs p).
Proof. apply mono_bind; [apply mono_set_attrs|intros; apply mono_ret]. Qed.

Lemma restore_attrs_run p s d :
  dicts s !! da_attrs p.2.2 = Some d ->
  restore_attrs p s =
    (Ok (p.1.1, {| da_buf := da_buf p.1.2; da_window := da_window p.1.2;
                   da_attrs := fresh (dom (dicts s)) |}),
     Store (arrays s) (<[fresh (dom (dicts s)) := d]> (dicts s))).
Proof.
  intros Hd. unfold restore_attrs, bind. by rewrite (set_attrs_run _ _ _ _ Hd).
Qed.

Lemma restore_attrs_spec g h s0 vars :
  forall vars1 s, extends s0 s ->
    vars_rel g h s0 s vars vars1 ->
    exists vars2, (mapM restore_attrs (zip vars1 vars) s).1 = Ok vars2 /\
      vars_rel g (fun d => d) s0 (mapM restore_attrs (zip vars1 vars) s).2 vars vars2.
Proof.
  induction vars as [|[k da] vars IH]; intros vars1 s He HR.
  - apply Forall2_nil_inv_l in HR as ->. exists []. split; [done|constructor].
  - apply Forall2_cons_inv_l in HR as ([k1 da1] & vars1' & [Hk (v & d & Hv & Hd & Hv1 & Hd1)] & HR & ->).
    simpl in Hk, Hv, Hd, Hv1, Hd1. subst k1.
    pose proof (band_attrs_extends _ _ _ _ He Hd) as Hd'.
    cbn [zip_with]. rewrite mapM_cons, (restore_attrs_run (k, da1, (k, da)) s d Hd'). simpl.
    set (s1 := Store (arrays s) (<[fresh (dom (dicts s)) := d]> (dicts s))).
    assert (extends s s1) as He1 by apply (mono_alloc_dict d s).
    destruct (IH vars1' s1) as (vars2 & E & R);
      [by eapply extends_trans|by eapply vars_rel_extends|].
    pose proof (mono_mapM restore_attrs (zip vars1' vars) mono_restore_attrs s1) as Hm.
    destruct (mapM restore_attrs (zip vars1' vars) s1) as [r s2]. simpl in *. subst r.
    eexists. split; [done|]. simpl.
    constructor; [|exact R]. split; [done|]. simpl.
    eapply band_rel_extends; [exact Hm|].
    exists v, d. split; [done|]. split; [done|]. split.
    + unfold band_value in *. simpl. exact Hv1.
    + unfold band_attrs. simpl. apply lookup_insert_eq.
Qed.

Lemma scale_usgs_collection2_spec data s dd :
  Forall (fun kv : string * DataArray => readable s kv.2 /\ declares_nodata s kv.2)
    (data_vars data) ->
  dicts s !! ds_attrs data = Some dd ->
  exists data',
    (scale_usgs_collection2 map_restores_attrs data s).1 = Ok data' /\
    time data' = time data /\
    dicts (scale_usgs_collection2 map_restores_attrs data s).2 !! ds_attrs data' = Some dd /\
    vars_rel c2_cells (c2_attrs map_restores_attrs) s (scale_usgs_collection2 map_restores_attrs data s).2
      (data_vars data) (data_vars data').
Proof.
  intros Hall Hdd.
  destruct (map_vars_spec c2_band (fun da => readable s da /\ declares_nodata s da)
              c2_cells (fun d => <["nodata" := AInt (-999)]> d) s (data_vars data)
              mono_c2_band (fun da s1 He HP => c2_band_spec s da s1 He HP)
              s (extends_refl s) Hall) as (vars1 & E1 & R1).
  pose proof (mono_map_vars c2_band (data_vars data) mono_c2_band s) as Hm1.
  destruct (map_vars c2_band (data_vars data) s) as [r s1] eqn:Em1.
  simpl in E1, R1, Hm1. subst r.
  assert (exists vars2 s2,
    (if true && map_restores_attrs
     then mapM restore_attrs (zip vars1 (data_vars data))
     else ret vars1) s1 = (Ok vars2, s2) /\ extends s1 s2 /\
    vars_rel c2_cells (c2_attrs map_restores_attrs) s s2 (data_vars data) vars2) as (vars2 & s2 & E2 & Hm2 & R2).
  { unfold c2_attrs. destruct map_restores_attrs; simpl.
    - destruct (restore_attrs_spec c2_cells _ s (data_vars data) vars1 s1 Hm1 R1)
        as (vars2 & E & R).
      pose proof (mono_mapM restore_attrs (zip vars1 (data_vars data)) mono_restore_attrs s1)
        as Hm.
      destruct (mapM restore_attrs (zip vars1 (data_vars data)) s1) as [r s2].
      simpl in *. subst r. by exists vars2, s2.
    - exists vars1, s1. split; [done|]. split; [apply extends_refl|done]. }
  assert (extends s s2) as He2 by eauto using extends_trans.
  destruct (Dataset_init_spec vars2 (time data) (ds_attrs data) s2 dd)
    as (data' & E3 & Ht & Hd3 & R3).
  { eapply vars_rel_readable; exact R2. }
  { by apply He2. }
  destruct (Dataset_init vars2 (time data) (Some (ds_attrs data)) s2) as [r s3] eqn:Em3.
  simpl in E3, Hd3, R3. subst r.
  assert (scale_usgs_collection2 map_restores_attrs data s = (Ok data', s3)) as ->.
  { unfold scale_usgs_collection2, Dataset_apply. fold c2_band.
    rewrite (run_bind_Ok _ _ _ _ _ Em1). rewrite (run_bind_Ok _ _ _ _ _ E2). exact Em3. }
  exists data'. split; [done|]. split; [done|]. split; [done|].
  exact (vars_rel_trans _ _ _ _ _ _ _ _ _ _ R2 R3).
Qed.

Lemma mono_scale_usgs_collection2 data : mono (scale_usgs_collection2 map_restores_attrs data).
Proof.
  unfold scale_usgs_collection2, Dataset_apply.
  apply mono_bind; [apply mono_map_vars; intros da s; apply (scale_and_clip_frame da)|].
  intros vs. apply mono_bind; [|intros; apply mono_Dataset_init].
  destruct (_ && _); [|apply mono_ret].
  apply mono_mapM. intros p. apply mono_restore_attrs.
Qed.

Lemma mono_prepare self data : mono (prepare map_restores_attrs self data).
Proof.
  unfold prepare. apply mono_bind.
  - destruct (test_mode self); [apply mono_Dataset_isel_yx|apply mono_ret].
  - intros d. destruct (c2_scaling self); [apply mono_scale_usgs_collection2|apply mono_ret].
Qed.

End PipelineFacts.

Lemma length_crop h w (v : ndarray) : length (crop h w v) = length v.
Proof. unfold crop. apply length_fmap. Qed.

Lemma length_map3 {A B} (f : A -> B) (a : list (list (list A))) : length (map3 f a) = length a.
Proof. unfold map3. apply length_fmap. Qed.

Lemma length_where3 mask v (a : ndarray) :
  length (where3 mask v a) = (length mask `min` length a)%nat.
Proof. unfold where3. apply length_zip_with. Qed.

Lemma vars_rel_refl s vars :
  Forall (fun kv : string * DataArray => readable s kv.2) vars ->
  vars_rel (fun _ v => v) (fun d => d) s s vars vars.
Proof.
  induction 1 as [|kv vars (v & d & Hv & Hd) _ IH]; constructor; [|done].
  split; [done|]. by exists v, d.
Qed.

Section PrepareFacts.
Context {L : ArrayLib}.
Variable map_restores_attrs : bool.

Lemma length_c2_cells d v : length (c2_cells d v) = length v.
Proof.
  unfold c2_cells. destruct (d !! "nodata"); [|done].
  unfold normalize_cells. rewrite length_where3, !length_map3. lia.
Qed.

Lemma length_prepared_value self d v : length (prepared_value self d v) = length v.
Proof.
  unfold prepared_value, normalized, subsample.
  destruct (c2_scaling self), (test_mode self);
    rewrite ?length_c2_cells, ?length_crop; done.
Qed.

Lemma prepare_spec self data s dd :
  wf_cube s data ->
  dicts s !! ds_attrs data = Some dd ->
  (c2_scaling self = true ->
   Forall (fun kv : string * DataArray => declares_nodata s kv.2) (data_vars data)) ->
  exists data' s1,
    prepare map_restores_attrs self data s = (Ok data', s1) /\
    extends s s1 /\
    time data' = time data /\
    dicts s1 !! ds_attrs data' = Some dd /\
    vars_rel (prepared_value self) (prepared_attrs map_restores_attrs self) s s1
      (data_vars data) (data_vars data') /\
    wf_cube s1 data'.
Proof.
  intros [_ Hwf] Hdd Hnd.
  assert (Forall (fun kv : string * DataArray => readable s kv.2) (data_vars data)) as Hread.
  { eapply Forall_impl; [exact Hwf|]. intros kv. apply wf_band_readable. }
  (* the window of test mode *)
  assert (exists data1 s1,
    (if test_mode self then Dataset_isel_yx 100 100 data else ret data) s = (Ok data1, s1) /\
    extends s s1 /\ time data1 = time data /\ ds_attrs data1 = ds_attrs data /\
    vars_rel (fun _ v => subsample self v) (fun d => d) s s1 (data_vars data) (data_vars data1))
    as (data1 & s1 & E1 & He1 & Ht1 & Ha1 & R1).
  { unfold subsample. destruct (test_mode self).
    - destruct (Dataset_isel_yx_spec 100 100 data s Hread) as (data1 & E & Ht & Ha & R).
      pose proof (mono_Dataset_isel_yx 100 100 data s) as Hm.
      destruct (Dataset_isel_yx 100 100 data s) as [r s1]. simpl in *. subst r.
      by exists data1, s1.
    - exists data, s. split; [done|]. split; [apply extends_refl|].
      split; [done|]. split; [done|]. by apply vars_rel_refl. }
  (* the scaling *)
  assert (exists data' s2,
    (if c2_scaling self then scale_usgs_collection2 map_restores_attrs data1 else ret data1) s1
      = (Ok data', s2) /\
    extends s1 s2 /\ time data' = time data1 /\ dicts s2 !! ds_attrs data' = Some dd /\
    vars_rel (normalized self) (prepared_attrs map_restores_attrs self) s1 s2
      (data_vars data1) (data_vars data'))
    as (data' & s2 & E2 & He2 & Ht2 & Ha2 & R2).
  { unfold normalized, prepared_attrs. destruct (c2_scaling self).
    - destruct (scale_usgs_collection2_spec map_restores_attrs data1 s1 dd)
        as (data' & E & Ht & Ha & R).
      + specialize (Hnd eq_refl).
        eapply (Forall2_Forall_transfer _ _ _ _ _ _ R1 Hnd). Unshelve.
        intros kv kv' [_ (v & d & Hv & Hd & Hv' & Hd')] (d0 & Hd0 & Hn).
        rewrite Hd in Hd0. injection Hd0 as <-.
        split; [by eexists _, _|]. by exists d.
      + rewrite Ha1. by apply He1.
      + pose proof (mono_scale_usgs_collection2 map_restores_attrs data1 s1) as Hm.
        destruct (scale_usgs_collection2 map_restores_attrs data1 s1) as [r s2].
        simpl in *. subst r. by exists data', s2.
    - exists data1, s1. split; [done|]. split; [apply extends_refl|]. split; [done|].
      split; [rewrite Ha1; by apply He1|].
      apply vars_rel_refl. eapply vars_rel_readable; exact R1. }
  exists data', s2.
  assert (vars_rel (prepared_value self) (prepared_attrs map_restores_attrs self) s s2
            (data_vars data) (data_vars data')) as R.
  { exact (vars_rel_trans _ _ _ _ _ _ _ _ _ _ R1 R2). }
  split; [unfold prepare; by rewrite (run_bind_Ok _ _ _ _ _ E1)|].
  split; [by eapply extends_trans|]. split; [congruence|]. split; [done|]. split; [done|].
  split; [by rewrite Ha2|].
  rewrite Ht2, Ht1.
  eapply (Forall2_Forall_transfer _ _ _ _ _ _ R Hwf). Unshelve.
  intros kv kv' [_ (v & d & Hv & Hd & Hv' & Hd')] [Hlen _].
  split; [|by rewrite Hd'].
  rewrite Hv in Hlen. rewrite Hv'. simpl in *.
  by rewrite length_prepared_value.
Qed.

End PrepareFacts.

(** ** Time slices and the loop *)

Lemma mapR_spec {A B} (f : A -> result B) (R : A -> B -> Prop) l :
  Forall (fun x => exists y, f x = Ok y /\ R x y) l ->
  exists ys, mapR f l = Ok ys /\ Forall2 R l ys.
Proof.
  induction 1 as [|x l (y & E & HR) _ (ys & E' & HR')]; simpl.
  - by exists [].
  - rewrite E, E'. exists (y :: ys). split; [done|by constructor].
Qed.

Lemma slice_at_spec s data i :
  wf_cube s data -> (i < length (time data))%nat ->
  exists sl, slice_at s data i = Ok sl /\
    Forall2 (plane_rel s i) (data_vars data) (sl_vars sl).
Proof.
  intros [[dd Hdd] Hwf] Hi.
  destruct (lookup_lt_is_Some_2 (time data) i Hi) as [t Ht].
  unfold slice_at. rewrite Ht.
  destruct (mapR_spec
    (fun kv : string * DataArray =>
       match variable_at s i kv.2 with Ok v => Ok (kv.1, v) | Raise e => Raise e end)
    (plane_rel s i) (data_vars data)) as (vars & E & HR).
  { eapply Forall_impl; [exact Hwf|]. intros [k da] [Hlen [d Hd]]. simpl in *.
    unfold variable_at. unfold band_value, band_attrs in *.
    destruct (arrays s !! da_buf da) as [a|] eqn:Ha; [|done]. simpl in Hlen. rewrite Hd.
    injection Hlen as Hlen.
    destruct (lookup_lt_is_Some_2 (view (da_window da) a) i) as [plane Hp]; [lia|].
    rewrite Hp. eexists. split; [done|]. split; [done|]. simpl.
    exists (view (da_window da) a). unfold band_value. by rewrite Ha. }
  rewrite E, Hdd. eexists. split; [done|]. done.
Qed.

Section LoopFacts.
Context {L : ArrayLib}.
Variable fractional_cover :
  Slice -> list Measurement -> gmap string (list pynum) -> result Slice.

Lemma unmix_loop_store self data idxs : forall fc s,
  (unmix_loop fractional_cover self data fc idxs s).2 = s.
Proof.
  induction idxs as [|i idxs IH]; intros fc s; simpl; [done|].
  unfold bind, Dataset_isel_time, lift.
  destruct (slice_at s data i) as [sl|e]; simpl; [|done].
  destruct (fractional_cover sl _ _) as [o|e]; simpl; [|done].
  apply IH.
Qed.

Lemma unmix_loop_spec self data s idxs : forall fc,
  Forall (fun i => exists o, unmixed fractional_cover self s data i o) idxs ->
  exists outs,
    unmix_loop fractional_cover self data fc idxs s = (Ok (fc ++ outs), s) /\
    Forall2 (unmixed fractional_cover self s data) idxs outs.
Proof.
  induction idxs as [|i idxs IH]; intros fc Hall; simpl.
  - exists []. by rewrite app_nil_r.
  - apply Forall_cons in Hall as [(o & sl & Hsl & Ho) Hall].
    unfold bind, Dataset_isel_time, lift. rewrite Hsl, Ho.
    destruct (IH (fc ++ [o]) Hall) as (outs & E & HR).
    exists (o :: outs). rewrite E, <- app_assoc. split; [done|].
    constructor; [by exists sl|done].
Qed.

End LoopFacts.

(** ** Concatenation and renaming *)

Lemma concat_rel_extends objs s s' kv2 kv :
  extends s s' -> concat_rel objs s kv2 kv -> concat_rel objs s' kv2 kv.
Proof.
  intros [HA HD] (E & W & Ha & [d Hd]). repeat split; auto. exists d. auto.
Qed.

Lemma mapM_concat_var objs vars : forall s,
  exists vs s', mapM (concat_var objs) vars s = (Ok vs, s') /\
    extends s s' /\ Forall2 (concat_rel objs s') vars vs.
Proof.
  induction vars as [|kv vars IH]; intros s.
  - exists [], s. split; [done|]. split; [apply extends_refl|constructor].
  - rewrite mapM_cons.
    pose proof (mono_concat_var objs kv s) as Hm.
    change (concat_var objs kv s) with
      (Ok (kv.1, {| da_buf := fresh (dom (arrays s)); da_window := None;
                    da_attrs := fresh (dom (dicts s)) |}),
       Store (<[fresh (dom (arrays s)) := planes_of kv.1 objs]> (arrays s))
             (<[fresh (dom (dicts s)) := v_attrs kv.2]> (dicts s))) in *.
    simpl in Hm.
    set (s1 := Store _ _) in *.
    destruct (IH s1) as (vs & s' & E & He & HR). rewrite E.
    eexists _, _. split; [done|]. split; [by eapply extends_trans|].
    constructor; [|done].
    eapply concat_rel_extends; [exact He|].
    repeat split; simpl; [apply lookup_insert_eq|].
    eexists. apply lookup_insert_eq.
Qed.

Lemma xr_concat_spec first objs s :
  forallb (same_names first) (first :: objs) = true ->
  exists fc s',
    xr_concat (first :: objs) s = (Ok fc, s') /\
    extends s s' /\
    time fc = sl_time <$> (first :: objs) /\
    dicts s' !! ds_attrs fc = Some (sl_attrs first) /\
    dicts s !! ds_attrs fc = None /\
    Forall2 (concat_rel (first :: objs) s') (sl_vars first) (data_vars fc).
Proof.
  intros Hsame. unfold xr_concat. rewrite Hsame.
  destruct (mapM_concat_var (first :: objs) (sl_vars first) s) as (vs & s1 & E & He & HR).
  rewrite (run_bind_Ok _ _ _ _ _ E).
  pose proof (mono_alloc_dict (sl_attrs first) s1) as Hm.
  eexists _, _. split; [reflexivity|]. simpl in *.
  split; [by eapply extends_trans|]. split; [done|].
  split; [apply lookup_insert_eq|].
  split; [eapply extends_None_dict; [exact He|apply fresh_dict_None]|].
  eapply Forall2_impl; [exact HR|]. intros kv2 kv. by apply concat_rel_extends.
Qed.

Lemma rename_vars_spec name_dict vars : forall done s,
  NoDup (new_name name_dict <$> names vars) ->
  Forall (fun k => new_name name_dict k ∉ done) (names vars) ->
  Forall (fun kv : string * DataArray => is_Some (dicts s !! da_attrs kv.2)) vars ->
  exists vs s', rename_vars name_dict done vars s = (Ok vs, s') /\
    Forall2 (rename_rel name_dict) vars vs.
Proof.
  induction vars as [|[k v] vars IH]; intros done s Hnd Hdone Hattrs.
  - exists [], s. split; [done|constructor].
  - simpl in Hnd. apply NoDup_cons in Hnd as [Hk Hnd].
    apply Forall_cons in Hdone as [Hkd Hdone].
    apply Forall_cons in Hattrs as [[d Hd] Hattrs]. simpl in Hd.
    simpl. unfold shallow_copy.
    rewrite (run_bind_Ok _ _ _ _ _ (set_attrs_run v (da_attrs v) s d Hd)).
    rewrite bool_decide_eq_false_2; [|done].
    set (s1 := Store _ _).
    destruct (IH (new_name name_dict k :: done) s1) as (vs & s' & E & HR).
    + done.
    + apply Forall_forall. intros k' Hk'. rewrite not_elem_of_cons. split.
      * intros Heq. apply Hk. rewrite <- Heq. by apply list_elem_of_fmap_2.
      * by eapply Forall_forall in Hdone.
    + eapply Forall_impl; [exact Hattrs|]. intros kv [d' Hd'].
      exists d'. by apply (mono_alloc_dict d s).
    + rewrite (run_bind_Ok _ _ _ _ _ E).
      eexists _, _. split; [reflexivity|]. constructor; [|done]. done.
Qed.

Lemma rename_dict_upper : new_name rename_dict <$> upper_names = lower_names.
Proof. reflexivity. Qed.

Lemma rename_dict_lower k : k ∈ lower_names -> new_name rename_dict k = k.
Proof.
  unfold lower_names. rewrite !elem_of_cons, elem_of_nil.
  intros [->|[->|[->|[->|[]]]]]; reflexivity.
Qed.

(** The renaming of [compute] with its fallback. *)
Lemma rename_or_keep_spec fc s d :
  names (data_vars fc) ≡ₚ upper_names \/ names (data_vars fc) ≡ₚ lower_names ->
  Forall (fun kv : string * DataArray => is_Some (dicts s !! da_attrs kv.2)) (data_vars fc) ->
  dicts s !! ds_attrs fc = Some d ->
  exists out s',
    try_except_ValueError (Dataset_rename fc rename_dict) (ret fc) s = (Ok out, s') /\
    extends s s' /\
    time out = time fc /\
    dicts s' !! ds_attrs out = Some d /\
    Forall2 (rename_rel rename_dict) (data_vars fc) (data_vars out).
Proof.
  intros [Hup|Hlow] Hattrs Hd.
  - pose proof (mono_try_except (Dataset_rename fc rename_dict) (ret fc)
                  (mono_Dataset_rename fc rename_dict) (mono_ret fc) s) as Hm.
    assert (forallb (fun kv : string * string => bool_decide (kv.1 ∈ names (data_vars fc)))
              rename_dict = true) as Hkeys.
    { apply forallb_forall. intros [k k'] Hin. apply bool_decide_eq_true_2. simpl.
      rewrite Hup. unfold rename_dict, upper_names in *. simpl in Hin.
      rewrite !elem_of_cons.
      destruct Hin as [[= <- _]|[[= <- _]|[[= <- _]|[[= <- _]|[]]]]]; auto. }
    destruct (rename_vars_spec rename_dict (data_vars fc) [] s) as (vs & s1 & E & HR).
    + rewrite Hup, rename_dict_upper. unfold lower_names.
      compute_done.
    + apply Forall_forall. intros k _. apply not_elem_of_nil.
    + done.
    + assert (extends s s1) as He1.
      { pose proof (mono_rename_vars rename_dict [] (data_vars fc) s) as H1.
        by rewrite E in H1. }
      assert (dicts s1 !! ds_attrs fc = Some d) as Hd1 by by apply He1.
      assert (Dataset_rename fc rename_dict s =
                (Ok {| data_vars := vs; time := time fc;
                       ds_attrs := fresh (dom (dicts s1)) |},
                 Store (arrays s1) (<[fresh (dom (dicts s1)) := d]> (dicts s1)))) as Er.
      { unfold Dataset_rename. rewrite Hkeys.
        rewrite (run_bind_Ok _ _ _ _ _ E).
        by rewrite (run_bind_Ok _ _ _ _ _ (copy_dict_run _ _ _ Hd1)). }
      unfold try_except_ValueError in *. rewrite Er in *. simpl in Hm.
      eexists _, _. split; [reflexivity|]. split; [done|]. split; [done|].
      split; [apply lookup_insert_eq|done].
  - assert (Dataset_rename fc rename_dict s = (Raise ValueError, s)) as Er.
    { unfold Dataset_rename.
      destruct (forallb _ rename_dict) eqn:Hkeys; [|done].
      rewrite forallb_forall in Hkeys.
      specialize (Hkeys ("BS", "bs") ltac:(by left)).
      apply bool_decide_eq_true_1 in Hkeys. simpl in Hkeys. rewrite Hlow in Hkeys.
      unfold lower_names in Hkeys. rewrite !elem_of_cons, elem_of_nil in Hkeys.
      destruct Hkeys as [|[|[|[|[]]]]]; discriminate. }
    unfold try_except_ValueError. rewrite Er.
    exists fc, s. split; [done|]. split; [apply extends_refl|]. split; [done|]. split; [done|].
    apply Forall_Forall2_diag, Forall_forall. intros [k v] Hin.
    split; [|done]. simpl. symmetry. apply rename_dict_lower.
    rewrite <- Hlow. by apply (list_elem_of_fmap_2 fst _ (k, v)).
Qed.

(** ** [FractionalCover.compute] *)

Lemma dict_getitem_run l k s d v :
  dicts s !! l = Some d -> d !! k = Some v -> dict_getitem l k s = (Ok v, s).
Proof. intros Hd Hk. unfold dict_getitem, read_dict, bind, ret. by rewrite Hd, Hk. Qed.

Lemma dict_setitem_run l k v s d :
  dicts s !! l = Some d ->
  dict_setitem l k v s = (Ok tt, Store (arrays s) (<[l := <[k := v]> d]> (dicts s))).
Proof. intros Hd. unfold dict_setitem. by rewrite Hd. Qed.

Lemma lookup_var_is_Some {A} k (l : list (string * A)) :
  k ∈ names l -> is_Some (lookup_var k l).
Proof.
  unfold names. induction l as [|[k' v] l IH]; simpl.
  - by rewrite elem_of_nil.
  - rewrite elem_of_cons. intros [->|Hin].
    + rewrite decide_True; [by eexists|done].
    + destruct (decide (k = k')); [by eexists|auto].
Qed.

Lemma planes_of_lookup k objs : forall i o v,
  Forall (fun o : Slice => k ∈ names (sl_vars o)) objs ->
  objs !! i = Some o -> lookup_var k (sl_vars o) = Some v ->
  planes_of k objs !! i = Some (v_values v).
Proof.
  unfold planes_of. induction objs as [|o' objs IH]; intros i o v Hall Hi Hv; [done|].
  apply Forall_cons in Hall as [Hk Hall]. simpl.
  destruct (lookup_var_is_Some k (sl_vars o') Hk) as [v' Hv']. rewrite Hv'. simpl.
  destruct i as [|i]; simpl in *.
  - injection Hi as <-. congruence.
  - eauto.
Qed.

Lemma length_planes_of k objs :
  Forall (fun o : Slice => k ∈ names (sl_vars o)) objs ->
  length (planes_of k objs) = length objs.
Proof.
  unfold planes_of. induction 1 as [|o objs Hk _ IH]; simpl; [done|].
  destruct (lookup_var_is_Some k (sl_vars o) Hk) as [v' Hv']. rewrite Hv'. simpl.
  by f_equal.
Qed.

Section ComputeFacts.
Context {L : ArrayLib}.
Variable fractional_cover :
  Slice -> list Measurement -> gmap string (list pynum) -> result Slice.
Variable map_restores_attrs : bool.

Lemma compute_spec self data s crs bands :
  compute_pre self data s crs ->
  returns_bands fractional_cover bands ->
  bands = upper_names \/ bands = lower_names ->
  exists data' s1 outs first out s',
    prepare map_restores_attrs self data s = (Ok data', s1) /\
    Forall2 (unmixed fractional_cover self s1 data') (seq 0 (length (time data))) outs /\
    Forall (fun o : Slice => names (sl_vars o) ≡ₚ bands) outs /\
    outs !! 0%nat = Some first /\
    FractionalCover_compute fractional_cover map_restores_attrs self data s = (Ok out, s') /\
    time out = sl_time <$> outs /\
    (exists d, dicts s' !! ds_attrs out = Some d /\ d !! "crs" = Some crs) /\
    Forall2 (out_rel outs s') (sl_vars first) (data_vars out).
Proof.
  intros (Hwf & (dd & Hdd & Hcrs) & Hnd & Hn) Hret Hbands.
  destruct (prepare_spec map_restores_attrs self data s dd Hwf Hdd Hnd)
    as (data' & s1 & E1 & He1 & Ht & Ha & _ & Hwf1).
  (* the loop *)
  destruct (unmix_loop_spec fractional_cover self data' s1 (seq 0 (length (time data'))) [])
    as (outs & E2 & HR2).
  { apply Forall_forall. intros i Hi. apply elem_of_seq in Hi as [_ Hi]. simpl in Hi.
    destruct (slice_at_spec s1 data' i Hwf1 Hi) as (sl & Hsl & _).
    destruct (Hret sl FC_MEASUREMENTS (regression_coefficients self)) as (o & Ho & _).
    exists o, sl. done. }
  simpl in E2. rewrite Ht in E2, HR2.
  assert (Forall (fun o : Slice => names (sl_vars o) ≡ₚ bands) outs) as Hnames.
  { apply Forall_forall. intros o Ho. apply list_elem_of_lookup in Ho as [i Hi].
    destruct (Forall2_lookup_r _ _ _ _ _ HR2 Hi) as (j & _ & sl & _ & Hfc).
    destruct (Hret sl FC_MEASUREMENTS (regression_coefficients self)) as (o' & Ho' & Hp).
    congruence. }
  destruct outs as [|first rest].
  { apply Forall2_length in HR2. rewrite length_seq in HR2. simpl in HR2. lia. }
  (* the concatenation *)
  destruct (xr_concat_spec first rest s1) as (fc & s2 & E3 & He2 & Ht3 & Hd3 & _ & HR3).
  { apply forallb_forall. intros o Ho. apply list_elem_of_In in Ho.
    eapply Forall_forall in Ho; [|exact Hnames]. simpl in Ho.
    apply Forall_cons in Hnames as [Hfirst _].
    apply bool_decide_eq_true_2. split; intros k; rewrite Ho, Hfirst; done. }
  (* the crs attribute *)
  assert (dicts s2 !! ds_attrs data' = Some dd) as Hdd2 by by apply He2.
  pose proof (dict_getitem_run _ _ _ _ _ Hdd2 Hcrs) as E4.
  pose proof (dict_setitem_run (ds_attrs fc) "crs" crs s2 _ Hd3) as E5.
  set (s3 := Store (arrays s2) (<[ds_attrs fc := <["crs" := crs]> (sl_attrs first)]> (dicts s2)))
    in E5.
  (* the renaming *)
  assert (names (data_vars fc) = names (sl_vars first)) as Hfcnames.
  { clear -HR3. unfold names. induction HR3 as [|???? [E _] _ IH]; simpl; [done|].
    by f_equal. }
  destruct (rename_or_keep_spec fc s3 (<["crs" := crs]> (sl_attrs first)))
    as (out & s' & E6 & He6 & Ht6 & Hd6 & HR6).
  { rewrite Hfcnames. apply Forall_cons in Hnames as [Hfirst _].
    destruct Hbands as [->| ->]; auto. }
  { eapply Forall2_Forall_r; [exact HR3|]. apply Forall_forall.
    intros kv2 _ kv (_ & _ & _ & [d Hd]). simpl.
    destruct (decide (ds_attrs fc = da_attrs kv.2)) as [->|Hne].
    - rewrite lookup_insert_eq. by eexists.
    - rewrite lookup_insert_ne; [by eexists|done]. }
  { simpl. apply lookup_insert_eq. }
  exists data', s1, (first :: rest), first, out, s'.
  split; [done|]. split; [done|]. split; [done|]. split; [done|]. split.
  { unfold FractionalCover_compute.
    rewrite (run_bind_Ok _ _ _ _ _ E1), Ht.
    rewrite (run_bind_Ok _ _ _ _ _ E2).
    rewrite (run_bind_Ok _ _ _ _ _ E3).
    rewrite (run_bind_Ok _ _ _ _ _ E4).
    rewrite (run_bind_Ok _ _ _ _ _ E5).
    exact E6. }
  split; [congruence|]. split.
  { eexists. split; [exact Hd6|]. apply lookup_insert_eq. }
  eapply Forall2_trans; [|exact HR3|exact HR6].
  intros kv2 kvm kv (Em & Wm & Am & _) (Ek & Eb & Ew).
  split; [congruence|]. split; [congruence|].
  rewrite Eb. apply He6. simpl. done.
Qed.

(** [compute] keeps every buffer and every dictionary of the store it
    starts from. *)
Lemma compute_frame self data s :
  extends s (FractionalCover_compute fractional_cover map_restores_attrs self data s).2.
Proof.
  assert (keeps s (FractionalCover_compute fractional_cover map_restores_attrs self data)) as Hk;
    [|apply Hk, extends_refl].
  unfold FractionalCover_compute.
  apply (keeps_bind s _ _ (fun _ => True)).
  { intros s1 H1. split; [|done]. apply mono_keeps; [apply mono_prepare|done]. }
  intros data' _.
  apply (keeps_bind s _ _ (fun _ => True)).
  { intros s1 H1. split; [|done]. by rewrite unmix_loop_store. }
  intros fc _.
  apply (keeps_bind s _ _ (fun fc' => dicts s !! ds_attrs fc' = None)).
  { intros s1 H1. split.
    - apply mono_keeps; [apply mono_xr_concat|done].
    - intros fc' E. eapply extends_None_dict; [exact H1|].
      eapply xr_concat_fresh; exact E. }
  intros fc' Hfresh.
  apply (keeps_bind s _ _ (fun _ => True)).
  { intros s1 H1. split; [|done]. apply mono_keeps; [apply mono_dict_getitem|done]. }
  intros crs _.
  apply (keeps_bind s _ _ (fun _ => True)).
  { intros s1 H1. split; [|done]. by apply keeps_dict_setitem. }
  intros _ _.
  apply mono_keeps, mono_try_except; [apply mono_Dataset_rename|apply mono_ret].
Qed.

End ComputeFacts.

(** ** Shapes *)

Lemma shape_map3 {A B} (f : A -> B) (a : list (list (list A))) :
  shape (map3 f a) = shape a.
Proof.
  unfold shape, plane_shape, map3. rewrite <- list_fmap_compose.
  apply list_fmap_ext. intros _ plane _. simpl.
  rewrite <- list_fmap_compose. apply list_fmap_ext. intros _ row _. simpl.
  apply length_fmap.
Qed.

Lemma shape_where3 mask v (a : ndarray) :
  shape mask = shape a -> shape (where3 mask v a) = shape a.
Proof.
  unfold shape, plane_shape, where3. revert mask.
  induction a as [|ap a IH]; intros [|mp mask] H; simpl in *; try done.
  injection H as Hp H. f_equal; [|by apply IH].
  clear -Hp. revert mp Hp.
  induction ap as [|ar ap IH]; intros [|mr mp] H; simpl in *; try done.
  injection H as Hr H. f_equal; [|by apply IH].
  rewrite length_zip_with. lia.
Qed.

Lemma shape_crop h w (a : ndarray) n ny nx :
  shape a = replicate n (replicate ny nx) ->
  shape (crop h w a) = replicate n (replicate (h `min` ny)%nat (w `min` nx)%nat).
Proof.
  unfold shape, plane_shape, crop. revert n.
  induction a as [|plane a IH]; intros [|n] H; simpl in *; try done.
  injection H as Hp H. f_equal; [|by apply IH].
  rewrite <- list_fmap_compose.
  assert (forall (p : list (list Z)) m, length <$> p = replicate m nx ->
            forall k, length ∘ take w <$> take k p = replicate (k `min` m)%nat (w `min` nx)%nat) as Hrows.
  { clear. induction p as [|row p IH]; intros [|m] H [|k]; simpl in *; try done.
    injection H as Hr H. rewrite length_take, Hr. f_equal. by apply IH. }
  by apply Hrows.
Qed.

(** The cells of [crop h w v] are the cells of [v] in the first [h] rows
    and [w] columns. *)
Lemma cell_crop h w (v : ndarray) t y x : cell (crop h w v) t y x = window_cell h w v t y x.
Proof.
  unfold window_cell, crop, cell. rewrite list_lookup_fmap.
  destruct (v !! t) as [plane|]; simpl; [|by case_bool_decide].
  rewrite list_lookup_fmap, lookup_take.
  destruct (decide (y < h)%nat) as [Hy|Hy]; [|case_bool_decide; [lia|done]].
  destruct (plane !! y) as [row|]; simpl; [|by case_bool_decide].
  rewrite lookup_take.
  destruct (decide (x < w)%nat) as [Hx|Hx]; case_bool_decide; done || lia.
Qed.

Lemma Forall2_with_Forall_l {A B} (R : A -> B -> Prop) (P : A -> Prop) l k :
  Forall2 R l k -> Forall P l -> Forall2 (fun x y => P x /\ R x y) l k.
Proof.
  induction 1 as [|x y l k Hxy _ IH]; intros Hall; [constructor|].
  apply Forall_cons in Hall as [Hx Hall]. constructor; [done|by apply IH].
Qed.

Section ShapeFacts.
Context {L : ArrayLib}.

Lemma shape_normalize_cells nd sf ao nn dt (a : ndarray) :
  shape (normalize_cells nd sf ao nn dt a) = shape a.
Proof.
  unfold normalize_cells.
  rewrite shape_where3; by rewrite !shape_map3.
Qed.

Lemma shape_c2_cells d a : shape (c2_cells d a) = shape a.
Proof. unfold c2_cells. destruct (d !! "nodata"); [apply shape_normalize_cells|done]. Qed.

Lemma shape_normalized self d a : shape (normalized self d a) = shape a.
Proof. unfold normalized. destruct (c2_scaling self); [apply shape_c2_cells|done]. Qed.

End ShapeFacts.

(** ** [FakeFractionalCover.compute] *)

Lemma vars_rel_lookup g h s0 s vars vars' k da :
  vars_rel g h s0 s vars vars' ->
  lookup_var k vars = Some da ->
  exists da', lookup_var k vars' = Some da' /\ band_rel g h s0 s da da'.
Proof.
  induction 1 as [|[k1 d1] [k2 d2] vars vars' [E R] _ IH]; simpl; [done|].
  simpl in E. subst k2.
  destruct (decide (k = k1)); [|done].
  intros [= <-]. by exists d2.
Qed.

Lemma lookup_var_elem_of {A} k (l : list (string * A)) v :
  lookup_var k l = Some v -> (k, v) ∈ l.
Proof.
  induction l as [|[k' v'] l IH]; simpl; [done|].
  destruct (decide (k = k')) as [->|].
  - intros [= <-]. apply elem_of_cons. by left.
  - intros H. apply elem_of_cons. right. auto.
Qed.

Lemma lookup_var_NoDup {A} k (l : list (string * A)) v :
  NoDup (names l) -> (k, v) ∈ l -> lookup_var k l = Some v.
Proof.
  unfold names. induction l as [|[k' v'] l IH]; simpl; intros Hnd Hin.
  - by apply elem_of_nil in Hin.
  - apply NoDup_cons in Hnd as [Hk Hnd]. apply elem_of_cons in Hin as [[= <- <-]|Hin].
    + by rewrite decide_True.
    + rewrite decide_False; [auto|].
      intros <-. apply Hk. by apply (list_elem_of_fmap_2 fst _ (k, v)).
Qed.

Section FakeFacts.
Context {L : ArrayLib}.
Variable map_restores_attrs : bool.

Lemma c2_stage_spec self data s dd :
  Forall (fun kv : string * DataArray => readable s kv.2) (data_vars data) ->
  (c2_scaling self = true ->
   Forall (fun kv : string * DataArray => declares_nodata s kv.2) (data_vars data)) ->
  dicts s !! ds_attrs data = Some dd ->
  exists data' s',
    (if c2_scaling self then scale_usgs_collection2 map_restores_attrs data else ret data) s
      = (Ok data', s') /\
    extends s s' /\ time data' = time data /\ dicts s' !! ds_attrs data' = Some dd /\
    vars_rel (normalized self) (prepared_attrs map_restores_attrs self) s s'
      (data_vars data) (data_vars data').
Proof.
  intros Hread Hnd Hdd. unfold normalized, prepared_attrs. destruct (c2_scaling self).
  - destruct (scale_usgs_collection2_spec map_restores_attrs data s dd)
      as (data' & E & Ht & Ha & R); [|done|].
    + specialize (Hnd eq_refl). apply Forall_forall. intros kv Hkv. split.
      * by eapply Forall_forall in Hread.
      * by eapply Forall_forall in Hnd.
    + pose proof (mono_scale_usgs_collection2 map_restores_attrs data s) as Hm.
      destruct (scale_usgs_collection2 map_restores_attrs data s) as [r s'].
      simpl in *. subst r. by exists data', s'.
  - exists data, s. split; [done|]. split; [apply extends_refl|]. split; [done|].
    split; [done|]. by apply vars_rel_refl.
Qed.

Lemma Fake_compute_spec self data s dd red green :
  Forall (fun kv : string * DataArray => readable s kv.2) (data_vars data) ->
  (c2_scaling self = true ->
   Forall (fun kv : string * DataArray => declares_nodata s kv.2) (data_vars data)) ->
  dicts s !! ds_attrs data = Some dd ->
  lookup_var "red" (data_vars data) = Some red ->
  lookup_var "green" (data_vars data) = Some green ->
  exists out s' pv bs npv,
    FakeFractionalCover_compute map_restores_attrs self data s = (Ok out, s') /\
    data_vars out = [("pv", pv); ("bs", bs); ("npv", npv)] /\
    time out = time data /\
    dicts s' !! ds_attrs out = Some dd /\
    band_rel (normalized self) (prepared_attrs map_restores_attrs self) s s' red pv /\
    band_rel (normalized self) (prepared_attrs map_restores_attrs self) s s' red bs /\
    band_rel (normalized self) (prepared_attrs map_restores_attrs self) s s' green npv.
Proof.
  intros Hread Hnd Hdd Hred Hgreen.
  destruct (c2_stage_spec self data s dd Hread Hnd Hdd) as (data1 & s1 & E1 & He1 & Ht1 & Ha1 & R1).
  destruct (vars_rel_lookup _ _ _ _ _ _ _ _ R1 Hred) as (red1 & Hred1 & Rr).
  destruct (vars_rel_lookup _ _ _ _ _ _ _ _ R1 Hgreen) as (green1 & Hgreen1 & Rg).
  destruct (Dataset_init_spec [("pv", red1); ("bs", red1); ("npv", green1)] (time data1)
              (ds_attrs data1) s1 dd) as (out & E2 & Ht2 & Ha2 & R2); [|done|].
  { destruct Rr as (v & d & _ & _ & Hv & Hd). destruct Rg as (v' & d' & _ & _ & Hv' & Hd').
    repeat constructor; simpl; by eexists _, _. }
  destruct (Dataset_init _ (time data1) (Some (ds_attrs data1)) s1) as [r s2] eqn:E3.
  simpl in E2, Ha2, R2. subst r.
  apply Forall2_cons_inv_l in R2 as ([k1 pv] & vs1 & [Ek1 Rpv] & R2 & Evs).
  apply Forall2_cons_inv_l in R2 as ([k2 bs] & vs2 & [Ek2 Rbs] & R2 & ->).
  apply Forall2_cons_inv_l in R2 as ([k3 npv] & vs3 & [Ek3 Rnpv] & R2 & ->).
  apply Forall2_nil_inv_l in R2 as ->. simpl in *. subst k1 k2 k3.
  exists out, s2, pv, bs, npv. split.
  { unfold FakeFractionalCover_compute. rewrite (run_bind_Ok _ _ _ _ _ E1).
    unfold Dataset_getattr. rewrite Hred1, Hgreen1. exact E3. }
  split; [done|]. split; [congruence|]. split; [done|].
  split; [|split].
  - exact (band_rel_trans _ _ _ _ _ _ _ _ _ _ Rr Rpv).
  - exact (band_rel_trans _ _ _ _ _ _ _ _ _ _ Rr Rbs).
  - exact (band_rel_trans _ _ _ _ _ _ _ _ _ _ Rg Rnpv).
Qed.

End FakeFacts.

(** ** The claims on [compute] *)

Lemma out_rel_names outs s' vars2 vars :
  Forall2 (out_rel outs s') vars2 vars ->
  names vars = new_name rename_dict <$> names vars2.
Proof.
  unfold names. induction 1 as [|???? [E _] _ IH]; simpl; [done|]. by f_equal.
Qed.

Lemma new_names_lower bands l :
  bands = upper_names \/ bands = lower_names ->
  l ≡ₚ bands -> new_name rename_dict <$> l ≡ₚ lower_names.
Proof. intros [->| ->] ->; reflexivity. Qed.

Lemma NoDup_lower_names : NoDup lower_names.
Proof. compute_done. Qed.

Lemma shape_planes_of k outs p :
  Forall (fun o : Slice =>
            k ∈ names (sl_vars o) /\
            Forall (fun kv : string * Variable2 => plane_shape (v_values kv.2) = p) (sl_vars o))
    outs ->
  shape (planes_of k outs) = replicate (length outs) p.
Proof.
  unfold planes_of, shape. induction 1 as [|o outs [Hk Hp] _ IH]; simpl; [done|].
  destruct (lookup_var_is_Some k (sl_vars o) Hk) as [v Hv]. rewrite Hv. simpl.
  f_equal; [|done].
  apply lookup_var_elem_of in Hv. by eapply Forall_forall in Hp; [|exact Hv].
Qed.

Lemma shape_lookup (a : ndarray) n p i plane :
  shape a = replicate n p -> a !! i = Some plane -> plane_shape plane = p.
Proof.
  unfold shape. intros Hs Hi.
  assert ((plane_shape <$> a) !! i = Some (plane_shape plane)) as H
    by by rewrite list_lookup_fmap, Hi.
  rewrite Hs in H. by apply lookup_replicate in H as [-> _].
Qed.

Section ComputeClaims.
Context {L : ArrayLib}.
Variable fractional_cover :
  Slice -> list Measurement -> gmap string (list pynum) -> result Slice.
Variable map_restores_attrs : bool.

(** C3, as the code has it: for a cube of N time steps with N at least 1
    (a crs attribute, and nodata declared on every band when
    [c2_scaling] is set) and an unmixing function that returns, for every
    slice, four variables named PV, NPV, BS, UE or pv, npv, bs, ue,
    [compute] returns a cube of N time steps whose variables are named
    pv, npv, bs and ue, each with N planes, the plane of time index [i]
    being the one that the unmixing of slice [i] of the prepared cube
    returned under the old name. *)
Theorem compute_timesteps_and_names self data s crs bands :
  compute_pre self data s crs ->
  returns_bands fractional_cover bands ->
  bands = upper_names \/ bands = lower_names ->
  exists out s' data' s1,
    FractionalCover_compute fractional_cover map_restores_attrs self data s = (Ok out, s') /\
    prepare map_restores_attrs self data s = (Ok data', s1) /\
    length (time out) = length (time data) /\
    names (data_vars out) ≡ₚ lower_names /\
    Forall (fun kv : string * DataArray =>
              exists a, arrays s' !! da_buf kv.2 = Some a /\ da_window kv.2 = None /\
                        length a = length (time data)) (data_vars out) /\
    forall i, (i < length (time data))%nat ->
      exists sl o,
        slice_at s1 data' i = Ok sl /\
        fractional_cover sl FC_MEASUREMENTS (regression_coefficients self) = Ok o /\
        forall k v, lookup_var k (sl_vars o) = Some v ->
          exists da a,
            lookup_var (new_name rename_dict k) (data_vars out) = Some da /\
            arrays s' !! da_buf da = Some a /\
            a !! i = Some (v_values v).
Proof.
  intros Hpre Hret Hbands.
  destruct (compute_spec fractional_cover map_restores_attrs self data s crs bands
              Hpre Hret Hbands)
    as (data' & s1 & outs & first & out & s' & E1 & HR & Hnames & Hfirst & E & Ht & _ & Hout).
  pose proof (Forall2_length _ _ _ HR) as Hlen. rewrite length_seq in Hlen.
  assert (names (sl_vars first) ≡ₚ bands) as Hnf.
  { eapply Forall_forall in Hnames; [exact Hnames|].
    apply list_elem_of_lookup. by exists 0%nat. }
  assert (names (data_vars out) ≡ₚ lower_names) as Hno.
  { rewrite (out_rel_names _ _ _ _ Hout). by eapply new_names_lower. }
  assert (forall k, k ∈ bands ->
            Forall (fun o : Slice => k ∈ names (sl_vars o)) outs) as Hin.
  { intros k Hk. eapply Forall_impl; [exact Hnames|]. intros o Ho. simpl in Ho.
    by rewrite Ho. }
  exists out, s', data', s1. split; [done|]. split; [done|].
  split; [by rewrite Ht, length_fmap|]. split; [done|]. split.
  - eapply Forall2_Forall_r; [exact Hout|]. apply Forall_forall.
    intros [k v] Hkv kv (_ & Hw & Ha). exists (planes_of k outs).
    split; [done|]. split; [done|]. simpl. rewrite length_planes_of; [lia|].
    apply Hin. rewrite <- Hnf. by apply (list_elem_of_fmap_2 fst _ (k, v)).
  - intros i Hi.
    destruct (Forall2_lookup_l _ _ _ i i HR) as (o & Ho & sl & Hsl & Hfc).
    { by apply lookup_seq_lt. }
    exists sl, o. split; [done|]. split; [done|]. intros k v Hv.
    assert (k ∈ bands) as Hk.
    { eapply Forall_forall in Hnames; [|by eapply list_elem_of_lookup_2].
      simpl in Hnames. rewrite <- Hnames.
      apply lookup_var_elem_of in Hv. by apply (list_elem_of_fmap_2 fst _ (k, v)). }
    assert (k ∈ names (sl_vars first)) as Hkf by by rewrite Hnf.
    apply list_elem_of_fmap in Hkf as ([k0 v0] & -> & Hkv0). simpl in *.
    apply list_elem_of_lookup in Hkv0 as [j Hj].
    destruct (Forall2_lookup_l _ _ _ j _ Hout Hj) as ([k' da] & Hda & Ek & _ & Ha).
    simpl in *. subst k'.
    exists da, (planes_of k0 outs). split; [|split; [done|]].
    + apply lookup_var_NoDup; [|by eapply list_elem_of_lookup_2].
      rewrite Hno. apply NoDup_lower_names.
    + eapply planes_of_lookup; eauto.
Qed.

(** C8: for a cube that carries a crs attribute, the cube that [compute]
    returns carries the same value under ['crs'], with [c2_scaling] set
    or not. *)
Theorem compute_threads_crs self data s crs bands :
  compute_pre self data s crs ->
  returns_bands fractional_cover bands ->
  bands = upper_names \/ bands = lower_names ->
  exists out s' d,
    FractionalCover_compute fractional_cover map_restores_attrs self data s = (Ok out, s') /\
    dicts s' !! ds_attrs out = Some d /\
    d !! "crs" = Some crs.
Proof.
  intros Hpre Hret Hbands.
  destruct (compute_spec fractional_cover map_restores_attrs self data s crs bands
              Hpre Hret Hbands)
    as (data' & s1 & outs & first & out & s' & _ & _ & _ & _ & E & _ & (d & Hd & Hc) & _).
  by exists out, s', d.
Qed.

(** C9: with [test_mode] the cube is cut down to the first 100 rows and
    columns before the scaling and the unmixing, and is left whole
    without it.  For an input of [ny] rows and [nx] columns: every band
    of the prepared cube holds the scaling (when [c2_scaling] is set) of
    the cells of the first [min 100 ny] rows and [min 100 nx] columns of
    the input band (resp. of all its cells); the slice of every time step
    that is unmixed is a slice of that cube, of that extent; and with an
    unmixing function that keeps the extent of its planes, the result has
    the four variables pv, npv, bs and ue, whose plane at every time step
    is the one the unmixing of that slice returned, of [min 100 ny] rows
    and [min 100 nx] columns (resp. [ny] and [nx]). *)
Theorem compute_test_mode_extent self data s crs bands ny nx :
  compute_pre self data s crs ->
  returns_bands fractional_cover bands ->
  bands = upper_names \/ bands = lower_names ->
  keeps_extent fractional_cover ->
  data_vars data <> [] ->
  Forall (fun kv : string * DataArray =>
            exists v, band_value s kv.2 = Some v /\
                      shape v = replicate (length (time data)) (replicate ny nx))
    (data_vars data) ->
  exists data' s1 out s',
    prepare map_restores_attrs self data s = (Ok data', s1) /\
    time data' = time data /\
    Forall2 (fun kv kv' : string * DataArray =>
               kv'.1 = kv.1 /\
               exists v d,
                 band_value s kv.2 = Some v /\ band_attrs s kv.2 = Some d /\
                 band_value s1 kv'.2 =
                   Some (normalized self d (if test_mode self then crop 100 100 v else v)) /\
                 shape (if test_mode self then crop 100 100 v else v) =
                   replicate (length (time data))
                     (replicate (extent self ny) (extent self nx)) /\
                 forall t y x,
                   cell (if test_mode self then crop 100 100 v else v) t y x =
                     if test_mode self then window_cell 100 100 v t y x else cell v t y x)
      (data_vars data) (data_vars data') /\
    FractionalCover_compute fractional_cover map_restores_attrs self data s = (Ok out, s') /\
    names (data_vars out) ≡ₚ lower_names /\
    length (time out) = length (time data) /\
    Forall (fun kv : string * DataArray =>
              exists a, arrays s' !! da_buf kv.2 = Some a /\ da_window kv.2 = None /\
                shape a = replicate (length (time data))
                            (replicate (extent self ny) (extent self nx)))
      (data_vars out) /\
    forall i, (i < length (time data))%nat ->
      exists sl o,
        slice_at s1 data' i = Ok sl /\
        Forall2 (plane_rel s1 i) (data_vars data') (sl_vars sl) /\
        Forall (fun kv : string * Variable2 =>
                  plane_shape (v_values kv.2) = replicate (extent self ny) (extent self nx))
          (sl_vars sl) /\
        fractional_cover sl FC_MEASUREMENTS (regression_coefficients self) = Ok o /\
        forall k v, lookup_var k (sl_vars o) = Some v ->
          plane_shape (v_values v) = replicate (extent self ny) (extent self nx) /\
          exists da a,
            lookup_var (new_name rename_dict k) (data_vars out) = Some da /\
            arrays s' !! da_buf da = Some a /\
            a !! i = Some (v_values v).
Proof.
  intros Hpre Hret Hbands Hkeep Hne Hshape.
  destruct (compute_spec fractional_cover map_restores_attrs self data s crs bands
              Hpre Hret Hbands)
    as (data' & s1 & outs & first & out & s' & E1 & HR & Hnames & Hfirst & E & Ht & _ & Hout).
  destruct Hpre as (Hwf & (dd & Hdd & Hcrs) & Hnd & Hn).
  destruct (prepare_spec map_restores_attrs self data s dd Hwf Hdd Hnd)
    as (data'' & s1' & E1' & He1 & Ht1 & Ha & R & Hwf1).
  rewrite E1 in E1'. injection E1' as <- <-.
  pose proof (Forall2_length _ _ _ HR) as Hlen. rewrite length_seq in Hlen.
  assert (names (sl_vars first) ≡ₚ bands) as Hnf.
  { eapply Forall_forall in Hnames; [exact Hnames|].
    apply list_elem_of_lookup. by exists 0%nat. }
  assert (names (data_vars out) ≡ₚ lower_names) as Hno.
  { rewrite (out_rel_names _ _ _ _ Hout). by eapply new_names_lower. }
  set (p := replicate (extent self ny) (extent self nx)).
  (* the extent of the window *)
  assert (forall v : ndarray,
            shape v = replicate (length (time data)) (replicate ny nx) ->
            shape (if test_mode self then crop 100 100 v else v)
              = replicate (length (time data)) p) as Hwin.
  { intros v Hs. unfold p, extent. destruct (test_mode self); [|done]. by apply shape_crop. }
  (* the planes of the prepared cube *)
  assert (Forall (fun kv : string * DataArray =>
            exists v, band_value s1 kv.2 = Some v /\
                      shape v = replicate (length (time data)) p) (data_vars data')) as Hprep.
  { eapply Forall2_Forall_transfer; [|exact R|exact Hshape].
    intros kv kv' [_ (v & d & Hv & Hd & Hv' & Hd')] (v0 & Hv0 & Hs).
    rewrite Hv in Hv0. injection Hv0 as <-.
    exists (prepared_value self d v). split; [done|].
    unfold prepared_value, subsample. rewrite shape_normalized. by apply Hwin. }
  (* the slices that are unmixed *)
  assert (forall i sl, slice_at s1 data' i = Ok sl -> (i < length (time data))%nat ->
            Forall2 (plane_rel s1 i) (data_vars data') (sl_vars sl) /\
            sl_vars sl <> [] /\
            Forall (fun kv : string * Variable2 => plane_shape (v_values kv.2) = p)
              (sl_vars sl)) as Hslices.
  { intros i sl Hsl Hi. rewrite <- Ht1 in Hi.
    destruct (slice_at_spec s1 data' i Hwf1 Hi) as (sl' & Hsl' & Hplanes).
    rewrite Hsl in Hsl'. injection Hsl' as <-.
    split; [done|]. split.
    - intros Hnil. rewrite Hnil in Hplanes. apply Forall2_nil_inv_r in Hplanes.
      apply Hne. apply Forall2_length in R. rewrite Hplanes in R.
      by destruct (data_vars data).
    - eapply Forall2_Forall_transfer; [|exact Hplanes|exact Hprep].
      intros kv kv2 [_ (v & Hv & Hi')] (v0 & Hv0 & Hs).
      rewrite Hv in Hv0. injection Hv0 as <-.
      eapply shape_lookup; eauto. }
  (* the planes that the unmixing returns *)
  assert (Forall (fun o : Slice =>
            Forall (fun kv : string * Variable2 => plane_shape (v_values kv.2) = p) (sl_vars o))
            outs) as Houts.
  { apply Forall_forall. intros o Ho. apply list_elem_of_lookup in Ho as [i Hi].
    destruct (Forall2_lookup_r _ _ _ _ _ HR Hi) as (j & Hj & sl & Hsl & Hfc).
    apply lookup_seq in Hj as [-> Hj]. simpl in *.
    destruct (Hslices i sl Hsl Hj) as (_ & Hnil & Hp).
    by eapply Hkeep. }
  exists data', s1, out, s'. split; [done|]. split; [done|]. split.
  { eapply Forall2_impl; [exact (Forall2_with_Forall_l _ _ _ _ R Hshape)|].
    intros kv kv' [(v0 & Hv0 & Hs) [Ek (v & d & Hv & Hd & Hv' & _)]].
    rewrite Hv in Hv0. injection Hv0 as <-.
    split; [done|]. exists v, d. split; [done|]. split; [done|]. split; [done|].
    split; [by apply Hwin|].
    intros t y x. destruct (test_mode self); [apply cell_crop|done]. }
  split; [done|]. split; [done|]. split; [by rewrite Ht, length_fmap|]. split.
  { eapply Forall2_Forall_r; [exact Hout|]. apply Forall_forall.
    intros [k v] Hkv kv (_ & Hw & Ha'). exists (planes_of k outs).
    split; [done|]. split; [done|]. simpl.
    rewrite Hlen. apply shape_planes_of.
    apply Forall_forall. intros o Ho. split.
    - eapply Forall_forall in Hnames; [|exact Ho]. simpl in Hnames.
      rewrite Hnames, <- Hnf. by apply (list_elem_of_fmap_2 fst _ (k, v)).
    - by eapply Forall_forall in Houts. }
  intros i Hi.
  destruct (Forall2_lookup_l _ _ _ i i HR) as (o & Ho & sl & Hsl & Hfc).
  { by apply lookup_seq_lt. }
  destruct (Hslices i sl Hsl Hi) as (Hplanes & _ & Hp).
  exists sl, o. split; [done|]. split; [done|]. split; [done|]. split; [done|].
  intros k v Hv. split.
  { eapply Forall_lookup_1 in Houts; [|exact Ho]. simpl in Houts.
    apply lookup_var_elem_of in Hv.
    eapply Forall_forall in Houts; [|exact Hv]. exact Houts. }
  assert (k ∈ bands) as Hk.
  { eapply Forall_forall in Hnames; [|by eapply list_elem_of_lookup_2].
    simpl in Hnames. rewrite <- Hnames.
    apply lookup_var_elem_of in Hv. by apply (list_elem_of_fmap_2 fst _ (k, v)). }
  assert (k ∈ names (sl_vars first)) as Hkf by by rewrite Hnf.
  apply list_elem_of_fmap in Hkf as ([k0 v0] & -> & Hkv0). simpl in *.
  apply list_elem_of_lookup in Hkv0 as [j Hj].
  destruct (Forall2_lookup_l _ _ _ j _ Hout Hj) as ([k' da] & Hda & Ek & _ & Ha').
  simpl in *. subst k'.
  assert (forall k1, k1 ∈ bands ->
            Forall (fun o : Slice => k1 ∈ names (sl_vars o)) outs) as Hin.
  { intros k1 Hk1. eapply Forall_impl; [exact Hnames|]. intros o1 Ho1. simpl in Ho1.
    by rewrite Ho1. }
  exists da, (planes_of k0 outs). split; [|split; [done|]].
  + apply lookup_var_NoDup; [|by eapply list_elem_of_lookup_2].
    rewrite Hno. apply NoDup_lower_names.
  + eapply planes_of_lookup; eauto.
Qed.

End ComputeClaims.

(** ** Inputs are kept *)

Section FrameClaims.
Context {L : ArrayLib}.
Variable fractional_cover :
  Slice -> list Measurement -> gmap string (list pynum) -> result Slice.
Variable map_restores_attrs : bool.

(** C6: [scale_and_clip_dataarray] keeps every buffer and every
    dictionary of the store it is called in, so the cells and the
    attributes of its input band (nodata included) read as before,
    whatever the outcome; the array it returns is made of a buffer and a
    dictionary that did not exist before.  [compute] keeps the store in
    the same way, so the cells and the attributes of every band of its
    input cube, and the attributes of the cube, read as before. *)
Theorem inputs_are_kept da sf ao cr nn dt self data s :
  (extends s (scale_and_clip_dataarray da sf ao cr nn dt s).2 /\
   (forall v d, band_value s da = Some v -> band_attrs s da = Some d ->
      band_value (scale_and_clip_dataarray da sf ao cr nn dt s).2 da = Some v /\
      band_attrs (scale_and_clip_dataarray da sf ao cr nn dt s).2 da = Some d) /\
   (forall out, (scale_and_clip_dataarray da sf ao cr nn dt s).1 = Ok out ->
      arrays s !! da_buf out = None /\ dicts s !! da_attrs out = None)) /\
  (extends s (FractionalCover_compute fractional_cover map_restores_attrs self data s).2 /\
   (forall d, dicts s !! ds_attrs data = Some d ->
      dicts (FractionalCover_compute fractional_cover map_restores_attrs self data s).2 !! ds_attrs data
        = Some d) /\
   (forall kv v d, kv ∈ data_vars data ->
      band_value s kv.2 = Some v -> band_attrs s kv.2 = Some d ->
      band_value (FractionalCover_compute fractional_cover map_restores_attrs self data s).2 kv.2 = Some v /\
      band_attrs (FractionalCover_compute fractional_cover map_restores_attrs self data s).2 kv.2 = Some d)).
Proof.
  pose proof (scale_and_clip_frame da sf ao cr nn dt s) as [He Hfresh].
  pose proof (compute_frame fractional_cover map_restores_attrs self data s) as Hc.
  split; [split; [done|split; [|done]]|split; [done|split]].
  - intros v d Hv Hd. eauto using band_value_extends, band_attrs_extends.
  - intros d Hd. by apply Hc.
  - intros kv v d _ Hv Hd. eauto using band_value_extends, band_attrs_extends.
Qed.

End FrameClaims.

(** ** The constructor *)



(** ** The examples on cubes *)

Lemma readable0 :
  Forall (fun kv : string * DataArray => readable store0 kv.2) (data_vars cube0).
Proof. repeat constructor; eexists _, _; split; reflexivity. Qed.

Lemma declares_nodata0 :
  Forall (fun kv : string * DataArray => declares_nodata store0 kv.2) (data_vars cube0).
Proof. repeat constructor; eexists; (split; [reflexivity|eexists; reflexivity]). Qed.

Lemma compute_pre0 : compute_pre self0 cube0 store0 crs0.
Proof.
  split; [|split; [|split]].
  - split; [eexists; reflexivity|].
    repeat constructor; eexists; reflexivity.
  - eexists. split; reflexivity.
  - intros _. apply declares_nodata0.
  - simpl. lia.
Qed.

Lemma toy_unmix_returns_upper : returns_bands toy_unmix upper_names.
Proof. intros sl ms rc. eexists. split; reflexivity. Qed.

Lemma pick_shape k sl p :
  sl_vars sl <> [] ->
  Forall (fun kv : string * Variable2 => plane_shape (v_values kv.2) = p) (sl_vars sl) ->
  plane_shape (v_values (pick k sl)) = p.
Proof.
  intros Hne Hall. unfold pick.
  destruct (lookup_var k (sl_vars sl)) as [v|] eqn:Hv.
  - apply lookup_var_elem_of in Hv. by eapply Forall_forall in Hall; [|exact Hv].
  - destruct (sl_vars sl) as [|kv vars]; [done|]. by apply Forall_cons in Hall as [? _].
Qed.

Lemma toy_unmix_keeps_extent : keeps_extent toy_unmix.
Proof.
  intros sl ms rc o p [= <-] Hne Hall. simpl.
  repeat constructor; simpl; by apply pick_shape.
Qed.

Lemma shape0 :
  Forall (fun kv : string * DataArray =>
            exists v, band_value store0 kv.2 = Some v /\
                      shape v = replicate (length (time cube0)) (replicate 2 2)%nat)
    (data_vars cube0).
Proof. repeat constructor; eexists; split; reflexivity. Qed.

(** C3, as the claim has it, fails on a cube with an empty time axis:
    [xr.concat] refuses the empty list and [compute] raises
    [ValueError]. *)
Lemma compute_empty_time_axis_raises :
  wf_cube store_empty cube_empty /\
  returns_bands toy_unmix upper_names /\
  length (time cube_empty) = 0%nat /\
  (FractionalCover_compute (L := f64) toy_unmix true (FractionalCover_init None false false)
     cube_empty store_empty).1 = Raise ValueError.
Proof.
  split; [|split; [apply toy_unmix_returns_upper|split; [reflexivity|vm_compute; reflexivity]]].
  split; [eexists; reflexivity|]. repeat constructor; eexists; reflexivity.
Qed.

Lemma compute_timesteps_and_names_witness :
  compute_pre self0 cube0 store0 crs0 /\
  returns_bands toy_unmix upper_names /\
  exists out s',
    FractionalCover_compute (L := f64) toy_unmix true self0 cube0 store0 = (Ok out, s') /\
    length (time out) = 2%nat /\
    names (data_vars out) ≡ₚ lower_names.
Proof.
  split; [exact compute_pre0|]. split; [exact toy_unmix_returns_upper|].
  destruct (compute_timesteps_and_names (L := f64) toy_unmix true self0 cube0 store0 crs0
              upper_names compute_pre0 toy_unmix_returns_upper (or_introl eq_refl))
    as (out & s' & data' & s1 & E & _ & Ht & Hn & _).
  exists out, s'. split; [exact E|]. split; [exact Ht|exact Hn].
Defined.

Lemma compute_threads_crs_witness :
  compute_pre self0 cube0 store0 crs0 /\
  returns_bands toy_unmix upper_names /\
  exists out s' d,
    FractionalCover_compute (L := f64) toy_unmix true self0 cube0 store0 = (Ok out, s') /\
    dicts s' !! ds_attrs out = Some d /\
    d !! "crs" = Some crs0.
Proof.
  split; [exact compute_pre0|]. split; [exact toy_unmix_returns_upper|].
  exact (compute_threads_crs (L := f64) toy_unmix true self0 cube0 store0 crs0
           upper_names compute_pre0 toy_unmix_returns_upper (or_introl eq_refl)).
Defined.

Lemma compute_pre_wide : compute_pre self0 cube0 store_wide crs0.
Proof.
  split; [|split; [|split]].
  - split; [eexists; reflexivity|].
    repeat constructor; eexists; reflexivity.
  - eexists. split; reflexivity.
  - intros _. apply declares_nodata0.
  - simpl. lia.
Qed.

Lemma shape_wide :
  Forall (fun kv : string * DataArray =>
            exists v, band_value store_wide kv.2 = Some v /\
                      shape v = replicate (length (time cube0)) (replicate 101 102)%nat)
    (data_vars cube0).
Proof.
  repeat constructor; (eexists; split; [reflexivity|vm_compute; reflexivity]).
Qed.

Lemma compute_test_mode_extent_witness :
  compute_pre self0 cube0 store_wide crs0 /\
  returns_bands toy_unmix upper_names /\
  keeps_extent toy_unmix /\
  Forall (fun kv : string * DataArray =>
            exists v, band_value store_wide kv.2 = Some v /\
                      shape v = replicate 2 (replicate 101 102)%nat)
    (data_vars cube0) /\
  exists out s',
    FractionalCover_compute (L := f64) toy_unmix true self0 cube0 store_wide = (Ok out, s') /\
    names (data_vars out) ≡ₚ lower_names /\
    length (time out) = 2%nat /\
    Forall (fun kv : string * DataArray =>
              exists a, arrays s' !! da_buf kv.2 = Some a /\ da_window kv.2 = None /\
                shape a = replicate 2 (replicate 100 100)%nat)
      (data_vars out).
Proof.
  split; [exact compute_pre_wide|]. split; [exact toy_unmix_returns_upper|].
  split; [exact toy_unmix_keeps_extent|]. split; [exact shape_wide|].
  destruct (compute_test_mode_extent (L := f64) toy_unmix true self0 cube0 store_wide crs0
              upper_names 101 102 compute_pre_wide toy_unmix_returns_upper (or_introl eq_refl)
              toy_unmix_keeps_extent ltac:(discriminate) shape_wide)
    as (data' & s1 & out & s' & _ & _ & _ & E & Hn & Ht & Hs & _).
  exists out, s'. split; [exact E|]. split; [exact Hn|]. split; [exact Ht|exact Hs].
Defined.

(** ** The claims on [FakeFractionalCover.compute] *)

Lemma band_rel_shape {L : ArrayLib} flag self s s' da da' :
  band_rel (normalized self) (prepared_attrs flag self) s s' da da' ->
  exists v a, band_value s da = Some v /\ band_value s' da' = Some a /\ shape a = shape v.
Proof.
  intros (v & d & Hv & _ & Ha & _). exists v, (normalized self d v).
  split; [done|]. split; [done|]. apply shape_normalized.
Qed.

Section FakeClaims.
Context {L : ArrayLib}.
Variable map_restores_attrs : bool.

(** C10: the result of [FakeFractionalCover.compute] is the same for the
    two values of [test_mode].  For a cube that has a red and a green
    band (and declares nodata on every band when [c2_scaling] is set),
    the variables pv, bs and npv of the result have the shape of the red,
    red and green band of the input: no window is taken. *)
Theorem Fake_compute_ignores_test_mode rc c2 data s :
  (forall tm tm',
     FakeFractionalCover_compute map_restores_attrs
       {| regression_coefficients := rc; c2_scaling := c2; test_mode := tm |} data s =
     FakeFractionalCover_compute map_restores_attrs
       {| regression_coefficients := rc; c2_scaling := c2; test_mode := tm' |} data s) /\
  (forall tm dd red green,
     Forall (fun kv : string * DataArray => readable s kv.2) (data_vars data) ->
     (c2 = true ->
      Forall (fun kv : string * DataArray => declares_nodata s kv.2) (data_vars data)) ->
     dicts s !! ds_attrs data = Some dd ->
     lookup_var "red" (data_vars data) = Some red ->
     lookup_var "green" (data_vars data) = Some green ->
     exists out s',
       FakeFractionalCover_compute map_restores_attrs
         {| regression_coefficients := rc; c2_scaling := c2; test_mode := tm |} data s
         = (Ok out, s') /\
       names (data_vars out) = ["pv"; "bs"; "npv"] /\
       Forall2 (fun (src : DataArray) (kv : string * DataArray) =>
                  exists v a, band_value s src = Some v /\ band_value s' kv.2 = Some a /\
                              shape a = shape v)
         [red; red; green] (data_vars out)).
Proof.
  split; [reflexivity|].
  intros tm dd red green Hread Hnd Hdd Hred Hgreen.
  destruct (Fake_compute_spec map_restores_attrs
              {| regression_coefficients := rc; c2_scaling := c2; test_mode := tm |}
              data s dd red green Hread Hnd Hdd Hred Hgreen)
    as (out & s' & pv & bs & npv & E & Hvars & _ & _ & Rpv & Rbs & Rnpv).
  exists out, s'. split; [done|]. rewrite Hvars. split; [done|].
  repeat constructor; simpl; eapply band_rel_shape; eauto.
Qed.

End FakeClaims.

Lemma Fake_compute_ignores_test_mode_witness :
  FakeFractionalCover_compute (L := f64) true (FractionalCover_init None true true) cube0 store0 =
  FakeFractionalCover_compute (L := f64) true (FractionalCover_init None true false) cube0 store0 /\
  exists out s',
    FakeFractionalCover_compute (L := f64) true (FractionalCover_init None true true) cube0 store0
      = (Ok out, s') /\
    names (data_vars out) = ["pv"; "bs"; "npv"] /\
    Forall2 (fun (src : DataArray) (kv : string * DataArray) =>
               exists v a, band_value store0 src = Some v /\ band_value s' kv.2 = Some a /\
                           shape a = shape v)
      [red0; red0; green0] (data_vars out).
Proof.
  pose proof (Fake_compute_ignores_test_mode (L := f64) true
                (regression_coefficients (FractionalCover_init None true true)) true
                cube0 store0) as [Hsame Hfull].
  split; [exact (Hsame true false)|].
  exact (Hfull true {[ "crs" := AStr "EPSG:3577" ]} red0 green0 readable0
           (fun _ => declares_nodata0) eq_refl eq_refl eq_refl).
Defined.

(** C7 (evaluation at the failing input): on a cube with the five
    required bands, [c2_scaling] set, [FakeFractionalCover.compute]
    returns the three variables pv, bs and npv, each holding the scaled
    cells of the red or the green band; there is no variable ue, which
    [measurements] declares. *)
Theorem Fake_compute_has_no_ue :
  exists out s',
    FakeFractionalCover_compute (L := f64) true self0 cube0 store0 = (Ok out, s') /\
    names (data_vars out) = ["pv"; "bs"; "npv"] /\
    lookup_var "ue" (data_vars out) = None /\
    names (FractionalCover_measurements self0 []) = ["pv"; "npv"; "bs"; "ue"] /\
    (exists pv a, lookup_var "pv" (data_vars out) = Some pv /\
       band_value s' pv = Some a /\
       a = [[[-625; -999]; [-1989; 0]]; [[-1999; -1999]; [-1999; -1998]]]).
Proof.
  destruct (Fake_compute_spec (L := f64) true self0 cube0 store0
              {[ "crs" := AStr "EPSG:3577" ]} red0 green0 readable0
              (fun _ => declares_nodata0) eq_refl eq_refl eq_refl)
    as (out & s' & pv & bs & npv & E & Hvars & _ & _ & Rpv & _ & _).
  exists out, s'. split; [done|]. rewrite Hvars. split; [done|]. split; [done|].
  split; [done|]. exists pv. destruct Rpv as (v & d & Hv & Hd & Ha & _).
  eexists. split; [done|]. split; [exact Ha|].
  injection Hv as <-. injection Hd as <-. vm_compute. reflexivity.
Qed.

(** * Further properties

    Error paths, sharing and composition of the functions of the module,
    beyond the properties above. *)

Lemma run_bind_Raise {A B} (m : M A) (k : A -> M B) s e s' :
  m s = (Raise e, s') -> bind m k s = (Raise e, s').
Proof. intros E. unfold bind. by rewrite E. Qed.

Section NormalizerCells.
Context {L : ArrayLib}.

Lemma cell_normalize_cells nd sf ao nn dt (raw : ndarray) t y x :
  cell (normalize_cells nd sf ao nn dt raw) t y x =
    (fun v : Z => if eq_nodata nd v then wrap dt nn
                  else astype_elt dt (plus (times v sf) ao)) <$> cell raw t y x.
Proof.
  unfold normalize_cells. rewrite cell_where3, !cell_map3.
  destruct (cell raw t y x) as [v|]; simpl; [|done].
  by destruct (eq_nodata nd v).
Qed.

(** X1: [scale_and_clip_dataarray], cell by cell.  On a band whose
    references are in the store and whose attributes declare nodata, the
    call returns a new buffer of the shape of the input's data in which
    a cell whose raw value equals nodata holds [new_nodata] (as
    [new_dtype] stores it) and every other cell holds the conversion to
    [new_dtype] of [raw * scale_factor + add_offset].  This holds for
    every [clip_range]: the bounds have no part in the result. *)
Theorem scale_and_clip_cells da sf ao cr nn dt s d nd a :
  dicts s !! da_attrs da = Some d ->
  d !! "nodata" = Some nd ->
  arrays s !! da_buf da = Some a ->
  exists out s' a',
    scale_and_clip_dataarray da sf ao cr nn dt s = (Ok out, s') /\
    arrays s' !! da_buf out = Some a' /\ da_window out = None /\
    shape a' = shape (view (da_window da) a) /\
    forall t y x,
      cell a' t y x =
        (fun v : Z => if eq_nodata nd v then wrap dt nn
                      else astype_elt dt (plus (times v sf) ao))
          <$> cell (view (da_window da) a) t y x.
Proof.
  intros Hd Hnd Ha.
  eexists _, _, _. split; [by apply scale_and_clip_run|].
  split; [apply lookup_insert_eq|]. split; [done|].
  split; [apply shape_normalize_cells|].
  intros t y x. apply cell_normalize_cells.
Qed.

End NormalizerCells.

Lemma scale_and_clip_cells_witness :
  exists out s' a',
    c2_normalize red0 store0 = (Ok out, s') /\
    arrays s' !! da_buf out = Some a' /\ da_window out = None /\
    shape a' = shape (view (da_window red0) [[[5000; -999]; [40; 7273]]; [[1; 2]; [3; 4]]]) /\
    forall t y x,
      cell a' t y x =
        (fun v : Z => if eq_nodata (AInt (-999)) v then wrap int16 (-999)
                      else astype_elt (ArrayLib := f64) int16
                             (plus (ArrayLib := f64) (times (ArrayLib := f64) v Float64.lit_0_275)
                                (Float64.of_Z (-2000))))
          <$> cell (view (da_window red0) [[[5000; -999]; [40; 7273]]; [[1; 2]; [3; 4]]]) t y x.
Proof.
  apply (scale_and_clip_cells (L := f64) red0 Float64.lit_0_275 (Float64.of_Z (-2000))
           (Some (Float64.of_Z 0, Float64.of_Z 10000)) (-999) int16 store0 band_attrs0
           (AInt (-999))); reflexivity.
Defined.

Lemma vars_rel_same_names g h s0 s vars vars' :
  vars_rel g h s0 s vars vars' -> names vars' = names vars.
Proof.
  unfold names. induction 1 as [|???? [E _] _ IH]; simpl; [done|]. by f_equal.
Qed.

Lemma Dataset_init_fresh vars coord l s data' :
  (Dataset_init vars coord (Some l) s).1 = Ok data' -> dicts s !! ds_attrs data' = None.
Proof.
  unfold Dataset_init, bind.
  pose proof (mono_map_vars shallow_copy vars (fun da => mono_set_attrs da (da_attrs da)) s) as Hm.
  destruct (map_vars shallow_copy vars s) as [[vs|e] s1]; [|done]. simpl in Hm.
  unfold copy_dict, read_dict, bind, alloc_dict, ret.
  destruct (dicts s1 !! l); [|done]. simpl. intros [= <-]. simpl.
  eapply extends_None_dict; [exact Hm|apply fresh_dict_None].
Qed.

Section ScalingStage.
Context {L : ArrayLib}.
Variable map_restores_attrs : bool.

Lemma scale_usgs_collection2_fresh data s data' :
  (scale_usgs_collection2 map_restores_attrs data s).1 = Ok data' ->
  dicts s !! ds_attrs data' = None.
Proof.
  unfold scale_usgs_collection2, Dataset_apply. fold c2_band.
  pose proof (mono_map_vars c2_band (data_vars data) mono_c2_band s) as H1.
  unfold bind at 1.
  destruct (map_vars c2_band (data_vars data) s) as [[vs|e] s1]; [|done]. simpl in H1.
  unfold bind.
  assert (mono (if true && map_restores_attrs
                then mapM restore_attrs (zip vs (data_vars data)) else ret vs)) as Hm.
  { destruct (_ && _); [apply mono_mapM, mono_restore_attrs|apply mono_ret]. }
  specialize (Hm s1).
  destruct ((if true && map_restores_attrs
             then mapM restore_attrs (zip vs (data_vars data)) else ret vs) s1)
    as [[vs2|e] s2]; [|done].
  simpl in Hm. intros H. apply Dataset_init_fresh in H.
  eapply extends_None_dict; [|exact H]. by eapply extends_trans.
Qed.

(** X2: [scale_usgs_collection2] on a cube all of whose bands declare
    nodata returns a cube with the same variable names in the same
    order and the same time coordinate; its cube-level attributes are
    those of the input, in a dictionary of its own; every band holds the
    normalization (factor 0.275, offset -2000, nodata -999, int16) of
    the cells of the input band, and the input band still holds its
    cells. *)
Theorem scale_usgs_collection2_result data s dd :
  Forall (fun kv : string * DataArray => readable s kv.2 /\ declares_nodata s kv.2)
    (data_vars data) ->
  dicts s !! ds_attrs data = Some dd ->
  exists data' s',
    scale_usgs_collection2 map_restores_attrs data s = (Ok data', s') /\
    names (data_vars data') = names (data_vars data) /\
    time data' = time data /\
    dicts s' !! ds_attrs data' = Some dd /\
    dicts s !! ds_attrs data' = None /\
    Forall2 (fun kv kv' : string * DataArray =>
               exists v d nd,
                 band_value s kv.2 = Some v /\ band_attrs s kv.2 = Some d /\
                 d !! "nodata" = Some nd /\
                 band_value s' kv'.2 =
                   Some (normalize_cells nd (float_scalar Float64.lit_0_275) (int_scalar (-2000))
                           (-999) int16 v) /\
                 band_value s' kv.2 = Some v)
      (data_vars data) (data_vars data').
Proof.
  intros Hall Hdd.
  destruct (scale_usgs_collection2_spec map_restores_attrs data s dd Hall Hdd)
    as (data' & E & Ht & Hd & R).
  pose proof (scale_usgs_collection2_fresh data s data' E) as Hf.
  pose proof (mono_scale_usgs_collection2 map_restores_attrs data s) as Hm.
  destruct (scale_usgs_collection2 map_restores_attrs data s) as [r s'].
  simpl in *. subst r.
  exists data', s'. split; [done|].
  split; [by eapply vars_rel_same_names|]. split; [done|]. split; [done|]. split; [done|].
  unfold vars_rel in R. revert Hall.
  induction R as [|kv kv' vars vars' (_ & v & d & Hv & Hda & Hv' & _) _ IH];
    intros Hall; [constructor|].
  apply Forall_cons in Hall as [[_ (d0 & Hd0 & nd & Hnd)] Hall].
  constructor; [|by apply IH].
  assert (d0 = d) as -> by congruence.
  exists v, d, nd. split; [done|]. split; [done|]. split; [done|].
  split; [|by eapply band_value_extends].
  rewrite Hv'. unfold c2_cells. by rewrite Hnd.
Qed.

Lemma map_vars_c2_raise s0 vars : forall s,
  extends s0 s ->
  Forall (fun kv : string * DataArray => readable s0 kv.2) vars ->
  Exists (fun kv : string * DataArray => lacks_nodata s0 kv.2) vars ->
  (map_vars c2_band vars s).1 = Raise (KeyError "nodata").
Proof.
  induction vars as [|[k da] vars IH]; intros s He Hall Hex.
  { by apply Exists_nil in Hex. }
  apply Forall_cons in Hall as [Hr Hall]. simpl in Hr.
  rewrite map_vars_cons.
  destruct Hr as (v & d & Hv & Hd).
  destruct (d !! "nodata") as [nd|] eqn:Hnd.
  - destruct (c2_band_spec s0 da s He) as (da' & E & _).
    { split; [by exists v, d|]. exists d. split; [done|]. by eexists. }
    pose proof (mono_c2_band da s) as Hm.
    destruct (c2_band da s) as [r s1]. simpl in E, Hm. subst r.
    apply Exists_cons in Hex as [(d' & Hd' & Hnone)|Hex].
    { simpl in Hd'. congruence. }
    specialize (IH s1 (extends_trans _ _ _ He Hm) Hall Hex).
    destruct (map_vars c2_band vars s1) as [r s2]. simpl in IH. by subst r.
  - unfold c2_band. erewrite scale_and_clip_no_nodata; [done| |exact Hnd].
    apply He. exact Hd.
Qed.

Lemma scale_usgs_collection2_raise data s :
  Forall (fun kv : string * DataArray => readable s kv.2) (data_vars data) ->
  Exists (fun kv : string * DataArray => lacks_nodata s kv.2) (data_vars data) ->
  exists s', scale_usgs_collection2 map_restores_attrs data s = (Raise (KeyError "nodata"), s').
Proof.
  intros Hall Hex.
  pose proof (map_vars_c2_raise s (data_vars data) s (extends_refl s) Hall Hex) as E.
  unfold scale_usgs_collection2, Dataset_apply. fold c2_band.
  destruct (map_vars c2_band (data_vars data) s) as [r s1] eqn:E1. simpl in E. subst r.
  exists s1. by rewrite (run_bind_Raise _ _ _ _ _ E1).
Qed.

(** X3: [scale_usgs_collection2] on a cube one of whose bands declares
    no nodata raises [KeyError('nodata')]: no cube is returned, and
    every buffer and dictionary of the input is kept. *)
Theorem scale_usgs_collection2_missing_nodata data s :
  Forall (fun kv : string * DataArray => readable s kv.2) (data_vars data) ->
  Exists (fun kv : string * DataArray => lacks_nodata s kv.2) (data_vars data) ->
  (scale_usgs_collection2 map_restores_attrs data s).1 = Raise (KeyError "nodata") /\
  extends s (scale_usgs_collection2 map_restores_attrs data s).2.
Proof.
  intros Hall Hex. split; [|apply mono_scale_usgs_collection2].
  destruct (scale_usgs_collection2_raise data s Hall Hex) as [s' E]. by rewrite E.
Qed.

End ScalingStage.

Lemma scale_usgs_collection2_result_witness :
  Forall (fun kv : string * DataArray => readable store0 kv.2 /\ declares_nodata store0 kv.2)
    (data_vars cube0) /\
  exists data' s',
    scale_usgs_collection2 (L := f64) true cube0 store0 = (Ok data', s') /\
    names (data_vars data') = names (data_vars cube0) /\
    time data' = time cube0 /\
    dicts s' !! ds_attrs data' = Some {[ "crs" := crs0 ]} /\
    dicts store0 !! ds_attrs data' = None.
Proof.
  assert (Forall (fun kv : string * DataArray => readable store0 kv.2 /\ declares_nodata store0 kv.2)
            (data_vars cube0)) as H.
  { apply Forall_and. split; [exact readable0|exact declares_nodata0]. }
  split; [exact H|].
  destruct (scale_usgs_collection2_result (L := f64) true cube0 store0 {[ "crs" := crs0 ]} H
              eq_refl) as (data' & s' & E & Hn & Ht & Hd & Hf & _).
  exists data', s'. split; [exact E|]. split; [exact Hn|]. split; [exact Ht|].
  split; [exact Hd|exact Hf].
Defined.

Lemma scale_usgs_collection2_missing_nodata_witness :
  Exists (fun kv : string * DataArray => lacks_nodata store0 kv.2) (data_vars cube_no_nodata) /\
  (scale_usgs_collection2 (L := f64) true cube_no_nodata store0).1 = Raise (KeyError "nodata") /\
  extends store0 (scale_usgs_collection2 (L := f64) true cube_no_nodata store0).2.
Proof.
  assert (Exists (fun kv : string * DataArray => lacks_nodata store0 kv.2)
            (data_vars cube_no_nodata)) as H.
  { apply Exists_cons_tl, Exists_cons_hd. eexists. split; [reflexivity|]. reflexivity. }
  split; [exact H|].
  apply (scale_usgs_collection2_missing_nodata (L := f64) true cube_no_nodata store0); [|exact H].
  repeat constructor; eexists _, _; split; reflexivity.
Defined.

(** ** The renaming, for any names *)

Lemma rename_keys_subseteq (name_dict : list (string * string)) (l : list string) :
  forallb (fun kv : string * string => bool_decide (kv.1 ∈ l)) name_dict = true <->
  names name_dict ⊆ l.
Proof.
  unfold names. induction name_dict as [|[k k'] nd IH]; simpl.
  - split; [intros _ x Hx; by apply elem_of_nil in Hx|done].
  - rewrite andb_true_iff, IH, bool_decide_eq_true. split.
    + intros [Hk Hs] x Hx. apply elem_of_cons in Hx as [->|Hx]; [done|by apply Hs].
    + intros Hs. split; [apply Hs; by left|]. intros x Hx. apply Hs. by right.
Qed.

Lemma rename_vars_conflict name_dict vars : forall done s,
  Forall (fun kv : string * DataArray => is_Some (dicts s !! da_attrs kv.2)) vars ->
  ~ (NoDup (new_name name_dict <$> names vars) /\
     Forall (fun k => new_name name_dict k ∉ done) (names vars)) ->
  exists s', rename_vars name_dict done vars s = (Raise ValueError, s').
Proof.
  induction vars as [|[k v] vars IH]; intros done s Hattrs Hno.
  { exfalso. apply Hno. split; [constructor|constructor]. }
  apply Forall_cons in Hattrs as [[d Hd] Hattrs]. simpl in Hd.
  simpl. unfold shallow_copy.
  rewrite (run_bind_Ok _ _ _ _ _ (set_attrs_run v (da_attrs v) s d Hd)).
  destruct (bool_decide (new_name name_dict k ∈ done)) eqn:Hin.
  { eexists. reflexivity. }
  apply bool_decide_eq_false in Hin.
  set (s1 := Store (arrays s) (<[fresh (dom (dicts s)) := d]> (dicts s))).
  destruct (IH (new_name name_dict k :: done) s1) as [s' E].
  - eapply Forall_impl; [exact Hattrs|]. intros kv [d' Hd']. simpl.
    destruct (decide (fresh (dom (dicts s)) = da_attrs kv.2)) as [Heq|Hne].
    + rewrite <- Heq, lookup_insert_eq. by eexists.
    + rewrite lookup_insert_ne; [by eexists|done].
  - intros [Hnd Hall]. apply Hno. unfold names in *. simpl. split.
    + constructor; [|done]. intros Hk.
      apply list_elem_of_fmap in Hk as (k0 & Hk0 & Hin0).
      rewrite Forall_forall in Hall. specialize (Hall k0 Hin0).
      apply Hall. rewrite <- Hk0. by left.
    + constructor; [done|]. eapply Forall_impl; [exact Hall|].
      intros k0 Hk0 Hin0. apply Hk0. by right.
  - exists s'. by rewrite (run_bind_Raise _ _ _ _ _ E).
Qed.

Lemma rename_rel_names name_dict vars vs :
  Forall2 (rename_rel name_dict) vars vs -> names vs = new_name name_dict <$> names vars.
Proof.
  unfold names. induction 1 as [|???? [E _] _ IH]; simpl; [done|]. by f_equal.
Qed.

(** Lines 67 to 70: the renaming never raises; it renames every variable
    or none. *)
Lemma rename_or_keep_total fc s d :
  Forall (fun kv : string * DataArray => is_Some (dicts s !! da_attrs kv.2)) (data_vars fc) ->
  dicts s !! ds_attrs fc = Some d ->
  exists out s',
    try_except_ValueError (Dataset_rename fc rename_dict) (ret fc) s = (Ok out, s') /\
    extends s s' /\
    time out = time fc /\
    dicts s' !! ds_attrs out = Some d /\
    names (data_vars out) = rename_outcome (names (data_vars fc)) /\
    Forall2 (fun kv kv' : string * DataArray =>
               da_buf kv'.2 = da_buf kv.2 /\ da_window kv'.2 = da_window kv.2)
      (data_vars fc) (data_vars out).
Proof.
  intros Hattrs Hd.
  pose proof (mono_try_except (Dataset_rename fc rename_dict) (ret fc)
                (mono_Dataset_rename fc rename_dict) (mono_ret fc) s) as Hm.
  assert (Forall2 (fun kv kv' : string * DataArray =>
                     da_buf kv'.2 = da_buf kv.2 /\ da_window kv'.2 = da_window kv.2)
            (data_vars fc) (data_vars fc)) as Hsame.
  { apply Forall_Forall2_diag, Forall_forall. done. }
  unfold rename_outcome.
  destruct (forallb (fun kv : string * string => bool_decide (kv.1 ∈ names (data_vars fc)))
              rename_dict) eqn:Hkeys.
  - pose proof (proj1 (rename_keys_subseteq _ _) Hkeys) as Hsub.
    destruct (decide (NoDup (new_name rename_dict <$> names (data_vars fc)))) as [Hnd|Hdup].
    + rewrite bool_decide_eq_true_2 by done.
      destruct (rename_vars_spec rename_dict (data_vars fc) [] s) as (vs & s1 & E & HR).
      { done. }
      { apply Forall_forall. intros k _. apply not_elem_of_nil. }
      { done. }
      assert (extends s s1) as He1.
      { pose proof (mono_rename_vars rename_dict [] (data_vars fc) s) as H1.
        by rewrite E in H1. }
      assert (dicts s1 !! ds_attrs fc = Some d) as Hd1 by by apply He1.
      assert (Dataset_rename fc rename_dict s =
                (Ok {| data_vars := vs; time := time fc;
                       ds_attrs := fresh (dom (dicts s1)) |},
                 Store (arrays s1) (<[fresh (dom (dicts s1)) := d]> (dicts s1)))) as Er.
      { unfold Dataset_rename. rewrite Hkeys.
        rewrite (run_bind_Ok _ _ _ _ _ E).
        by rewrite (run_bind_Ok _ _ _ _ _ (copy_dict_run _ _ _ Hd1)). }
      unfold try_except_ValueError in *. rewrite Er in *. simpl in Hm.
      eexists _, _. split; [reflexivity|]. split; [done|]. split; [done|].
      split; [apply lookup_insert_eq|]. simpl. split; [by apply rename_rel_names|].
      eapply Forall2_impl; [exact HR|]. by intros kv kv' (_ & ? & ?).
    + rewrite bool_decide_eq_false_2 by (intros [_ ?]; done).
      destruct (rename_vars_conflict rename_dict (data_vars fc) [] s Hattrs) as [s1 E].
      { intros [? _]. done. }
      assert (Dataset_rename fc rename_dict s = (Raise ValueError, s1)) as Er.
      { unfold Dataset_rename. rewrite Hkeys. by rewrite (run_bind_Raise _ _ _ _ _ E). }
      unfold try_except_ValueError in *. rewrite Er in *. simpl in Hm.
      exists fc, s1. split; [done|]. split; [done|]. split; [done|].
      split; [by apply Hm|]. done.
  - rewrite bool_decide_eq_false_2.
    2:{ intros [Hsub _]. apply rename_keys_subseteq in Hsub. congruence. }
    assert (Dataset_rename fc rename_dict s = (Raise ValueError, s)) as Er.
    { unfold Dataset_rename. by rewrite Hkeys. }
    unfold try_except_ValueError in *. rewrite Er in *.
    exists fc, s. split; [done|]. split; [apply extends_refl|]. done.
Qed.

Lemma rename_outcome_perm l l' : l ≡ₚ l' -> rename_outcome l ≡ₚ rename_outcome l'.
Proof.
  intros Hp. unfold rename_outcome.
  assert (names rename_dict ⊆ l /\ NoDup (new_name rename_dict <$> l) <->
          names rename_dict ⊆ l' /\ NoDup (new_name rename_dict <$> l')) as Hiff.
  { by rewrite Hp. }
  destruct (decide (names rename_dict ⊆ l /\ NoDup (new_name rename_dict <$> l))) as [H|H].
  - rewrite !bool_decide_eq_true_2; [by rewrite Hp|by apply Hiff|done].
  - rewrite !bool_decide_eq_false_2; [done|by rewrite <- Hiff|done].
Qed.

(** ** [FractionalCover.compute], for any names *)

Lemma slice_at_time s data i sl :
  slice_at s data i = Ok sl -> time data !! i = Some (sl_time sl).
Proof.
  unfold slice_at. destruct (time data !! i) as [t|]; [|done].
  destruct (mapR _ _) as [vars|e]; [|done].
  destruct (dicts s !! ds_attrs data); [|done]. by intros [= <-].
Qed.

Section ComputeGeneral.
Context {L : ArrayLib}.
Variable fractional_cover :
  Slice -> list Measurement -> gmap string (list pynum) -> result Slice.
Variable map_restores_attrs : bool.

(** [compute] up to the concatenation (lines 54 to 65). *)
Lemma compute_to_concat self data s dd bands :
  wf_cube s data ->
  dicts s !! ds_attrs data = Some dd ->
  (c2_scaling self = true ->
   Forall (fun kv : string * DataArray => declares_nodata s kv.2) (data_vars data)) ->
  (0 < length (time data))%nat ->
  returns_bands fractional_cover bands ->
  exists data' s1 outs first fc s2,
    prepare map_restores_attrs self data s = (Ok data', s1) /\
    time data' = time data /\
    Forall2 (unmixed fractional_cover self s1 data') (seq 0 (length (time data))) outs /\
    Forall (fun o : Slice => names (sl_vars o) ≡ₚ bands) outs /\
    outs !! 0%nat = Some first /\
    FractionalCover_compute fractional_cover map_restores_attrs self data s =
      (let! crs := dict_getitem (ds_attrs data') "crs" in
       do! dict_setitem (ds_attrs fc) "crs" crs in
       try_except_ValueError (Dataset_rename fc rename_dict) (ret fc)) s2 /\
    dicts s2 !! ds_attrs data' = Some dd /\
    time fc = sl_time <$> outs /\
    dicts s2 !! ds_attrs fc = Some (sl_attrs first) /\
    Forall2 (concat_rel outs s2) (sl_vars first) (data_vars fc).
Proof.
  intros Hwf Hdd Hnd Hn Hret.
  destruct (prepare_spec map_restores_attrs self data s dd Hwf Hdd Hnd)
    as (data' & s1 & E1 & He1 & Ht & Ha & _ & Hwf1).
  destruct (unmix_loop_spec fractional_cover self data' s1 (seq 0 (length (time data'))) [])
    as (outs & E2 & HR2).
  { apply Forall_forall. intros i Hi. apply elem_of_seq in Hi as [_ Hi]. simpl in Hi.
    destruct (slice_at_spec s1 data' i Hwf1 Hi) as (sl & Hsl & _).
    destruct (Hret sl FC_MEASUREMENTS (regression_coefficients self)) as (o & Ho & _).
    exists o, sl. done. }
  simpl in E2. rewrite Ht in E2, HR2.
  assert (Forall (fun o : Slice => names (sl_vars o) ≡ₚ bands) outs) as Hnames.
  { apply Forall_forall. intros o Ho. apply list_elem_of_lookup in Ho as [i Hi].
    destruct (Forall2_lookup_r _ _ _ _ _ HR2 Hi) as (j & _ & sl & _ & Hfc).
    destruct (Hret sl FC_MEASUREMENTS (regression_coefficients self)) as (o' & Ho' & Hp).
    congruence. }
  destruct outs as [|first rest].
  { apply Forall2_length in HR2. rewrite length_seq in HR2. simpl in HR2. lia. }
  destruct (xr_concat_spec first rest s1) as (fc & s2 & E3 & He2 & Ht3 & Hd3 & _ & HR3).
  { apply forallb_forall. intros o Ho. apply list_elem_of_In in Ho.
    eapply Forall_forall in Ho; [|exact Hnames]. simpl in Ho.
    apply Forall_cons in Hnames as [Hfirst _].
    apply bool_decide_eq_true_2. split; intros k; rewrite Ho, Hfirst; done. }
  exists data', s1, (first :: rest), first, fc, s2.
  split; [done|]. split; [done|]. split; [done|]. split; [done|]. split; [done|]. split.
  { unfold FractionalCover_compute.
    rewrite (run_bind_Ok _ _ _ _ _ E1), Ht.
    rewrite (run_bind_Ok _ _ _ _ _ E2).
    by rewrite (run_bind_Ok _ _ _ _ _ E3). }
  split; [by apply He2|]. done.
Qed.

(** The whole of [compute], whatever the names of the bands that the
    unmixing returns. *)
Lemma compute_general self data s crs bands :
  compute_pre self data s crs ->
  returns_bands fractional_cover bands ->
  exists data' s1 outs first out s',
    prepare map_restores_attrs self data s = (Ok data', s1) /\
    time data' = time data /\
    Forall2 (unmixed fractional_cover self s1 data') (seq 0 (length (time data))) outs /\
    Forall (fun o : Slice => names (sl_vars o) ≡ₚ bands) outs /\
    outs !! 0%nat = Some first /\
    FractionalCover_compute fractional_cover map_restores_attrs self data s = (Ok out, s') /\
    time out = sl_time <$> outs /\
    dicts s' !! ds_attrs out = Some (<["crs" := crs]> (sl_attrs first)) /\
    names (data_vars out) = rename_outcome (names (sl_vars first)) /\
    Forall2 (fun (kv2 : string * Variable2) (kv : string * DataArray) =>
               da_window kv.2 = None /\
               arrays s' !! da_buf kv.2 = Some (planes_of kv2.1 outs))
      (sl_vars first) (data_vars out).
Proof.
  intros (Hwf & (dd & Hdd & Hcrs) & Hnd & Hn) Hret.
  destruct (compute_to_concat self data s dd bands Hwf Hdd Hnd Hn Hret)
    as (data' & s1 & outs & first & fc & s2 & E1 & Ht & HR2 & Hnames & Hfirst & E & Hdd2 &
        Ht3 & Hd3 & HR3).
  pose proof (dict_getitem_run _ _ _ _ _ Hdd2 Hcrs) as E4.
  pose proof (dict_setitem_run (ds_attrs fc) "crs" crs s2 _ Hd3) as E5.
  set (s3 := Store (arrays s2) (<[ds_attrs fc := <["crs" := crs]> (sl_attrs first)]> (dicts s2)))
    in E5.
  assert (names (data_vars fc) = names (sl_vars first)) as Hfcnames.
  { clear -HR3. unfold names. induction HR3 as [|???? [E _] _ IH]; simpl; [done|].
    by f_equal. }
  destruct (rename_or_keep_total fc s3 (<["crs" := crs]> (sl_attrs first)))
    as (out & s' & E6 & He6 & Ht6 & Hd6 & Hn6 & HR6).
  { eapply Forall2_Forall_r; [exact HR3|]. apply Forall_forall.
    intros kv2 _ kv (_ & _ & _ & [d Hd]). simpl.
    destruct (decide (ds_attrs fc = da_attrs kv.2)) as [->|Hne].
    - rewrite lookup_insert_eq. by eexists.
    - rewrite lookup_insert_ne; [by eexists|done]. }
  { simpl. apply lookup_insert_eq. }
  exists data', s1, outs, first, out, s'.
  split; [done|]. split; [done|]. split; [done|]. split; [done|]. split; [done|]. split.
  { rewrite E. rewrite (run_bind_Ok _ _ _ _ _ E4). rewrite (run_bind_Ok _ _ _ _ _ E5).
    exact E6. }
  split; [congruence|]. split; [done|]. split; [congruence|].
  eapply Forall2_trans; [|exact HR3|exact HR6].
  intros kv2 kvm kv (Em & Wm & Am & _) (Eb & Ew).
  split; [congruence|]. rewrite Eb. apply He6. simpl. done.
Qed.

Lemma unmix_loop_raise self data s i sl e pre : forall fc post,
  Forall (fun j => exists o, unmixed fractional_cover self s data j o) pre ->
  slice_at s data i = Ok sl ->
  fractional_cover sl FC_MEASUREMENTS (regression_coefficients self) = Raise e ->
  unmix_loop fractional_cover self data fc (pre ++ i :: post) s = (Raise e, s).
Proof.
  induction pre as [|j pre IH]; intros fc post Hpre Hsl He; simpl.
  - unfold bind, Dataset_isel_time, lift. by rewrite Hsl, He.
  - apply Forall_cons in Hpre as [(o & sl' & Hsl' & Ho) Hpre].
    unfold bind at 1, Dataset_isel_time. rewrite Hsl'.
    unfold bind at 1, lift. rewrite Ho. by apply IH.
Qed.

End ComputeGeneral.

Lemma seq_split (n i : nat) :
  (i < n)%nat -> seq 0 n = seq 0 i ++ i :: seq (S i) (n - S i).
Proof.
  intros Hi. replace n with (i + S (n - S i))%nat at 1 by lia.
  by rewrite seq_app.
Qed.

Lemma Forall2_Exists_transfer {A B} (R : A -> B -> Prop) (P : A -> Prop) (Q : B -> Prop) l k :
  (forall x y, R x y -> P x -> Q y) -> Forall2 R l k -> Exists P l -> Exists Q k.
Proof.
  intros HPQ HR. induction HR as [|x y l k Hxy _ IH]; intros Hex.
  - by apply Exists_nil in Hex.
  - apply Exists_cons in Hex as [Hx|Hex]; [left; eauto|right; auto].
Qed.

Section ComputeErrors.
Context {L : ArrayLib}.
Variable fractional_cover :
  Slice -> list Measurement -> gmap string (list pynum) -> result Slice.
Variable map_restores_attrs : bool.

Lemma prepare_raise self data s :
  c2_scaling self = true ->
  Forall (fun kv : string * DataArray => readable s kv.2) (data_vars data) ->
  Exists (fun kv : string * DataArray => lacks_nodata s kv.2) (data_vars data) ->
  exists s', prepare map_restores_attrs self data s = (Raise (KeyError "nodata"), s').
Proof.
  intros Hc2 Hall Hex. unfold prepare. rewrite Hc2.
  destruct (test_mode self).
  - destruct (Dataset_isel_yx_spec 100 100 data s Hall) as (data1 & E & _ & _ & R).
    destruct (Dataset_isel_yx 100 100 data s) as [r s1] eqn:E1. simpl in E, R. subst r.
    rewrite (run_bind_Ok _ _ _ _ _ E1).
    apply scale_usgs_collection2_raise.
    + eapply vars_rel_readable; exact R.
    + eapply Forall2_Exists_transfer; [|exact R|exact Hex].
      intros kv kv' (_ & v & d & _ & Hd & _ & Hd') (d0 & Hd0 & Hnone).
      exists d. split; [done|]. congruence.
  - unfold bind, ret. by apply scale_usgs_collection2_raise.
Qed.

(** X4: with [c2_scaling], [FractionalCover.compute] on a cube one of
    whose bands declares no nodata raises [KeyError('nodata')], with and
    without [test_mode] and whatever the unmixing function: the error
    comes before any unmixing, and the input is kept. *)
Theorem compute_missing_nodata self data s :
  c2_scaling self = true ->
  Forall (fun kv : string * DataArray => readable s kv.2) (data_vars data) ->
  Exists (fun kv : string * DataArray => lacks_nodata s kv.2) (data_vars data) ->
  (FractionalCover_compute fractional_cover map_restores_attrs self data s).1
    = Raise (KeyError "nodata") /\
  extends s (FractionalCover_compute fractional_cover map_restores_attrs self data s).2.
Proof.
  intros Hc2 Hall Hex. split; [|apply compute_frame].
  destruct (prepare_raise self data s Hc2 Hall Hex) as [s' E].
  unfold FractionalCover_compute. by rewrite (run_bind_Raise _ _ _ _ _ E).
Qed.

(** X5: [FractionalCover.compute] on a cube without a [crs] attribute
    raises [KeyError('crs')] (line 66, after the unmixing and the
    concatenation), and the input is kept. *)
Theorem compute_missing_crs self data s dd bands :
  wf_cube s data ->
  dicts s !! ds_attrs data = Some dd ->
  dd !! "crs" = None ->
  (c2_scaling self = true ->
   Forall (fun kv : string * DataArray => declares_nodata s kv.2) (data_vars data)) ->
  (0 < length (time data))%nat ->
  returns_bands fractional_cover bands ->
  (FractionalCover_compute fractional_cover map_restores_attrs self data s).1
    = Raise (KeyError "crs") /\
  extends s (FractionalCover_compute fractional_cover map_restores_attrs self data s).2.
Proof.
  intros Hwf Hdd Hnone Hnd Hn Hret. split; [|apply compute_frame].
  destruct (compute_to_concat fractional_cover map_restores_attrs self data s dd bands
              Hwf Hdd Hnd Hn Hret)
    as (data' & s1 & outs & first & fc & s2 & _ & _ & _ & _ & _ & E & Hdd2 & _).
  rewrite E. unfold bind at 1. unfold dict_getitem, read_dict, bind, raise.
  by rewrite Hdd2, Hnone.
Qed.

(** X6: an exception that [fractional_cover] raises at a time step,
    the earlier time steps having been unmixed, leaves
    [FractionalCover.compute] unchanged (a [ValueError] too: the loop is
    outside the [try]); nothing is concatenated, the store is the one
    that the preparation of lines 54 to 59 left. *)
Theorem compute_propagates_unmix_failure self data s data' s1 i sl e :
  prepare map_restores_attrs self data s = (Ok data', s1) ->
  (i < length (time data'))%nat ->
  (forall j, (j < i)%nat -> exists o, unmixed fractional_cover self s1 data' j o) ->
  slice_at s1 data' i = Ok sl ->
  fractional_cover sl FC_MEASUREMENTS (regression_coefficients self) = Raise e ->
  FractionalCover_compute fractional_cover map_restores_attrs self data s = (Raise e, s1).
Proof.
  intros E1 Hi Hpre Hsl He.
  unfold FractionalCover_compute. rewrite (run_bind_Ok _ _ _ _ _ E1).
  rewrite (seq_split _ _ Hi).
  apply run_bind_Raise. apply (unmix_loop_raise _ _ _ _ _ sl); [|done|done].
  apply Forall_forall. intros j Hj. apply elem_of_seq in Hj. apply Hpre. lia.
Qed.

(** X7: the renaming of lines 67 to 70 is all or nothing.  Whatever
    the names [bands] of the variables that the unmixing returns,
    [FractionalCover.compute] returns a cube; its variables carry the
    new names when [BS], [PV], [NPV] and [UE] are all among [bands] and
    the new names do not meet, and the names [bands] themselves
    otherwise (the [ValueError] of [rename] is swallowed). *)
Theorem compute_rename_outcome self data s crs bands :
  compute_pre self data s crs ->
  returns_bands fractional_cover bands ->
  exists out s',
    FractionalCover_compute fractional_cover map_restores_attrs self data s = (Ok out, s') /\
    names (data_vars out) ≡ₚ rename_outcome bands.
Proof.
  intros Hpre Hret.
  destruct (compute_general fractional_cover map_restores_attrs self data s crs bands Hpre Hret)
    as (data' & s1 & outs & first & out & s' & _ & _ & _ & Hnames & Hfirst & E & _ & _ & Hn & _).
  exists out, s'. split; [done|]. rewrite Hn. apply rename_outcome_perm.
  eapply Forall_lookup_1 in Hnames; [|exact Hfirst]. done.
Qed.

(** X8: the cube-level attributes of the result of
    [FractionalCover.compute] are those of the unmixed slice of time
    index 0 with [crs] set to the value of the input: of the cube-level
    attributes of the input, only [crs] is carried over. *)
Theorem compute_result_attrs self data s crs bands :
  compute_pre self data s crs ->
  returns_bands fractional_cover bands ->
  exists out s' data' s1 sl first,
    FractionalCover_compute fractional_cover map_restores_attrs self data s = (Ok out, s') /\
    prepare map_restores_attrs self data s = (Ok data', s1) /\
    slice_at s1 data' 0 = Ok sl /\
    fractional_cover sl FC_MEASUREMENTS (regression_coefficients self) = Ok first /\
    dicts s' !! ds_attrs out = Some (<["crs" := crs]> (sl_attrs first)).
Proof.
  intros Hpre Hret.
  destruct (compute_general fractional_cover map_restores_attrs self data s crs bands Hpre Hret)
    as (data' & s1 & outs & first & out & s' & E1 & _ & HR & _ & Hfirst & E & _ & Hd & _).
  destruct (Forall2_lookup_r _ _ _ _ _ HR Hfirst) as (j & Hj & sl & Hsl & Hfc).
  apply lookup_seq in Hj as [-> _]. simpl in Hsl.
  exists out, s', data', s1, sl, first. done.
Qed.

(** X9: when the unmixing returns slices with the time of the slice
    it is given, the time coordinate of the result of
    [FractionalCover.compute] is the time coordinate of the input. *)
Theorem compute_time_coordinate self data s crs bands :
  compute_pre self data s crs ->
  returns_bands fractional_cover bands ->
  keeps_time fractional_cover ->
  exists out s',
    FractionalCover_compute fractional_cover map_restores_attrs self data s = (Ok out, s') /\
    time out = time data.
Proof.
  intros Hpre Hret Hkeep.
  destruct (compute_general fractional_cover map_restores_attrs self data s crs bands Hpre Hret)
    as (data' & s1 & outs & first & out & s' & _ & Ht & HR & _ & _ & E & Hto & _).
  exists out, s'. split; [done|]. rewrite Hto.
  apply list_eq. intros i. rewrite list_lookup_fmap.
  destruct (outs !! i) as [o|] eqn:Ho; simpl.
  - destruct (Forall2_lookup_r _ _ _ _ _ HR Ho) as (j & Hj & sl & Hsl & Hfc).
    apply lookup_seq in Hj as [-> _]. simpl in Hsl.
    apply slice_at_time in Hsl. rewrite Ht in Hsl.
    rewrite (Hkeep _ _ _ _ Hfc). done.
  - symmetry. apply lookup_ge_None. apply lookup_ge_None in Ho.
    apply Forall2_length in HR. rewrite length_seq in HR. lia.
Qed.

End ComputeErrors.

Lemma wf_cube_no_crs : wf_cube store0 cube_no_crs.
Proof.
  split; [eexists; reflexivity|]. repeat constructor; eexists; reflexivity.
Qed.

Lemma mixed_unmix_returns : returns_bands mixed_unmix ["PV"; "NPV"; "BS"; "ue"].
Proof. intros sl ms rc. eexists. split; reflexivity. Qed.

Lemma toy_unmix_keeps_time : keeps_time toy_unmix.
Proof. intros sl ms rc o [= <-]. reflexivity. Qed.

Lemma compute_missing_nodata_witness :
  Exists (fun kv : string * DataArray => lacks_nodata store0 kv.2) (data_vars cube_no_nodata) /\
  (FractionalCover_compute (L := f64) toy_unmix true self0 cube_no_nodata store0).1
    = Raise (KeyError "nodata") /\
  extends store0 (FractionalCover_compute (L := f64) toy_unmix true self0 cube_no_nodata store0).2.
Proof.
  assert (Exists (fun kv : string * DataArray => lacks_nodata store0 kv.2)
            (data_vars cube_no_nodata)) as H.
  { apply Exists_cons_tl, Exists_cons_hd. eexists. split; reflexivity. }
  split; [exact H|].
  apply (compute_missing_nodata (L := f64) toy_unmix true self0 cube_no_nodata store0);
    [reflexivity| |exact H].
  repeat constructor; eexists _, _; split; reflexivity.
Defined.

Lemma compute_missing_crs_witness :
  wf_cube store0 cube_no_crs /\
  returns_bands toy_unmix upper_names /\
  (FractionalCover_compute (L := f64) toy_unmix true self0 cube_no_crs store0).1
    = Raise (KeyError "crs") /\
  extends store0 (FractionalCover_compute (L := f64) toy_unmix true self0 cube_no_crs store0).2.
Proof.
  split; [exact wf_cube_no_crs|]. split; [exact toy_unmix_returns_upper|].
  apply (compute_missing_crs (L := f64) toy_unmix true self0 cube_no_crs store0
           {[ "units" := AStr "1" ]} upper_names wf_cube_no_crs eq_refl eq_refl).
  - intros _. exact declares_nodata0.
  - simpl. lia.
  - exact toy_unmix_returns_upper.
Defined.

Lemma compute_propagates_unmix_failure_witness :
  prepare (L := f64) true self_plain cube0 store0 = (Ok cube0, store0) /\
  FractionalCover_compute (L := f64) failing_unmix true self_plain cube0 store0
    = (Raise IndexError, store0).
Proof.
  split; [reflexivity|].
  destruct (slice_at store0 cube0 1) as [sl|e] eqn:Hsl; [|discriminate Hsl].
  apply (compute_propagates_unmix_failure (L := f64) failing_unmix true self_plain cube0 store0
           cube0 store0 1 sl IndexError); [reflexivity|simpl; lia| |exact Hsl|].
  - intros [|j] Hj; [|lia].
    destruct (slice_at store0 cube0 0) as [sl0|e0] eqn:Hsl0; [|discriminate Hsl0].
    exists {| sl_vars := [("PV", pick "green" sl0); ("NPV", pick "red" sl0);
                          ("BS", pick "nir" sl0); ("UE", pick "swir1" sl0)];
              sl_time := sl_time sl0; sl_attrs := ∅ |}, sl0.
    split; [exact Hsl0|]. injection Hsl0 as <-. reflexivity.
  - injection Hsl as <-. reflexivity.
Defined.

Lemma compute_rename_outcome_witness :
  compute_pre self0 cube0 store0 crs0 /\
  returns_bands mixed_unmix ["PV"; "NPV"; "BS"; "ue"] /\
  exists out s',
    FractionalCover_compute (L := f64) mixed_unmix true self0 cube0 store0 = (Ok out, s') /\
    names (data_vars out) ≡ₚ ["PV"; "NPV"; "BS"; "ue"].
Proof.
  split; [exact compute_pre0|]. split; [exact mixed_unmix_returns|].
  exact (compute_rename_outcome (L := f64) mixed_unmix true self0 cube0 store0 crs0
           ["PV"; "NPV"; "BS"; "ue"] compute_pre0 mixed_unmix_returns).
Defined.

Lemma compute_result_attrs_witness :
  compute_pre self0 cube0 store0 crs0 /\
  returns_bands toy_unmix upper_names /\
  exists out s',
    FractionalCover_compute (L := f64) toy_unmix true self0 cube0 store0 = (Ok out, s') /\
    dicts s' !! ds_attrs out = Some {[ "crs" := crs0 ]}.
Proof.
  split; [exact compute_pre0|]. split; [exact toy_unmix_returns_upper|].
  destruct (compute_result_attrs (L := f64) toy_unmix true self0 cube0 store0 crs0
              upper_names compute_pre0 toy_unmix_returns_upper)
    as (out & s' & data' & s1 & sl & first & E & _ & _ & Hf & Hd).
  exists out, s'. split; [exact E|]. rewrite Hd. injection Hf as <-. reflexivity.
Defined.

Lemma compute_time_coordinate_witness :
  compute_pre self0 cube0 store0 crs0 /\
  returns_bands toy_unmix upper_names /\
  keeps_time toy_unmix /\
  exists out s',
    FractionalCover_compute (L := f64) toy_unmix true self0 cube0 store0 = (Ok out, s') /\
    time out = [10; 20].
Proof.
  split; [exact compute_pre0|]. split; [exact toy_unmix_returns_upper|].
  split; [exact toy_unmix_keeps_time|].
  exact (compute_time_coordinate (L := f64) toy_unmix true self0 cube0 store0 crs0
           upper_names compute_pre0 toy_unmix_returns_upper toy_unmix_keeps_time).
Defined.

(** ** Views *)

Lemma crop_small h w (v : ndarray) n ny nx :
  shape v = replicate n (replicate ny nx) -> (ny <= h)%nat -> (nx <= w)%nat -> crop h w v = v.
Proof.
  intros Hs Hy Hx. unfold crop.
  rewrite <- (list_fmap_id v) at 2. apply list_fmap_ext.
  intros t plane Ht. simpl.
  assert (plane_shape plane = replicate ny nx) as Hp by (eapply shape_lookup; eauto).
  assert (length plane = ny) as Hl.
  { unfold plane_shape in Hp. apply (f_equal length) in Hp.
    by rewrite length_fmap, length_replicate in Hp. }
  rewrite take_ge by lia.
  rewrite <- (list_fmap_id plane) at 2. apply list_fmap_ext.
  intros y row Hrow. simpl. apply take_ge.
  assert (plane_shape plane !! y = Some (length row)) as Hr.
  { unfold plane_shape. by rewrite list_lookup_fmap, Hrow. }
  rewrite Hp in Hr. apply lookup_replicate in Hr as [-> _]. done.
Qed.

(** A function that gives a variable new attributes, a copy of its
    own, and the window [win] on the same buffer, mapped over the
    variables of a cube. *)
Lemma map_vars_rebind (f : DataArray -> M DataArray) (win : DataArray -> option (nat * nat))
    s0 vars :
  (forall da s d, dicts s !! da_attrs da = Some d ->
     f da s = (Ok {| da_buf := da_buf da; da_window := win da;
                     da_attrs := fresh (dom (dicts s)) |},
               Store (arrays s) (<[fresh (dom (dicts s)) := d]> (dicts s)))) ->
  forall s, extends s0 s ->
    Forall (fun kv : string * DataArray => is_Some (dicts s0 !! da_attrs kv.2)) vars ->
    exists vars' s',
      map_vars f vars s = (Ok vars', s') /\ arrays s' = arrays s /\ extends s s' /\
      Forall2 (fun kv kv' : string * DataArray =>
                 kv'.1 = kv.1 /\ da_buf kv'.2 = da_buf kv.2 /\ da_window kv'.2 = win kv.2 /\
                 dicts s0 !! da_attrs kv'.2 = None /\
                 dicts s' !! da_attrs kv'.2 = dicts s0 !! da_attrs kv.2)
        vars vars'.
Proof.
  intros Hf. induction vars as [|[k da] vars IH]; intros s He Hall.
  { exists [], s. split; [done|]. split; [done|]. split; [apply extends_refl|constructor]. }
  apply Forall_cons in Hall as [[d Hd] Hall]. simpl in Hd.
  assert (dicts s !! da_attrs da = Some d) as Hds by by apply He.
  set (s1 := Store (arrays s) (<[fresh (dom (dicts s)) := d]> (dicts s))).
  assert (extends s s1) as He1.
  { apply extends_insert_dict; [apply extends_refl|apply fresh_dict_None]. }
  destruct (IH s1 (extends_trans _ _ _ He He1) Hall) as (vars' & s' & E & Ha & He' & R).
  exists ((k, {| da_buf := da_buf da; da_window := win da;
                 da_attrs := fresh (dom (dicts s)) |}) :: vars'), s'.
  split; [|split; [done|split; [by eapply extends_trans|]]].
  { rewrite map_vars_cons, (Hf da s d Hds). fold s1. by rewrite E. }
  constructor; [|done]. simpl. split; [done|]. split; [done|]. split; [done|]. split.
  - eapply extends_None_dict; [exact He|apply fresh_dict_None].
  - rewrite Hd. apply He'. simpl. apply lookup_insert_eq.
Qed.

Lemma readable_attrs s vars :
  Forall (fun kv : string * DataArray => readable s kv.2) vars ->
  Forall (fun kv : string * DataArray => is_Some (dicts s !! da_attrs kv.2)) vars.
Proof. intros H. eapply Forall_impl; [exact H|]. intros kv (v & d & _ & Hd). by exists d. Qed.

(** X10: the selection of line 56, [data.isel(x=slice(0, w),
    y=slice(0, h))], copies no cell.  No buffer is allocated, every
    variable of the result is a view of the buffer of the variable it
    comes from, with attributes equal to that variable's in a dictionary
    of its own, and its cells are those of the first [h] rows and [w]
    columns; the time coordinate and the cube-level attribute
    dictionary are those of the input. *)
Theorem Dataset_isel_yx_views h w data s :
  Forall (fun kv : string * DataArray => readable s kv.2) (data_vars data) ->
  exists data' s',
    Dataset_isel_yx h w data s = (Ok data', s') /\
    arrays s' = arrays s /\
    time data' = time data /\ ds_attrs data' = ds_attrs data /\
    Forall2 (fun kv kv' : string * DataArray =>
               kv'.1 = kv.1 /\ da_buf kv'.2 = da_buf kv.2 /\
               dicts s !! da_attrs kv'.2 = None /\
               band_attrs s' kv'.2 = band_attrs s kv.2 /\
               exists v v',
                 band_value s kv.2 = Some v /\ band_value s' kv'.2 = Some v' /\
                 forall t y x, cell v' t y x = window_cell h w v t y x)
      (data_vars data) (data_vars data').
Proof.
  intros Hall.
  destruct (map_vars_rebind (Variable_isel_yx h w) (fun da => slice_window h w (da_window da))
              s (data_vars data)) with (s := s) as (vars' & s' & E & Ha & He & R).
  { intros da s1 d Hd. unfold Variable_isel_yx.
    by rewrite (run_bind_Ok _ _ _ _ _ (copy_dict_run _ _ _ Hd)). }
  { apply extends_refl. }
  { by apply readable_attrs. }
  eexists _, s'. split.
  { unfold Dataset_isel_yx. rewrite (run_bind_Ok _ _ _ _ _ E). reflexivity. }
  split; [done|]. split; [done|]. split; [done|]. simpl.
  clear E. revert Hall R. generalize (data_vars data). intros vars Hall R.
  induction R as [|kv kv' vars vars0 (Hk & Hb & Hw & Hn & Hd) _ IH]; [constructor|].
  apply Forall_cons in Hall as [(v & d & Hv & _) Hall].
  constructor; [|by apply IH].
  split; [done|]. split; [done|]. split; [done|]. split; [done|].
  exists v, (crop h w v). split; [done|]. split; [|intros; apply cell_crop].
  unfold band_value in *. rewrite Hb, Hw, Ha.
  destruct (arrays s !! da_buf kv.2) as [a|]; [|done]. simpl in *.
  injection Hv as <-. by rewrite view_slice_window.
Qed.

Lemma Forall2_same_names {A} (R : string * A -> string * A -> Prop) l l' :
  (forall kv kv', R kv kv' -> kv'.1 = kv.1) -> Forall2 R l l' -> names l' = names l.
Proof.
  intros HR. unfold names. induction 1 as [|kv kv' ?? H _ IH]; simpl; [done|].
  f_equal; [by apply HR|done].
Qed.

Lemma Dataset_isel_yx_views_witness :
  exists data' s',
    Dataset_isel_yx 1 1 cube0 store0 = (Ok data', s') /\
    arrays s' = arrays store0 /\
    time data' = time cube0 /\ ds_attrs data' = ds_attrs cube0 /\
    names (data_vars data') = names (data_vars cube0).
Proof.
  destruct (Dataset_isel_yx_views 1 1 cube0 store0 readable0)
    as (data' & s' & E & Ha & Ht & Hd & R).
  exists data', s'. split; [exact E|]. split; [exact Ha|]. split; [exact Ht|].
  split; [exact Hd|].
  eapply Forall2_same_names; [|exact R]. intros kv kv' [Hk _]. exact Hk.
Defined.

(** ** Test mode on a cube within the window *)

Lemma variable_at_band s i da :
  variable_at s i da =
    match band_value s da, band_attrs s da with
    | Some v, Some d =>
        match v !! i with
        | Some plane => Ok {| v_values := plane; v_attrs := d |}
        | None => Raise IndexError
        end
    | _, _ => Raise InvalidRef
    end.
Proof.
  unfold variable_at, band_value, band_attrs.
  by destruct (arrays s !! da_buf da), (dicts s !! da_attrs da).
Qed.

Lemma slice_at_eq s1 data1 s2 data2 :
  time data1 = time data2 ->
  dicts s1 !! ds_attrs data1 = dicts s2 !! ds_attrs data2 ->
  Forall2 (fun kv1 kv2 : string * DataArray =>
             kv1.1 = kv2.1 /\ band_value s1 kv1.2 = band_value s2 kv2.2 /\
             band_attrs s1 kv1.2 = band_attrs s2 kv2.2)
    (data_vars data1) (data_vars data2) ->
  forall i, slice_at s1 data1 i = slice_at s2 data2 i.
Proof.
  intros Ht Hd R i. unfold slice_at. rewrite Ht, Hd.
  destruct (time data2 !! i); [|done].
  assert (mapR (fun kv : string * DataArray =>
                  match variable_at s1 i kv.2 with
                  | Ok v => Ok (kv.1, v)
                  | Raise e => Raise e
                  end) (data_vars data1) =
          mapR (fun kv : string * DataArray =>
                  match variable_at s2 i kv.2 with
                  | Ok v => Ok (kv.1, v)
                  | Raise e => Raise e
                  end) (data_vars data2)) as ->; [|done].
  induction R as [|kv1 kv2 l1 l2 (Hk & Hv & Ha) _ IH]; simpl; [done|].
  by rewrite !variable_at_band, Hv, Ha, Hk, IH.
Qed.

Lemma Forall2_join {A B C} (P : A -> B -> Prop) (Q : A -> C -> Prop) l k1 k2 :
  Forall2 P l k1 -> Forall2 Q l k2 ->
  Forall2 (fun y1 y2 => exists x, x ∈ l /\ P x y1 /\ Q x y2) k1 k2.
Proof.
  intros HP. revert k2. induction HP as [|x y1 l k1 Hxy _ IH]; intros k2 HQ.
  - apply Forall2_nil_inv_l in HQ as ->. constructor.
  - apply Forall2_cons_inv_l in HQ as (y2 & k2' & Hq & HQ & ->).
    constructor.
    + exists x. split; [by left|done].
    + eapply Forall2_impl; [apply IH; exact HQ|].
      intros y1' y2' (x' & Hin & ? & ?). exists x'. split; [by right|done].
Qed.

Lemma Forall2_functional {A B} (P Q : A -> B -> Prop) l k1 k2 :
  (forall x y1 y2, P x y1 -> Q x y2 -> y1 = y2) ->
  Forall2 P l k1 -> Forall2 Q l k2 -> k1 = k2.
Proof.
  intros Hf HP. revert k2. induction HP as [|x y1 l k1 Hxy _ IH]; intros k2 HQ.
  - by apply Forall2_nil_inv_l in HQ as ->.
  - apply Forall2_cons_inv_l in HQ as (y2 & k2' & Hq & HQ & ->).
    f_equal; [by eapply Hf|by apply IH].
Qed.

Section SmallCubes.
Context {L : ArrayLib}.
Variable fractional_cover :
  Slice -> list Measurement -> gmap string (list pynum) -> result Slice.
Variable map_restores_attrs : bool.

(** On a cube of at most 100 rows and 100 columns, the slices that are
    unmixed are the same with and without test mode. *)
Lemma prepare_small rc c2 data s dd n ny nx :
  wf_cube s data ->
  dicts s !! ds_attrs data = Some dd ->
  (c2 = true ->
   Forall (fun kv : string * DataArray => declares_nodata s kv.2) (data_vars data)) ->
  Forall (fun kv : string * DataArray =>
            exists v, band_value s kv.2 = Some v /\ shape v = replicate n (replicate ny nx))
    (data_vars data) ->
  (ny <= 100)%nat -> (nx <= 100)%nat ->
  exists data1 s1 data2 s2,
    prepare map_restores_attrs
      {| regression_coefficients := rc; c2_scaling := c2; test_mode := true |} data s
      = (Ok data1, s1) /\
    prepare map_restores_attrs
      {| regression_coefficients := rc; c2_scaling := c2; test_mode := false |} data s
      = (Ok data2, s2) /\
    forall i, slice_at s1 data1 i = slice_at s2 data2 i.
Proof.
  intros Hwf Hdd Hnd Hshape Hy Hx.
  destruct (prepare_spec map_restores_attrs
              {| regression_coefficients := rc; c2_scaling := c2; test_mode := true |}
              data s dd Hwf Hdd Hnd) as (data1 & s1 & E1 & _ & Ht1 & Hd1 & R1 & _).
  destruct (prepare_spec map_restores_attrs
              {| regression_coefficients := rc; c2_scaling := c2; test_mode := false |}
              data s dd Hwf Hdd Hnd) as (data2 & s2 & E2 & _ & Ht2 & Hd2 & R2 & _).
  exists data1, s1, data2, s2. split; [done|]. split; [done|].
  apply slice_at_eq; [congruence|congruence|].
  eapply Forall2_impl; [exact (Forall2_join _ _ _ _ _ R1 R2)|].
  intros kv1 kv2 (kv & Hin & (Hk1 & v1 & d1 & Hv1 & Ha1 & Hv1' & Ha1')
                            & (Hk2 & v2 & d2 & Hv2 & Ha2 & Hv2' & Ha2')).
  rewrite Forall_forall in Hshape. destruct (Hshape kv Hin) as (v & Hv & Hs).
  assert (v1 = v) as -> by congruence. assert (v2 = v) as -> by congruence.
  assert (d2 = d1) as -> by congruence.
  split; [congruence|]. split; [|by rewrite Ha1', Ha2'].
  rewrite Hv1', Hv2'. unfold prepared_value, subsample, normalized. simpl.
  by rewrite (crop_small 100 100 v n ny nx Hs Hy Hx).
Qed.

(** X11: on a cube of at most 100 rows and 100 columns [test_mode]
    changes nothing of what [FractionalCover.compute] returns: with and
    without it the result has the same variable names in the same
    order, the same time coordinate, the same cube-level attributes and
    the same cells in every variable. *)
Theorem compute_test_mode_small_cube rc c2 data s crs bands n ny nx :
  compute_pre {| regression_coefficients := rc; c2_scaling := c2; test_mode := true |}
    data s crs ->
  returns_bands fractional_cover bands ->
  Forall (fun kv : string * DataArray =>
            exists v, band_value s kv.2 = Some v /\ shape v = replicate n (replicate ny nx))
    (data_vars data) ->
  (ny <= 100)%nat -> (nx <= 100)%nat ->
  exists out1 s1 out2 s2,
    FractionalCover_compute fractional_cover map_restores_attrs
      {| regression_coefficients := rc; c2_scaling := c2; test_mode := true |} data s
      = (Ok out1, s1) /\
    FractionalCover_compute fractional_cover map_restores_attrs
      {| regression_coefficients := rc; c2_scaling := c2; test_mode := false |} data s
      = (Ok out2, s2) /\
    names (data_vars out1) = names (data_vars out2) /\
    time out1 = time out2 /\
    dicts s1 !! ds_attrs out1 = dicts s2 !! ds_attrs out2 /\
    Forall2 (fun kv1 kv2 : string * DataArray =>
               da_window kv1.2 = None /\ da_window kv2.2 = None /\
               exists a, arrays s1 !! da_buf kv1.2 = Some a /\
                         arrays s2 !! da_buf kv2.2 = Some a)
      (data_vars out1) (data_vars out2).
Proof.
  intros Hpre Hret Hshape Hy Hx.
  assert (compute_pre {| regression_coefficients := rc; c2_scaling := c2; test_mode := false |}
            data s crs) as Hpre2 by exact Hpre.
  destruct Hpre as (Hwf & (dd & Hdd & Hcrs) & Hnd & Hn).
  destruct (prepare_small rc c2 data s dd n ny nx Hwf Hdd Hnd Hshape Hy Hx)
    as (data1 & s1 & data2 & s2 & Ep1 & Ep2 & Hsl).
  destruct (compute_general fractional_cover map_restores_attrs _ data s crs bands
              (conj Hwf (conj (ex_intro _ dd (conj Hdd Hcrs)) (conj Hnd Hn))) Hret)
    as (data1' & s1' & outs1 & first1 & out1 & t1 & Ep1' & _ & HR1 & _ & Hf1 & E1 & Ht1 & Hd1 &
        Hn1 & HB1).
  destruct (compute_general fractional_cover map_restores_attrs _ data s crs bands Hpre2 Hret)
    as (data2' & s2' & outs2 & first2 & out2 & t2 & Ep2' & _ & HR2 & _ & Hf2 & E2 & Ht2 & Hd2 &
        Hn2 & HB2).
  rewrite Ep1 in Ep1'. injection Ep1' as <- <-.
  rewrite Ep2 in Ep2'. injection Ep2' as <- <-.
  assert (outs1 = outs2) as Houts.
  { eapply Forall2_functional; [|exact HR1|exact HR2].
    intros i o1 o2 (sl1 & Hs1 & Ho1) (sl2 & Hs2 & Ho2). simpl in *.
    rewrite Hsl, Hs2 in Hs1. injection Hs1 as <-. congruence. }
  subst outs2. assert (first2 = first1) as -> by congruence.
  exists out1, t1, out2, t2. split; [done|]. split; [done|].
  split; [congruence|]. split; [congruence|]. split; [congruence|].
  eapply Forall2_impl; [exact (Forall2_join _ _ _ _ _ HB1 HB2)|].
  intros kv1 kv2 (kv & _ & (Hw1 & Ha1) & (Hw2 & Ha2)). eauto.
Qed.

End SmallCubes.

Lemma compute_test_mode_small_cube_witness :
  compute_pre self0 cube0 store0 crs0 /\
  returns_bands toy_unmix upper_names /\
  exists out1 s1 out2 s2,
    FractionalCover_compute (L := f64) toy_unmix true self0 cube0 store0 = (Ok out1, s1) /\
    FractionalCover_compute (L := f64) toy_unmix true (FractionalCover_init None true false)
      cube0 store0 = (Ok out2, s2) /\
    names (data_vars out1) = names (data_vars out2) /\
    time out1 = time out2.
Proof.
  split; [exact compute_pre0|]. split; [exact toy_unmix_returns_upper|].
  destruct (compute_test_mode_small_cube (L := f64) toy_unmix true
              (regression_coefficients self0) true cube0 store0 crs0 upper_names 2 2 2
              compute_pre0 toy_unmix_returns_upper shape0 ltac:(lia) ltac:(lia))
    as (out1 & s1 & out2 & s2 & E1 & E2 & Hn & Ht & _).
  exists out1, s1, out2, s2. split; [exact E1|]. split; [exact E2|]. split; [exact Hn|exact Ht].
Defined.

(** ** [FakeFractionalCover.compute]: sharing and missing bands *)


Lemma Dataset_init_views vars coord l s d :
  Forall (fun kv : string * DataArray => is_Some (dicts s !! da_attrs kv.2)) vars ->
  dicts s !! l = Some d ->
  exists data' s',
    Dataset_init vars coord (Some l) s = (Ok data', s') /\
    arrays s' = arrays s /\
    dicts s !! ds_attrs data' = None /\
    Forall2 (fun kv kv' : string * DataArray =>
               kv'.1 = kv.1 /\ da_buf kv'.2 = da_buf kv.2 /\ da_window kv'.2 = da_window kv.2 /\
               dicts s !! da_attrs kv'.2 = None)
      vars (data_vars data').
Proof.
  intros Hall Hd.
  destruct (map_vars_rebind shallow_copy da_window s vars) with (s := s)
    as (vars' & s1 & E & Ha & He & R).
  { intros da s1 d1 Hd1. unfold shallow_copy. by apply set_attrs_run. }
  { apply extends_refl. }
  { done. }
  assert (dicts s1 !! l = Some d) as Hd1 by by apply He.
  eexists _, _. split.
  { unfold Dataset_init. rewrite (run_bind_Ok _ _ _ _ _ E).
    rewrite (run_bind_Ok _ _ _ _ _ (copy_dict_run _ _ _ Hd1)). reflexivity. }
  simpl. split; [done|]. split.
  { eapply extends_None_dict; [exact He|apply fresh_dict_None]. }
  eapply Forall2_impl; [exact R|]. intros kv kv' (? & ? & ? & ? & _). done.
Qed.

Section FakeSharing.
Context {L : ArrayLib}.
Variable map_restores_attrs : bool.

(** X12: the variables [pv] and [bs] that
    [FakeFractionalCover.compute] returns are views of one buffer (both
    are [data.red]), and the attribute dictionaries of the result are
    new ones.  Without [c2_scaling] no buffer is allocated: [pv] and
    [bs] are views of the red buffer of the input and [npv] of its green
    buffer. *)
Theorem Fake_compute_shares_buffers self data s dd red green :
  Forall (fun kv : string * DataArray => readable s kv.2) (data_vars data) ->
  (c2_scaling self = true ->
   Forall (fun kv : string * DataArray => declares_nodata s kv.2) (data_vars data)) ->
  dicts s !! ds_attrs data = Some dd ->
  lookup_var "red" (data_vars data) = Some red ->
  lookup_var "green" (data_vars data) = Some green ->
  exists out s' pv bs npv,
    FakeFractionalCover_compute map_restores_attrs self data s = (Ok out, s') /\
    data_vars out = [("pv", pv); ("bs", bs); ("npv", npv)] /\
    da_buf pv = da_buf bs /\ da_window pv = da_window bs /\
    dicts s !! da_attrs pv = None /\ dicts s !! da_attrs bs = None /\
    dicts s !! da_attrs npv = None /\ dicts s !! ds_attrs out = None /\
    (c2_scaling self = false ->
     da_buf pv = da_buf red /\ da_buf npv = da_buf green /\ arrays s' = arrays s).
Proof.
  intros Hread Hnd Hdd Hred Hgreen.
  destruct (c2_stage_spec map_restores_attrs self data s dd Hread Hnd Hdd)
    as (data1 & s1 & E1 & He1 & Ht1 & Ha1 & R1).
  destruct (vars_rel_lookup _ _ _ _ _ _ _ _ R1 Hred) as (red1 & Hred1 & Rr).
  destruct (vars_rel_lookup _ _ _ _ _ _ _ _ R1 Hgreen) as (green1 & Hgreen1 & Rg).
  destruct (Dataset_init_views [("pv", red1); ("bs", red1); ("npv", green1)] (time data1)
              (ds_attrs data1) s1 dd) as (out & s2 & E2 & Harr & Hfresh & R2); [|done|].
  { destruct Rr as (v & d & _ & _ & _ & Hd). destruct Rg as (v' & d' & _ & _ & _ & Hd').
    repeat constructor; simpl; by eexists. }
  apply Forall2_cons_inv_l in R2 as ([k1 pv] & vs1 & (Ek1 & Bpv & Wpv & Npv) & R2 & Evs).
  apply Forall2_cons_inv_l in R2 as ([k2 bs] & vs2 & (Ek2 & Bbs & Wbs & Nbs) & R2 & ->).
  apply Forall2_cons_inv_l in R2 as ([k3 npv] & vs3 & (Ek3 & Bnpv & Wnpv & Nnpv) & R2 & ->).
  apply Forall2_nil_inv_l in R2 as ->. simpl in *. subst k1 k2 k3.
  exists out, s2, pv, bs, npv. split.
  { unfold FakeFractionalCover_compute. rewrite (run_bind_Ok _ _ _ _ _ E1).
    unfold Dataset_getattr. rewrite Hred1, Hgreen1. exact E2. }
  split; [done|]. split; [congruence|]. split; [congruence|].
  split; [by eapply extends_None_dict|]. split; [by eapply extends_None_dict|].
  split; [by eapply extends_None_dict|]. split; [by eapply extends_None_dict|].
  intros Hc2. rewrite Hc2 in E1. injection E1 as <- <-.
  split; [congruence|]. split; [congruence|done].
Qed.


End FakeSharing.

Lemma Fake_compute_shares_buffers_witness :
  exists out s' pv bs npv,
    FakeFractionalCover_compute (L := f64) true self_plain cube0 store0 = (Ok out, s') /\
    data_vars out = [("pv", pv); ("bs", bs); ("npv", npv)] /\
    da_buf pv = da_buf bs /\
    da_buf pv = da_buf red0 /\ da_buf npv = da_buf green0 /\ arrays s' = arrays store0.
Proof.
  destruct (Fake_compute_shares_buffers (L := f64) true self_plain cube0 store0
              {[ "crs" := crs0 ]} red0 green0 readable0 ltac:(discriminate) eq_refl eq_refl
              eq_refl)
    as (out & s' & pv & bs & npv & E & Hv & Hb & _ & _ & _ & _ & _ & Hc).
  destruct (Hc eq_refl) as (Hr & Hg & Ha).
  exists out, s', pv, bs, npv.
  split; [exact E|]. split; [exact Hv|]. split; [exact Hb|]. split; [exact Hr|].
  split; [exact Hg|exact Ha].
Defined.


(** ** The empty time axis, the declared measurements, the metadata *)

Section ComputeEdges.
Context {L : ArrayLib}.
Variable fractional_cover :
  Slice -> list Measurement -> gmap string (list pynum) -> result Slice.
Variable map_restores_attrs : bool.

(** X14: on every cube whose time axis is empty
    [FractionalCover.compute] raises [ValueError], whatever the unmixing
    function and the options: the loop collects nothing and
    [xr.concat] refuses the empty list (line 65, outside the [try]). *)
Theorem compute_empty_time_axis self data s :
  wf_cube s data ->
  (c2_scaling self = true ->
   Forall (fun kv : string * DataArray => declares_nodata s kv.2) (data_vars data)) ->
  time data = [] ->
  (FractionalCover_compute fractional_cover map_restores_attrs self data s).1
    = Raise ValueError.
Proof.
  intros Hwf Hnd Ht. pose proof Hwf as [[dd Hdd] _].
  destruct (prepare_spec map_restores_attrs self data s dd Hwf Hdd Hnd)
    as (data' & s1 & E1 & _ & Ht1 & _).
  unfold FractionalCover_compute. rewrite (run_bind_Ok _ _ _ _ _ E1).
  rewrite Ht1, Ht. reflexivity.
Qed.

(** X15: when the unmixing names its bands [PV], [NPV], [BS], [UE] or
    [pv], [npv], [bs], [ue], the variables of the cube that
    [FractionalCover.compute] returns are exactly the measurements that
    [FractionalCover.measurements] declares, for every
    [input_measurements]. *)
Theorem compute_returns_declared_measurements self data s crs bands input_measurements :
  compute_pre self data s crs ->
  returns_bands fractional_cover bands ->
  bands = upper_names \/ bands = lower_names ->
  exists out s',
    FractionalCover_compute fractional_cover map_restores_attrs self data s = (Ok out, s') /\
    names (data_vars out) ≡ₚ names (FractionalCover_measurements self input_measurements).
Proof.
  intros Hpre Hret Hbands.
  destruct (compute_general fractional_cover map_restores_attrs self data s crs bands Hpre Hret)
    as (data' & s1 & outs & first & out & s' & _ & _ & _ & Hnames & Hfirst & E & _ & _ & Hn & _).
  eapply Forall_lookup_1 in Hnames; [|exact Hfirst]. simpl in Hnames.
  exists out, s'. split; [done|].
  rewrite Hn, (rename_outcome_perm _ _ Hnames).
  by destruct Hbands as [-> | ->].
Qed.

End ComputeEdges.

(** X16: the metadata of [FractionalCover.algorithm_metadata] is
    determined by the regression coefficients and [c2_scaling], and
    determines them: two instances have the same metadata exactly when
    they agree on both.  [test_mode] is not recorded. *)
Theorem algorithm_metadata_configuration version self self' :
  FractionalCover_algorithm_metadata version self =
    FractionalCover_algorithm_metadata version self' <->
  regression_coefficients self = regression_coefficients self' /\
  c2_scaling self = c2_scaling self'.
Proof.
  unfold FractionalCover_algorithm_metadata. split.
  - intros [= -> ->]. done.
  - intros [-> ->]. done.
Qed.

Lemma compute_empty_time_axis_witness :
  wf_cube store_empty cube_empty /\
  time cube_empty = [] /\
  (FractionalCover_compute (L := f64) toy_unmix true self0 cube_empty store_empty).1
    = Raise ValueError.
Proof.
  assert (wf_cube store_empty cube_empty) as Hwf.
  { split; [eexists; reflexivity|]. repeat constructor; eexists; reflexivity. }
  split; [exact Hwf|]. split; [reflexivity|].
  apply (compute_empty_time_axis (L := f64) toy_unmix true self0 cube_empty store_empty Hwf);
    [|reflexivity].
  intros _. exact declares_nodata0.
Defined.

Lemma compute_returns_declared_measurements_witness :
  compute_pre self0 cube0 store0 crs0 /\
  returns_bands toy_unmix upper_names /\
  exists out s',
    FractionalCover_compute (L := f64) toy_unmix true self0 cube0 store0 = (Ok out, s') /\
    names (data_vars out) ≡ₚ names (FractionalCover_measurements self0 []).
Proof.
  split; [exact compute_pre0|]. split; [exact toy_unmix_returns_upper|].
  exact (compute_returns_declared_measurements (L := f64) toy_unmix true self0 cube0 store0 crs0
           upper_names [] compute_pre0 toy_unmix_returns_upper (or_introl eq_refl)).
Defined.

(** ** Test mode and the scaling *)


Section WindowOfScaling.
Context {L : ArrayLib}.
Variable map_restores_attrs : bool.



End WindowOfScaling.


